(** * IFC-to-graph importer

    A shallow embedding of the IFC importer of [08_AI_Agent/5_infra_graph_rag]:
    the two graph writers ([Neo4jDatabase], [FalkorDBDatabase]), the two
    converters ([IFCToGraphConverter], [IFCToFalkorDBConverter]), the batch
    driver ([import_ifc.main]) and the agent's query tool
    ([Neo4jQueryTool.execute_query]).

    The Python methods become computations in a state-and-exception monad
    over a [World]: the property graph held by the database, the connection
    handle, a schedule of driver events, the clock, standard input, the log
    and the state of the open transaction.  The parsing library and the database engine are outside the
    repository; the engine is represented by the meaning of the few Cypher
    statements the writers issue. *)

From Stdlib Require Import String Ascii ZArith List Bool Lia.
From stdpp Require Import base option list gmap strings pretty.
Import ListNotations.
Local Open Scope string_scope.

(** ** Python strings *)

Module Py.

(** A [str] is held as its UTF-8 encoding. *)
Definition byte (n : N) : ascii := ascii_of_N n.

(** The encoding of one code point. *)
Definition utf8 (cp : N) : string :=
  (if cp <? 128 then String (byte cp) ""
   else if cp <? 2048 then
     String (byte (192 + cp / 64)) (String (byte (128 + cp mod 64)) "")
   else if cp <? 65536 then
     String (byte (224 + cp / 4096))
       (String (byte (128 + (cp / 64) mod 64)) (String (byte (128 + cp mod 64)) ""))
   else
     String (byte (240 + cp / 262144))
       (String (byte (128 + (cp / 4096) mod 64))
          (String (byte (128 + (cp / 64) mod 64)) (String (byte (128 + cp mod 64)) ""))))%N.

(** Bytes [10xxxxxx] continue a character. *)
Definition is_continuation (c : ascii) : bool :=
  let n := N_of_ascii c in (128 <=? n)%N && (n <? 192)%N.

(** The characters of a string, each with its continuation bytes. *)
Fixpoint chars (s : string) : list string :=
  match s with
  | EmptyString => []
  | String c r =>
      match chars r with
      | String c' ch :: rest =>
          if (128 <=? N_of_ascii c)%N && is_continuation c'
          then String c (String c' ch) :: rest
          else String c "" :: String c' ch :: rest
      | rest => String c "" :: rest
      end
  end.

Definition concat (l : list string) : string := fold_right String.append "" l.

Definition lower_ascii (c : ascii) : ascii :=
  let n := nat_of_ascii c in
  if (65 <=? n)%nat && (n <=? 90)%nat then ascii_of_nat (n + 32) else c.

(** Lower case of one character where the result has an ASCII letter:
    [A]-[Z], KELVIN SIGN and LATIN CAPITAL LETTER I WITH DOT ABOVE. *)
Definition lower_char (ch : string) : string :=
  if String.eqb ch (utf8 8490) then "k"
  else if String.eqb ch (utf8 304) then "i" ++ utf8 775
  else match ch with
       | String c EmptyString => String (lower_ascii c) ""
       | _ => ch
       end.

(** [str.lower()], for the comparisons with ASCII text made of its
    result: the other characters, where they change at all, change to
    characters outside ASCII. *)
Definition lower (s : string) : string := concat (map lower_char (chars s)).

(** The code points for which [str.isspace()] holds, which are those
    [str.strip()] removes. *)
Definition whitespace : list N :=
  [9; 10; 11; 12; 13; 28; 29; 30; 31; 32; 133; 160; 5760;
   8192; 8193; 8194; 8195; 8196; 8197; 8198; 8199; 8200; 8201; 8202;
   8232; 8233; 8239; 8287; 12288]%N.

Definition is_space (ch : string) : bool :=
  existsb (fun cp => String.eqb ch (utf8 cp)) whitespace.

Fixpoint lstrip_chars (l : list string) : list string :=
  match l with
  | [] => []
  | ch :: r => if is_space ch then lstrip_chars r else l
  end.

Definition lstrip (s : string) : string := concat (lstrip_chars (chars s)).

Definition rstrip (s : string) : string :=
  concat (rev (lstrip_chars (rev (chars s)))).

Definition strip (s : string) : string :=
  concat (rev (lstrip_chars (rev (lstrip_chars (chars s))))).

(** [needle in hay]. *)
Fixpoint contains (needle hay : string) : bool :=
  String.prefix needle hay ||
  match hay with
  | EmptyString => false
  | String _ r => contains needle r
  end.

(** A name that can be spliced after [:] in a Cypher pattern: a letter
    or underscore followed by letters, digits and underscores. *)
Definition ident_start (c : ascii) : bool :=
  let n := nat_of_ascii c in
  ((65 <=? n)%nat && (n <=? 90)%nat) || ((97 <=? n)%nat && (n <=? 122)%nat)
  || (n =? 95)%nat.

Definition ident_part (c : ascii) : bool :=
  let n := nat_of_ascii c in
  ident_start c || ((48 <=? n)%nat && (n <=? 57)%nat).

Fixpoint all_chars (p : ascii -> bool) (s : string) : bool :=
  match s with
  | EmptyString => true
  | String c r => p c && all_chars p r
  end.

Definition is_ident (s : string) : bool :=
  match s with
  | EmptyString => false
  | String c r => ident_start c && all_chars ident_part r
  end.

(** Truth value of [Optional[str]]: [None] and [""] are false. *)
Definition truthy (o : option string) : bool :=
  match o with
  | Some s => negb (String.eqb s "")
  | None => false
  end.

(** [', '.join(l)]. *)
Fixpoint join (sep : string) (l : list string) : string :=
  match l with
  | [] => ""
  | [x] => x
  | x :: r => x ++ sep ++ join sep r
  end.

(** A [dict] with string keys in insertion order; assignment to a key
    that is present replaces its value in place. *)
Fixpoint dict_set {V} (k : string) (v : V) (d : list (string * V)) : list (string * V) :=
  match d with
  | [] => [(k, v)]
  | (k', v') :: r => if String.eqb k k' then (k, v) :: r else (k', v') :: dict_set k v r
  end.

Fixpoint dict_get {V} (k : string) (d : list (string * V)) : option V :=
  match d with
  | [] => None
  | (k', v') :: r => if String.eqb k k' then Some v' else dict_get k r
  end.

Definition values {V} (d : list (string * V)) : list V := map snd d.

End Py.

(** ** The property graph *)

(** Property-set name to (property name to scalar), as extracted. *)
Definition PropertySets := list (string * list (string * string)).

(** Property values.  [VTime t] stands for the ISO-8601 text that
    [datetime.fromtimestamp(t).isoformat()] (or [datetime.now()]) renders,
    [VJson p] for the text [json.dumps(p)]. *)
Inductive value :=
| VStr (s : string)
| VInt (z : Z)
| VTime (t : Z)
| VJson (p : PropertySets).

#[global] Instance value_eq_dec : EqDecision value.
Proof. solve_decision. Defined.

Record Node := mkNode {
  labels : gset string;
  nprops : gmap string value
}.

Record Edge := mkEdge {
  src : nat;
  dst : nat;
  etype : string;
  eprops : gmap string value
}.

(** Nodes and edges are kept in creation order; a node is named by its
    position. *)
Record Graph := mkGraph {
  nodes : list Node;
  edges : list Edge
}.

Definition empty_graph : Graph := mkGraph [] [].

Definition node_count (g : Graph) : nat := length (nodes g).
Definition edge_count (g : Graph) : nat := length (edges g).

(** ** Cypher *)

Module Cypher.

Definition find_indices {A} (p : A -> bool) (l : list A) : list nat :=
  List.filter (fun i => match l !! i with Some a => p a | None => false end)
              (seq 0 (length l)).

(** [(n:L1:L2 {k: v})] *)
Definition node_matches (ls : gset string) (k : string) (v : value) (n : Node) : bool :=
  bool_decide (ls ⊆ labels n) && bool_decide (nprops n !! k = Some v).

(** [MATCH (n:L.. {k: v})] *)
Definition match_nodes (ls : gset string) (k : string) (v : value) (g : Graph) : list nat :=
  find_indices (node_matches ls k v) (nodes g).

(** [MERGE (n:L.. {k: v})]: the matching nodes, or a new one. *)
Definition merge_node (ls : gset string) (k : string) (v : value) (g : Graph)
  : list nat * Graph :=
  match match_nodes ls k v g with
  | [] => ([length (nodes g)],
           mkGraph (nodes g ++ [mkNode ls {[ k := v ]}])%list (edges g))
  | ids => (ids, g)
  end.

(** [SET n.k1 = v1, n.k2 = v2, ...] and [SET n += {k1: v1, ...}]. *)
Definition assign (kvs : list (string * value)) (m : gmap string value)
  : gmap string value :=
  fold_left (fun acc kv => <[ kv.1 := kv.2 ]> acc) kvs m.

Definition set_node (kvs : list (string * value)) (n : Node) : Node :=
  mkNode (labels n) (assign kvs (nprops n)).

Definition set_nodes (ids : list nat) (kvs : list (string * value)) (g : Graph) : Graph :=
  mkGraph (fold_left (fun ns i => alter (set_node kvs) i ns) ids (nodes g)) (edges g).

Definition edge_matches (s d : nat) (ty : string) (e : Edge) : bool :=
  Nat.eqb (src e) s && Nat.eqb (dst e) d && String.eqb (etype e) ty.

(** [MERGE (a)-[r:T]->(b)] for bound [a], [b]. *)
Definition merge_edge (s d : nat) (ty : string) (g : Graph) : list nat * Graph :=
  match find_indices (edge_matches s d ty) (edges g) with
  | [] => ([length (edges g)],
           mkGraph (nodes g) (edges g ++ [mkEdge s d ty ∅])%list)
  | ids => (ids, g)
  end.

Definition set_edge (k : string) (v : value) (e : Edge) : Edge :=
  mkEdge (src e) (dst e) (etype e) (<[ k := v ]> (eprops e)).

Definition set_edges (ids : list nat) (k : string) (v : value) (g : Graph) : Graph :=
  mkGraph (nodes g) (fold_left (fun es i => alter (set_edge k v) i es) ids (edges g)).

(** One row per pair of bound endpoints; each row merges its edge and
    applies [upd] to the edges it bound.  Rows are the bound edges. *)
Fixpoint merge_edges (ty : string) (upd : list nat -> Graph -> Graph)
                     (pairs : list (nat * nat)) (g : Graph) : list nat * Graph :=
  match pairs with
  | [] => ([], g)
  | (a, b) :: rest =>
      let '(ids, g1) := merge_edge a b ty g in
      let g2 := upd ids g1 in
      let '(rows, g3) := merge_edges ty upd rest g2 in
      ((ids ++ rows)%list, g3)
  end.

Definition pairs_of (xs ys : list nat) : list (nat * nat) :=
  flat_map (fun x => map (fun y => (x, y)) ys) xs.

(** The statements the writers send. *)
Inductive Query :=
(** [RETURN 1] *)
| ReturnOne
(** [MATCH (n) DETACH DELETE n] *)
| DetachDeleteAll
(** [MERGE (f:IFCFile {fileId: $fileId}) SET f ... RETURN f.fileId] *)
| MergeFile (fileId : string) (sets : list (string * value))
(** [MERGE (e:Element:<cls> {globalId: $globalId}) SET e ...
     [WITH e MATCH (f:IFCFile {fileId: $fileId})
      MERGE (e)-[:BELONGS_TO_FILE]->(f)]
     RETURN e.globalId] *)
| MergeElement (cls : string) (globalId : string) (sets : list (string * value))
               (fileId : option string)
(** [MATCH (from:Element {globalId: $from_id})
     MATCH (to:Element {globalId: $to_id})
     MERGE (from)-[r:<ty>]->(to) SET r.globalId = $rel_id RETURN r] *)
| MergeRel (ty : string) (from_id to_id rel_id : string)
(** [MATCH (n) RETURN count(n)], [MATCH (n:<label>) RETURN count(n)],
    [MATCH ()-[r]->() RETURN count(r)] and the two distributions: one
    read whose rows are not used for control. *)
| ReadOnly.

(** A statement the engine parses.  Labels are spliced into the text;
    a class name that is not a plain name makes a text other than the
    one above, taken here as rejected. *)
Definition well_formed (q : Query) : bool :=
  match q with
  | MergeElement cls _ _ _ => Py.is_ident cls
  | _ => true
  end.

(** Rows returned and graph after the statement. *)
Definition exec (q : Query) (g : Graph) : list nat * Graph :=
  match q with
  | ReturnOne => ([0], g)
  | DetachDeleteAll => ([], empty_graph)
  | MergeFile fid sets =>
      let '(fs, g1) := merge_node {[ "IFCFile" ]} "fileId" (VStr fid) g in
      (fs, set_nodes fs sets g1)
  | MergeElement cls gid sets fid =>
      let '(es, g1) := merge_node {[ "Element"; cls ]} "globalId" (VStr gid) g in
      let g2 := set_nodes es sets g1 in
      match fid with
      | None => (es, g2)
      | Some f =>
          let fs := match_nodes {[ "IFCFile" ]} "fileId" (VStr f) g2 in
          merge_edges "BELONGS_TO_FILE" (fun _ h => h) (pairs_of es fs) g2
      end
  | MergeRel ty from_id to_id rel_id =>
      let froms := match_nodes {[ "Element" ]} "globalId" (VStr from_id) g in
      let tos := match_nodes {[ "Element" ]} "globalId" (VStr to_id) g in
      merge_edges ty (fun ids h => set_edges ids "globalId" (VStr rel_id) h)
                  (pairs_of froms tos) g
  | ReadOnly => ([0], g)
  end.

End Cypher.

(** ** The world and the monad of the importer *)

(** Python exceptions: everything below [Exception] carries its text;
    [KeyboardInterrupt] is a [BaseException] that [except Exception]
    does not catch. *)
Inductive exn :=
| Exception (msg : string)
| KeyboardInterrupt.

Inductive outcome (A : Type) :=
| Ret (a : A)
| Raise (e : exn).
Arguments Ret {A} a.
Arguments Raise {A} e.

Inductive level := DEBUG | INFO | WARNING | ERROR.

(** [faults] schedules what the next statements sent to the engine meet:
    [None] (or an exhausted schedule) lets the statement run, [Some e]
    makes the driver raise [e] instead.  [stdin] holds the lines still to
    be read; [None] is an interrupt at the prompt.  [tx_failed] is the
    state of the open transaction: whether one of its statements has
    raised. *)
Record World := mkWorld {
  graph : Graph;
  driver : bool;
  faults : list (option exn);
  clock : Z;
  stdin : list (option string);
  log : list (level * string);
  tx_failed : bool
}.

Definition set_graph (g : Graph) (w : World) : World :=
  mkWorld g (driver w) (faults w) (clock w) (stdin w) (log w) (tx_failed w).
Definition set_driver (d : bool) (w : World) : World :=
  mkWorld (graph w) d (faults w) (clock w) (stdin w) (log w) (tx_failed w).
Definition set_faults (f : list (option exn)) (w : World) : World :=
  mkWorld (graph w) (driver w) f (clock w) (stdin w) (log w) (tx_failed w).
Definition set_clock (c : Z) (w : World) : World :=
  mkWorld (graph w) (driver w) (faults w) c (stdin w) (log w) (tx_failed w).
Definition set_stdin (i : list (option string)) (w : World) : World :=
  mkWorld (graph w) (driver w) (faults w) (clock w) i (log w) (tx_failed w).
Definition add_log (l : level) (m : string) (w : World) : World :=
  mkWorld (graph w) (driver w) (faults w) (clock w) (stdin w) (log w ++ [(l, m)])%list
          (tx_failed w).
Definition set_tx_failed (b : bool) (w : World) : World :=
  mkWorld (graph w) (driver w) (faults w) (clock w) (stdin w) (log w) b.

Definition M (A : Type) : Type := World -> outcome A * World.

Definition ret {A} (a : A) : M A := fun w => (Ret a, w).

Definition bind {A B} (m : M A) (k : A -> M B) : M B :=
  fun w =>
    match m w with
    | (Ret a, w') => k a w'
    | (Raise e, w') => (Raise e, w')
    end.

Definition raise {A} (e : exn) : M A := fun w => (Raise e, w).

(** [try: m  except Exception as e: h(str(e))] *)
Definition try_except {A} (m : M A) (h : string -> M A) : M A :=
  fun w =>
    match m w with
    | (Raise (Exception msg), w') => h msg w'
    | r => r
    end.

(** [try: m  except: h] with a bare [except], which catches everything. *)
Definition try_except_all {A} (m : M A) (h : M A) : M A :=
  fun w =>
    match m w with
    | (Raise _, w') => h w'
    | r => r
    end.

Declare Scope imp_scope.
Delimit Scope imp_scope with imp.
Notation "x <- m ;; k" := (bind m (fun x => k))
  (at level 100, m at next level, right associativity) : imp_scope.
Notation "m ;; k" := (bind m (fun _ => k))
  (at level 100, right associativity) : imp_scope.
Local Open Scope imp_scope.

Definition logger (l : level) (msg : string) : M unit :=
  fun w => (Ret tt, add_log l msg w).

(** [datetime.now()]: the clock is read and moves on. *)
Definition now : M Z :=
  fun w => (Ret (clock w), set_clock (clock w + 1) w).

(** What the next statement meets. *)
Definition next_event : M unit :=
  fun w =>
    match faults w with
    | [] => (Ret tt, w)
    | None :: fs => (Ret tt, set_faults fs w)
    | Some e :: fs => (Raise e, set_faults fs w)
    end.

(** The engine runs one statement: the driver may fail, a malformed
    text is rejected, otherwise the statement takes effect. *)
Definition run_statement (q : Cypher.Query) : M (list nat) :=
  next_event ;;
  if Cypher.well_formed q then
    fun w => let '(rows, g) := Cypher.exec q (graph w) in (Ret rows, set_graph g w)
  else raise (Exception "Invalid input: syntax error").

(** Attribute access on a handle that is still [None]. *)
Definition with_handle {A} (attr : string) (body : M A) : M A :=
  fun w =>
    if driver w then body w
    else (Raise (Exception ("'NoneType' object has no attribute '" ++ attr ++ "'")), w).

(** [for x in xs: if body(x): count += 1] *)
Fixpoint count_loop {A} (body : A -> M bool) (xs : list A) (count : nat) : M nat :=
  match xs with
  | [] => ret count
  | x :: rest =>
      b <- body x ;;
      count_loop body rest (if b then S count else count)
  end.

Definition nonempty {A} (l : list A) : bool :=
  match l with [] => false | _ => true end.

(** ** Records handed from the extractor to the writers *)

(** The dictionary built by [IFCParser._extract_element_data]. *)
Record ElementRecord := mkElement {
  globalId : string;
  ifcClass : string;
  name : string;
  description : string;
  objectType : string;
  tag : string;
  properties : PropertySets
}.

(** The dictionaries built by [IFCParser._extract_*_relationship], one
    constructor per value of the ['type'] key; the first argument is the
    relationship's own ['globalId']. *)
Inductive RelRecord :=
| AGGREGATES (rel_id : string) (from_element : option string) (to_elements : list string)
| CONNECTS_TO (rel_id : string) (from_element : option string) (to_element : option string)
| HAS_PROPERTY (rel_id : string) (from_elements : list string) (to_property : option string)
| CONTAINED_IN (rel_id : string) (from_elements : list string) (to_structure : option string)
| ASSIGNED_TO (rel_id : string) (from_elements : list string) (to_group : option string).

Definition rel_type (r : RelRecord) : string :=
  match r with
  | AGGREGATES _ _ _ => "AGGREGATES"
  | CONNECTS_TO _ _ _ => "CONNECTS_TO"
  | HAS_PROPERTY _ _ _ => "HAS_PROPERTY"
  | CONTAINED_IN _ _ _ => "CONTAINED_IN"
  | ASSIGNED_TO _ _ _ => "ASSIGNED_TO"
  end.

(** What [ifcopenshell.open] yields, as far as the importer looks at it:
    the products and the relations, each either turned into a record or
    failing in extraction ([None]). *)
Record IfcModel := mkIfc {
  products : list (option ElementRecord);
  relations : list (option RelRecord)
}.

(** [os.stat_result]; times in whole seconds. *)
Record Stat := mkStat {
  st_size : Z;
  st_ctime : Z;
  st_mtime : Z
}.

(** An input file as the importer sees it: the renderings of its path,
    [file_path.stat()] and [ifcopenshell.open(str(file_path))], each
    [None] when the call raises. *)
Record SourceFile := mkSourceFile {
  path_str : string;
  path_name : string;
  path_stem : string;
  path_absolute : string;
  stat : option Stat;
  ifc : option IfcModel
}.

Definition file_stat (f : SourceFile) : M Stat :=
  match stat f with
  | Some st => ret st
  | None => raise (Exception ("[Errno 2] No such file or directory: '" ++ path_str f ++ "'"))
  end.

(** [f"FILE_{file_path.stem}_{int(stat.st_mtime)}"] *)
Definition file_id_of (stem : string) (mtime : Z) : string :=
  "FILE_" ++ stem ++ "_" ++ pretty mtime.

Definition file_data (f : SourceFile) (st : Stat) (file_id : string) (t : Z)
  : list (string * value) :=
  [("fileId", VStr file_id);
   ("fileName", VStr (path_name f));
   ("filePath", VStr (path_absolute f));
   ("fileSize", VInt (st_size st));
   ("createdDate", VTime (st_ctime st));
   ("modifiedDate", VTime (st_mtime st));
   ("importDate", VTime t)].

(** The [properties] dictionary of [create_element_node]. *)
Definition element_properties (e : ElementRecord) (file_id : option string)
  : list (string * value) :=
  ([("globalId", VStr (globalId e));
    ("name", VStr (name e));
    ("ifcClass", VStr (ifcClass e));
    ("description", VStr (description e));
    ("objectType", VStr (objectType e));
    ("tag", VStr (tag e))]
   ++ (match file_id with
       | Some fid => if Py.truthy file_id then [("sourceFileId", VStr fid)] else []
       | None => []
       end)
   ++ (if nonempty (properties e) then [("properties", VJson (properties e))] else []))%list.

(** [if file_id:] *)
Definition provided (file_id : option string) : option string :=
  if Py.truthy file_id then file_id else None.

(** Statistics dictionaries of [get_stats] / [get_statistics]. *)
Record Stats := mkStats {
  total_nodes : nat;
  total_relationships : nat;
  label_counts : list (string * nat)
}.

Definition count_label (l : string) (g : Graph) : nat :=
  length (List.filter (fun n => bool_decide (l ∈ labels n)) (nodes g)).

(** ** [neo4j_database.py] *)

Module Neo4jDatabase.

(** [with self.driver.session(database=self.database) as session] *)
Definition session {A} (body : M A) : M A := with_handle "session" body.

(** [session.run(query)] *)
Definition session_run (q : Cypher.Query) : M (list nat) := run_statement q.

(** [tx.run(query, ...)]: an error of the driver is raised to the
    caller and leaves the transaction failed, whether or not the caller
    handles it. *)
Definition tx_run (q : Cypher.Query) : M (list nat) :=
  fun w =>
    match run_statement q w with
    | (Raise (Exception msg), w') => (Raise (Exception msg), set_tx_failed true w')
    | r => r
    end.

(** What the driver raises when a failed transaction is committed. *)
Definition commit_error : string := "Transaction failed".

(** [session.execute_write(fn)]: the function runs in a transaction of
    its own, which is rolled back when the function raises and committed
    when it returns; committing a failed transaction raises, and the
    transaction is rolled back. *)
Definition execute_write {A} (fn : M A) : M A :=
  fun w =>
    match fn (set_tx_failed false w) with
    | (Raise e, w') => (Raise e, set_tx_failed (tx_failed w) (set_graph (graph w) w'))
    | (Ret a, w') =>
        if tx_failed w'
        then (Raise (Exception commit_error),
              set_tx_failed (tx_failed w) (set_graph (graph w) w'))
        else (Ret a, set_tx_failed (tx_failed w) w')
    end.

Definition connect (uri : string) : M bool :=
  try_except
    ((fun w => (Ret tt, set_driver true w)) ;;
     session (session_run Cypher.ReturnOne) ;;
     logger INFO ("Neo4j database connection successful: " ++ uri) ;;
     ret true)
    (fun e =>
       logger ERROR ("Neo4j database connection failed: " ++ e) ;;
       ret false).

Definition close : M unit :=
  fun w =>
    if driver w then logger INFO "Neo4j database connection closed" w
    else (Ret tt, w).

Definition _create_file_tx (file_path : SourceFile) : M (option string) :=
  try_except
    (st <- file_stat file_path ;;
     let file_id := file_id_of (path_stem file_path) (st_mtime st) in
     t <- now ;;
     result <- tx_run (Cypher.MergeFile file_id (file_data file_path st file_id t)) ;;
     if nonempty result then
       logger DEBUG ("File node created/updated: " ++ file_id) ;;
       ret (Some file_id)
     else
       logger WARNING ("File node creation returned no result: " ++ file_id) ;;
       ret None)
    (fun e =>
       logger ERROR ("File node creation transaction failed: " ++ e) ;;
       ret None).

Definition create_file_node (file_path : SourceFile) : M (option string) :=
  try_except
    (session (execute_write (_create_file_tx file_path)))
    (fun e =>
       logger ERROR ("File node creation failed: " ++ path_str file_path
                     ++ ", error: " ++ e) ;;
       ret None).

Definition _create_element_tx (element_data : ElementRecord) (file_id : option string)
  : M bool :=
  try_except
    (let global_id := globalId element_data in
     let ifc_class := ifcClass element_data in
     let properties := element_properties element_data file_id in
     result <- tx_run (Cypher.MergeElement ifc_class global_id properties
                                           (provided file_id)) ;;
     if nonempty result then
       logger DEBUG ("Node created/updated: " ++ global_id) ;;
       ret true
     else
       logger WARNING ("Node creation returned no result: " ++ global_id) ;;
       ret false)
    (fun e =>
       logger ERROR ("Node creation transaction failed: " ++ e) ;;
       ret false).

Definition create_element_node (element_data : ElementRecord) (file_id : option string)
  : M bool :=
  try_except
    (session (execute_write (_create_element_tx element_data file_id)))
    (fun e =>
       logger ERROR ("Node creation failed: " ++ globalId element_data
                     ++ ", error: " ++ e) ;;
       ret false).

(** The loop shared by the three one-to-many kinds: no handler inside
    the loop, so a statement that raises leaves the loop. *)
Definition write_pairs (ty rel_id : string) (pairs : list (string * string)) : M bool :=
  success_count <-
    count_loop
      (fun p : string * string =>
         result <- tx_run (Cypher.MergeRel ty p.1 p.2 rel_id) ;;
         ret (nonempty result))
      pairs 0 ;;
  ret (0 <? success_count)%nat.

Definition _create_aggregates_relationship (rel_id : string) (from_id : option string)
           (to_ids : list string) : M bool :=
  match from_id with
  | Some from =>
      if negb (Py.truthy from_id) || negb (nonempty to_ids) then ret false
      else write_pairs "AGGREGATES" rel_id (map (fun to_id => (from, to_id)) to_ids)
  | None => ret false
  end.

Definition _create_connects_relationship (rel_id : string) (from_id to_id : option string)
  : M bool :=
  match from_id, to_id with
  | Some from, Some to =>
      if negb (Py.truthy from_id) || negb (Py.truthy to_id) then ret false
      else
        result <- tx_run (Cypher.MergeRel "CONNECTS_TO" from to rel_id) ;;
        ret (nonempty result)
  | _, _ => ret false
  end.

(** PropertySet is already stored as element node attributes, no
    separate relationship needed. *)
Definition _create_property_relationship (rel_id : string) (from_ids : list string)
           (to_id : option string) : M bool :=
  ret true.

Definition _create_spatial_relationship (rel_id : string) (from_ids : list string)
           (to_id : option string) : M bool :=
  match to_id with
  | Some to =>
      if negb (nonempty from_ids) || negb (Py.truthy to_id) then ret false
      else write_pairs "CONTAINED_IN" rel_id (map (fun from_id => (from_id, to)) from_ids)
  | None => ret false
  end.

Definition _create_group_relationship (rel_id : string) (from_ids : list string)
           (to_id : option string) : M bool :=
  match to_id with
  | Some to =>
      if negb (nonempty from_ids) || negb (Py.truthy to_id) then ret false
      else write_pairs "ASSIGNED_TO" rel_id (map (fun from_id => (from_id, to)) from_ids)
  | None => ret false
  end.

Definition _create_relationship_tx (rel_data : RelRecord) : M bool :=
  try_except
    (match rel_data with
     | AGGREGATES rid f ts => _create_aggregates_relationship rid f ts
     | CONNECTS_TO rid f t => _create_connects_relationship rid f t
     | HAS_PROPERTY rid fs t => _create_property_relationship rid fs t
     | CONTAINED_IN rid fs t => _create_spatial_relationship rid fs t
     | ASSIGNED_TO rid fs t => _create_group_relationship rid fs t
     end)
    (fun e =>
       logger ERROR ("Relationship creation transaction failed: " ++ e) ;;
       ret false).

Definition create_relationship (rel_data : RelRecord) : M bool :=
  try_except
    (session (execute_write (_create_relationship_tx rel_data)))
    (fun e =>
       logger ERROR ("Relationship creation failed: " ++ rel_type rel_data
                     ++ ", error: " ++ e) ;;
       ret false).

Definition clear_database : M bool :=
  try_except
    (session (session_run Cypher.DetachDeleteAll) ;;
     logger INFO "Database initialization completed" ;;
     ret true)
    (fun e =>
       logger ERROR ("Database initialization failed: " ++ e) ;;
       ret false).

Definition read_count (count : Graph -> nat) : M nat :=
  session_run Cypher.ReadOnly ;;
  fun w => (Ret (count (graph w)), w).

Definition get_stats : M Stats :=
  try_except
    (session
       (node_count <- read_count node_count ;;
        rel_count <- read_count edge_count ;;
        label_counts <-
          try_except_all
            (element_count <- read_count (count_label "Element") ;;
             let lc := if (0 <? element_count)%nat
                       then [("Element", element_count)] else [] in
             try_except_all
               (file_count <- read_count (count_label "IFCFile") ;;
                ret (if (0 <? file_count)%nat
                     then Py.dict_set "IFCFile" file_count lc else lc))
               (ret lc))
            (ret []) ;;
        ret (mkStats node_count rel_count label_counts)))
    (fun e =>
       logger ERROR ("Statistics query failed: " ++ e) ;;
       ret (mkStats 0 0 [])).

End Neo4jDatabase.

(** ** [falkordb_database.py] *)

Module FalkorDBDatabase.

(** [self.graph.query(query, params)]: no transaction around it. *)
Definition graph_query (q : Cypher.Query) : M (list nat) :=
  with_handle "query" (run_statement q).

(** [result.result_set is not None]: the result set of a query that
    returned is a list, empty when there are no rows. *)
Definition is_not_None {A} (result_set : list A) : bool := true.

Definition connect (address : string) : M bool :=
  try_except
    ((fun w => (Ret tt, set_driver true w)) ;;
     graph_query Cypher.ReturnOne ;;
     logger INFO ("FalkorDB connection successful: " ++ address) ;;
     ret true)
    (fun e =>
       logger ERROR ("FalkorDB connection failed: " ++ e) ;;
       ret false).

Definition close : M unit :=
  fun w =>
    if driver w then logger INFO "FalkorDB connection closed" (set_driver false w)
    else (Ret tt, w).

Definition clear_database : M bool :=
  try_except
    (graph_query Cypher.DetachDeleteAll ;;
     logger INFO "Database cleared successfully" ;;
     ret true)
    (fun e =>
       logger ERROR ("Database clear failed: " ++ e) ;;
       ret false).

Definition create_file_node (file_path : SourceFile) : M (option string) :=
  try_except
    (st <- file_stat file_path ;;
     let file_id := file_id_of (path_stem file_path) (st_mtime st) in
     t <- now ;;
     let file_data := file_data file_path st file_id t in
     result <- graph_query (Cypher.MergeFile file_id (tail file_data)) ;;
     if nonempty result then
       logger DEBUG ("File node created/updated: " ++ file_id) ;;
       ret (Some file_id)
     else
       logger WARNING ("File node creation returned no result: " ++ file_id) ;;
       ret None)
    (fun e =>
       logger ERROR ("File node creation failed: " ++ path_str file_path
                     ++ ", error: " ++ e) ;;
       ret None).

(** The fields named in the [SET] clause: every entry of [properties]
    but [globalId]. *)
Definition set_fields (element_data : ElementRecord) (file_id : option string)
  : list (string * value) :=
  ([("name", VStr (name element_data));
    ("ifcClass", VStr (ifcClass element_data));
    ("description", VStr (description element_data));
    ("objectType", VStr (objectType element_data));
    ("tag", VStr (tag element_data))]
   ++ (match file_id with
       | Some fid => if Py.truthy file_id then [("sourceFileId", VStr fid)] else []
       | None => []
       end)
   ++ (match Py.dict_get "properties" (element_properties element_data file_id) with
       | Some p => [("properties", p)]
       | None => []
       end))%list.

Definition create_element_node (element_data : ElementRecord) (file_id : option string)
  : M bool :=
  try_except
    (let global_id := globalId element_data in
     let ifc_class := ifcClass element_data in
     result <- graph_query (Cypher.MergeElement ifc_class global_id
                              (set_fields element_data file_id) (provided file_id)) ;;
     if nonempty result then
       logger DEBUG ("Node created/updated: " ++ global_id) ;;
       ret true
     else
       logger WARNING ("Node creation returned no result: " ++ global_id) ;;
       ret false)
    (fun e =>
       logger ERROR ("Node creation failed: " ++ globalId element_data
                     ++ ", error: " ++ e) ;;
       ret false).

(** The loop shared by the four one-to-many kinds: each pair has its
    own handler, which logs a warning and goes on. *)
Definition write_pairs (what ty rel_id : string) (pairs : list (string * string)) : M bool :=
  success_count <-
    count_loop
      (fun p : string * string =>
         try_except
           (result <- graph_query (Cypher.MergeRel ty p.1 p.2 rel_id) ;;
            ret (nonempty result))
           (fun e =>
              logger WARNING (what ++ " relationship creation failed: " ++ p.1
                              ++ " -> " ++ p.2 ++ ", error: " ++ e) ;;
              ret false))
      pairs 0 ;;
  ret (0 <? success_count)%nat.

Definition _create_aggregates_relationship (rel_id : string) (from_id : option string)
           (to_ids : list string) : M bool :=
  match from_id with
  | Some from =>
      if negb (Py.truthy from_id) || negb (nonempty to_ids) then ret false
      else write_pairs "Aggregation" "AGGREGATES" rel_id
                       (map (fun to_id => (from, to_id)) to_ids)
  | None => ret false
  end.

Definition _create_connects_relationship (rel_id : string) (from_id to_id : option string)
  : M bool :=
  match from_id, to_id with
  | Some from, Some to =>
      if negb (Py.truthy from_id) || negb (Py.truthy to_id) then ret false
      else
        try_except
          (result <- graph_query (Cypher.MergeRel "CONNECTS_TO" from to rel_id) ;;
           ret (is_not_None result))
          (fun e =>
             logger ERROR ("Connection relationship creation failed: " ++ e) ;;
             ret false)
  | _, _ => ret false
  end.

Definition many_to_one (what ty rel_id : string) (from_ids : list string)
           (to_id : option string) : M bool :=
  match to_id with
  | Some to =>
      if negb (nonempty from_ids) || negb (Py.truthy to_id) then ret false
      else write_pairs what ty rel_id (map (fun from_id => (from_id, to)) from_ids)
  | None => ret false
  end.

Definition _create_property_relationship := many_to_one "Property" "HAS_PROPERTY".
Definition _create_spatial_relationship := many_to_one "Spatial" "CONTAINED_IN".
Definition _create_group_relationship := many_to_one "Group" "ASSIGNED_TO".

Definition create_relationship (rel_data : RelRecord) : M bool :=
  try_except
    (match rel_data with
     | AGGREGATES rid f ts => _create_aggregates_relationship rid f ts
     | CONNECTS_TO rid f t => _create_connects_relationship rid f t
     | HAS_PROPERTY rid fs t => _create_property_relationship rid fs t
     | CONTAINED_IN rid fs t => _create_spatial_relationship rid fs t
     | ASSIGNED_TO rid fs t => _create_group_relationship rid fs t
     end)
    (fun e =>
       logger ERROR ("Relationship creation failed: " ++ rel_type rel_data
                     ++ ", error: " ++ e) ;;
       ret false).

End FalkorDBDatabase.

(** ** [ifc_parser.py] *)

Module IFCParser.

Definition parse_file (file_path : SourceFile) : M (option IfcModel) :=
  logger INFO ("Starting IFC file parsing: " ++ path_str file_path) ;;
  match ifc file_path with
  | Some ifc_file =>
      logger INFO ("IFC file parsing completed: " ++ path_str file_path) ;;
      ret (Some ifc_file)
  | None =>
      logger ERROR ("IFC file parsing failed: " ++ path_str file_path) ;;
      ret None
  end.

(** [for x in xs: try: out.append(extract(x)) except: warn; continue] *)
Fixpoint extract_loop {A} (what : string) (xs : list (option A)) (out : list A)
  : M (list A) :=
  match xs with
  | [] => ret out
  | Some a :: rest => extract_loop what rest (out ++ [a])%list
  | None :: rest =>
      logger WARNING (what ++ " extraction failed") ;;
      extract_loop what rest out
  end.

Definition extract_elements (ifc_file : IfcModel) : M (list ElementRecord) :=
  elements <- extract_loop "Element" (products ifc_file) [] ;;
  logger INFO ("Extracted " ++ pretty (length elements) ++ " elements in total.") ;;
  ret elements.

Definition extract_relationships (ifc_file : IfcModel) : M (list RelRecord) :=
  relationships <- extract_loop "Relationship" (relations ifc_file) [] ;;
  logger INFO ("Extracted " ++ pretty (length relationships)
               ++ " relationships in total.") ;;
  ret relationships.

End IFCParser.

(** ** [graph_converter.py] and [falkordb_graph_converter.py] *)

(** The three writes a converter asks of its database object. *)
Record GraphWriter := mkWriter {
  create_file_node : SourceFile -> M (option string);
  create_element_node : ElementRecord -> option string -> M bool;
  create_relationship : RelRecord -> M bool
}.

Definition neo4j : GraphWriter :=
  mkWriter Neo4jDatabase.create_file_node
           Neo4jDatabase.create_element_node
           Neo4jDatabase.create_relationship.

Definition falkordb : GraphWriter :=
  mkWriter FalkorDBDatabase.create_file_node
           FalkorDBDatabase.create_element_node
           FalkorDBDatabase.create_relationship.

(** [input_directory]: its rendering, [exists()] and [glob("*.ifc")]. *)
Record Directory := mkDirectory {
  dir_str : string;
  dir_exists : bool;
  glob : list SourceFile
}.

Definition Results := list (string * bool).

Definition success_count (results : Results) : nat :=
  length (List.filter (fun success : bool => success) (Py.values results)).

(** [convert_file] has the same text in both converter classes. *)
Definition convert_file (db : GraphWriter) (ifc_file_path : SourceFile) : M bool :=
  try_except
    (logger INFO ("Starting IFC file conversion: " ++ path_str ifc_file_path) ;;
     file_id <- create_file_node db ifc_file_path ;;
     if negb (Py.truthy file_id) then
       logger ERROR ("File metadata creation failed: " ++ path_str ifc_file_path) ;;
       ret false
     else
       ifc_file <- IFCParser.parse_file ifc_file_path ;;
       match ifc_file with
       | None =>
           logger ERROR ("IFC file parsing failed: " ++ path_str ifc_file_path) ;;
           ret false
       | Some ifc_file =>
           elements <- IFCParser.extract_elements ifc_file ;;
           if negb (nonempty elements) then
             logger WARNING ("No elements extracted: " ++ path_str ifc_file_path) ;;
             ret false
           else
             element_success_count <-
               count_loop (fun element => create_element_node db element file_id)
                          elements 0 ;;
             logger INFO ("Element nodes creation completed: "
                          ++ pretty element_success_count ++ "/"
                          ++ pretty (length elements)) ;;
             relationships <- IFCParser.extract_relationships ifc_file ;;
             (if nonempty relationships then
                relationship_success_count <-
                  count_loop (fun relationship => create_relationship db relationship)
                             relationships 0 ;;
                logger INFO ("Relationships creation completed: "
                             ++ pretty relationship_success_count ++ "/"
                             ++ pretty (length relationships))
              else logger INFO "No relationships extracted.") ;;
             logger INFO ("IFC file conversion completed: " ++ path_str ifc_file_path) ;;
             ret true
       end)
    (fun e =>
       logger ERROR ("Error during IFC file conversion: " ++ path_str ifc_file_path
                     ++ ", error: " ++ e) ;;
       ret false).

(** A loop over the files under [try: ... except Exception: return
    results]: when an iteration raises, the handler logs and the
    dictionary is returned as it stands ([inr]); otherwise the code after
    the loop goes on with it ([inl]). *)
Fixpoint each_file (body : SourceFile -> Results -> M Results) (handler : string -> M unit)
                   (ifc_files : list SourceFile) (results : Results)
  : M (Results + Results) :=
  match ifc_files with
  | [] => ret (inl results)
  | ifc_file :: rest =>
      step <- try_except (r <- body ifc_file results ;; ret (inl r))
                         (fun e => handler e ;; ret (inr results)) ;;
      match step with
      | inl r => each_file body handler rest r
      | inr r => ret (inr r)
      end
  end.

Module IFCToGraphConverter.

Definition convert_file := convert_file neo4j.

Definition convert_directory (input_directory : Directory) : M Results :=
  let results : Results := [] in
  let ifc_files := glob input_directory in
  if negb (nonempty ifc_files) then
    logger WARNING ("No IFC files found: " ++ dir_str input_directory) ;;
    ret results
  else
    logger INFO ("Found " ++ pretty (length ifc_files) ++ " IFC files in total.") ;;
    done <-
      each_file
        (fun ifc_file results =>
           try_except
             (result <- convert_file ifc_file ;;
              let results := Py.dict_set (path_str ifc_file) result results in
              (if result
               then logger INFO ("Conversion successful: " ++ path_name ifc_file)
               else logger ERROR ("Conversion failed: " ++ path_name ifc_file)) ;;
              ret results)
             (fun e =>
                logger ERROR ("Error processing file: " ++ path_name ifc_file
                              ++ ", error: " ++ e) ;;
                ret (Py.dict_set (path_str ifc_file) false results)))
        (fun e =>
           logger ERROR ("Error during directory conversion: "
                         ++ dir_str input_directory ++ ", error: " ++ e))
        ifc_files results ;;
    match done with
    | inl results =>
        logger INFO ("Conversion completed - successful: "
                     ++ pretty (success_count results) ++ "/"
                     ++ pretty (length results)) ;;
        ret results
    | inr results => ret results
    end.

End IFCToGraphConverter.

Module IFCToFalkorDBConverter.

Definition convert_file := convert_file falkordb.

Definition convert_directory (input_directory : Directory) : M Results :=
  let results : Results := [] in
  let ifc_files := glob input_directory in
  if negb (nonempty ifc_files) then
    logger WARNING ("No IFC files found: " ++ dir_str input_directory) ;;
    ret results
  else
    logger INFO ("Found " ++ pretty (length ifc_files) ++ " IFC files") ;;
    done <-
      each_file
        (fun ifc_file results =>
           logger INFO ("Processing file: " ++ path_name ifc_file) ;;
           success <- convert_file ifc_file ;;
           let results := Py.dict_set (path_str ifc_file) success results in
           (if success
            then logger INFO ("File conversion successful: " ++ path_name ifc_file)
            else logger ERROR ("File conversion failed: " ++ path_name ifc_file)) ;;
           ret results)
        (fun e => logger ERROR ("Error during directory conversion: " ++ e))
        ifc_files results ;;
    match done with
    | inl results => ret results
    | inr results => ret results
    end.

End IFCToFalkorDBConverter.

(** Methods of [IFCToGraphConverter] used after the conversion. *)
Module Statistics.

Definition distribution (what : string) : M unit :=
  try_except
    (Neo4jDatabase.session (Neo4jDatabase.session_run Cypher.ReadOnly) ;; ret tt)
    (fun e => logger ERROR (what ++ " type distribution query failed: " ++ e)).

Definition get_conversion_statistics : M (option Stats) :=
  try_except
    (stats <- Neo4jDatabase.get_stats ;;
     distribution "Element" ;;
     distribution "Relationship" ;;
     ret (Some stats))
    (fun e =>
       logger ERROR ("Statistics collection failed: " ++ e) ;;
       ret None).

Definition validate_conversion (ifc_file_path : SourceFile) : M unit :=
  try_except
    (logger INFO ("Starting conversion validation: " ++ path_str ifc_file_path) ;;
     ifc_file <- IFCParser.parse_file ifc_file_path ;;
     match ifc_file with
     | None => ret tt
     | Some ifc_file =>
         IFCParser.extract_elements ifc_file ;;
         IFCParser.extract_relationships ifc_file ;;
         Neo4jDatabase.get_stats ;;
         distribution "Element" ;;
         distribution "Relationship" ;;
         logger INFO ("Conversion validation completed: " ++ path_str ifc_file_path)
     end)
    (fun e =>
       logger ERROR ("Error during conversion validation: " ++ path_str ifc_file_path
                     ++ ", error: " ++ e)).

End Statistics.

(** ** [import_ifc.py] *)

Module import_ifc.

(** The parsed command line. *)
Record Args := mkArgs {
  input_dir : Directory;
  clear_db : bool;
  force_clear : bool;
  log_level : string;
  no_log_file : bool;
  validate : bool;
  stats : bool
}.

Record Config := mkConfig {
  uri : string;
  user : string;
  password : string;
  database : string
}.

Definition required_vars : list string :=
  ["NEO4J_URI"; "NEO4J_USER"; "NEO4J_PASSWORD"; "NEO4J_DATABASE"].

(** [os.getenv(var)], the [.env] file already loaded. *)
Definition getenv (environ : gmap string string) (var : string) : option string :=
  environ !! var.

Definition missing_vars (environ : gmap string string) : list string :=
  List.filter (fun var => negb (Py.truthy (getenv environ var))) required_vars.

Definition load_environment (environ : gmap string string) : M Config :=
  if nonempty (missing_vars environ) then
    raise (Exception ("Required environment variables not set: "
                      ++ Py.join ", " (missing_vars environ)))
  else
    ret (mkConfig (default "" (getenv environ "NEO4J_URI"))
                  (default "" (getenv environ "NEO4J_USER"))
                  (default "" (getenv environ "NEO4J_PASSWORD"))
                  (default "" (getenv environ "NEO4J_DATABASE"))).

(** The [while True] loop around [input(...)]: it ends on an answer,
    at the end of input ([EOFError]) or on an interrupt. *)
Fixpoint read_answer (lines : list (option string))
  : outcome bool * list (option string) :=
  match lines with
  | [] => (Raise (Exception "EOF when reading a line"), [])
  | None :: rest => (Raise KeyboardInterrupt, rest)
  | Some line :: rest =>
      let response := Py.strip (Py.lower line) in
      if String.eqb response "yes" || String.eqb response "y" then (Ret true, rest)
      else if String.eqb response "no" || String.eqb response "n" then (Ret false, rest)
      else read_answer rest
  end.

Definition ask_user : M bool :=
  fun w => let '(r, rest) := read_answer (stdin w) in (r, set_stdin rest w).

(** Lines 317-330: the exit status from the results. *)
Definition exit_status (results : Results) : M Z :=
  let success_count := success_count results in
  if Nat.eqb success_count (length results) && (0 <? length results)%nat then
    logger INFO "All files converted successfully" ;;
    ret 0%Z
  else if (0 <? success_count)%nat then
    logger INFO ("Some files converted successfully: " ++ pretty success_count
                 ++ "/" ++ pretty (length results)) ;;
    ret 0%Z
  else
    logger ERROR "All file conversions failed" ;;
    ret 1%Z.

(** From the connection on. *)
Definition run_conversion (args : Args) (env_config : Config) : M Z :=
  connected <- Neo4jDatabase.connect (uri env_config) ;;
  if negb connected then
    logger ERROR "Neo4j database connection failed" ;;
    ret 1%Z
  else
    (if clear_db args then
       should_clear <-
         (if force_clear args then
            logger INFO "Force clearing database without user confirmation" ;;
            ret true
          else
            answer <- ask_user ;;
            (if answer then ret tt
             else logger INFO "Database initialization cancelled by user") ;;
            ret answer) ;;
       if should_clear then
         cleared <- Neo4jDatabase.clear_database ;;
         if cleared then logger INFO "Database initialization completed"
         else logger ERROR "Database initialization failed"
       else ret tt
     else ret tt) ;;
    results <- IFCToGraphConverter.convert_directory (input_dir args) ;;
    (if stats args then Statistics.get_conversion_statistics ;; ret tt else ret tt) ;;
    (if validate args && nonempty results then
       match glob (input_dir args) with
       | first :: _ => Statistics.validate_conversion first
       | [] => ret tt
       end
     else ret tt) ;;
    Neo4jDatabase.close ;;
    exit_status results.

(** The body of the [try] in [main]; console output is left out. *)
Definition main_body (args : Args) (environ : gmap string string) : M Z :=
  log_file <- (if no_log_file args then ret None else t <- now ;; ret (Some t)) ;;
  logger INFO "IFC to Neo4j converter starting" ;;
  logger INFO ("Log level: " ++ log_level args) ;;
  (match log_file with
   | Some t => logger INFO ("Log file: logs/ifc_import_" ++ pretty t ++ ".log")
   | None => ret tt
   end) ;;
  loaded <-
    try_except
      (env_config <- load_environment environ ;;
       logger INFO "Environment variables loaded successfully" ;;
       ret (Some env_config))
      (fun e =>
         logger ERROR ("Environment variable loading failed: " ++ e) ;;
         ret None) ;;
  match loaded with
  | None => ret 1%Z
  | Some env_config =>
      if negb (dir_exists (input_dir args)) then
        logger ERROR ("Input directory does not exist: " ++ dir_str (input_dir args)) ;;
        ret 1%Z
      else
        logger INFO ("Input directory: " ++ dir_str (input_dir args)) ;;
        if negb (nonempty (glob (input_dir args))) then
          logger WARNING ("No IFC files found: " ++ dir_str (input_dir args)) ;;
          ret 0%Z
        else run_conversion args env_config
  end.

(** [main]: the value handed to [sys.exit]. *)
Definition main (args : Args) (environ : gmap string string) (w : World) : Z * World :=
  match main_body args environ w with
  | (Ret code, w') => (code, w')
  | (Raise KeyboardInterrupt, w') => (130%Z, w')
  | (Raise (Exception e), w') => (1%Z, add_log ERROR ("Unexpected error: " ++ e) w')
  end.

End import_ifc.

(** ** [BIM_graph_agent.py]: the query tool *)

Module Neo4jQueryTool.

Definition Row := list (string * value).

(** The dictionaries returned by [execute_query]. *)
Record QueryResult := mkResult {
  success : bool;
  query : option string;
  error : option string;
  results : list Row
}.

Definition keywords : list string := ["connection"; "reset"; "refused"; "timeout"].

(** [any(keyword in error_msg.lower() for keyword in [...])] *)
Definition connection_related (error_msg : string) : bool :=
  existsb (fun keyword => Py.contains keyword (Py.lower error_msg)) keywords.

(** [connect(max_retries=3)]: one test statement per attempt. *)
Fixpoint connect (max_retries : nat) : M bool :=
  match max_retries with
  | 0 => ret false
  | S remaining =>
      ok <- try_except
              ((fun w => (Ret tt, set_driver true w)) ;;
               record <- Neo4jDatabase.session (run_statement Cypher.ReturnOne) ;;
               ret (nonempty record))
              (fun e => ret false) ;;
      if ok then ret true else connect remaining
  end.

Section Engine.

(** What the engine answers to an arbitrary statement text. *)
Variable answer : string -> Graph -> list Row * Graph.

Definition session_run (cypher_query : string) : M (list Row) :=
  Neo4jDatabase.session
    (next_event ;;
     fun w => let '(rows, g) := answer cypher_query (graph w) in
              (Ret rows, set_graph g w)).

Definition failed (cypher_query error_msg : string) : QueryResult :=
  mkResult false (Some cypher_query) (Some error_msg) [].

(** The [for attempt in range(max_retries)] loop, [remaining]
    iterations from [attempt] on; [inr] is [continue]. *)
Fixpoint attempts (cypher_query : string) (max_retries remaining attempt : nat)
  : M QueryResult :=
  match remaining with
  | 0 => ret (failed cypher_query "Query execution failed after all retry attempts")
  | S remaining' =>
      step <-
        try_except
          (records <- session_run cypher_query ;;
           ret (inl (mkResult true (Some cypher_query) None records)))
          (fun error_msg =>
             go_on <-
               (if connection_related error_msg then
                  if (attempt <? max_retries - 1)%nat then connect 3
                  else ret false
                else ret false) ;;
             if go_on then ret (inr tt)
             else ret (inl (failed cypher_query error_msg))) ;;
      match step with
      | inl result => ret result
      | inr _ => attempts cypher_query max_retries remaining' (S attempt)
      end
  end.

Definition execute_query (cypher_query : string) (max_retries : nat) : M QueryResult :=
  fun w =>
    if driver w then attempts cypher_query max_retries max_retries 0 w
    else (Ret (mkResult false None (Some "Not connected to database") []), w).

End Engine.

End Neo4jQueryTool.

(** * Keys and replay *)

(** ** What matching looks at *)

(** A pattern of the writers reads a node's labels and its [globalId]
    and [fileId] properties, and an edge's endpoints and type. *)
Definition nkey : Type := gset string * option value * option value.
Definition ekey : Type := nat * nat * string.

Definition node_key (n : Node) : nkey :=
  (labels n, nprops n !! "globalId", nprops n !! "fileId").

Definition edge_key (e : Edge) : ekey := (src e, dst e, etype e).

Definition keys (g : Graph) : list nkey * list ekey :=
  (map node_key (nodes g), map edge_key (edges g)).
Arguments keys : simpl never.

(** The statements, replayed on keys alone. *)
Module Keys.

Definition is_element (ls : gset string) (gid : string) (k : nkey) : bool :=
  bool_decide (ls ⊆ k.1.1) && bool_decide (k.1.2 = Some (VStr gid)).

Definition is_file (fid : string) (k : nkey) : bool :=
  bool_decide ({[ "IFCFile" ]} ⊆ k.1.1) && bool_decide (k.2 = Some (VStr fid)).

Definition merge_key (test : nkey -> bool) (new : nkey) (ns : list nkey)
  : list nat * list nkey :=
  match Cypher.find_indices test ns with
  | [] => ([length ns], (ns ++ [new])%list)
  | ids => (ids, ns)
  end.

Definition has_edge (k : ekey) (es : list ekey) : bool := bool_decide (k ∈ es).

Fixpoint merge_edge_keys (ty : string) (pairs : list (nat * nat)) (es : list ekey)
  : list ekey :=
  match pairs with
  | [] => es
  | (a, b) :: rest =>
      merge_edge_keys ty rest
        (if has_edge (a, b, ty) es then es else (es ++ [(a, b, ty)])%list)
  end.

Definition element_key (cls gid : string) : nkey :=
  ({[ "Element"; cls ]}, Some (VStr gid), None).

Definition file_key (fid : string) : nkey :=
  ({[ "IFCFile" ]}, None, Some (VStr fid)).

Definition step (q : Cypher.Query) (s : list nkey * list ekey) : list nkey * list ekey :=
  match q with
  | Cypher.ReturnOne | Cypher.ReadOnly => s
  | Cypher.DetachDeleteAll => ([], [])
  | Cypher.MergeFile fid _ => ((merge_key (is_file fid) (file_key fid) s.1).2, s.2)
  | Cypher.MergeElement cls gid _ fid =>
      let '(es, ns) := merge_key (is_element {[ "Element"; cls ]} gid)
                                 (element_key cls gid) s.1 in
      match fid with
      | None => (ns, s.2)
      | Some f =>
          (ns, merge_edge_keys "BELONGS_TO_FILE"
                 (Cypher.pairs_of es (Cypher.find_indices (is_file f) ns)) s.2)
      end
  | Cypher.MergeRel ty a b _ =>
      (s.1, merge_edge_keys ty
              (Cypher.pairs_of (Cypher.find_indices (is_element {[ "Element" ]} a) s.1)
                               (Cypher.find_indices (is_element {[ "Element" ]} b) s.1))
              s.2)
  end.

(** The [SET] clause leaves the keys alone: it does not touch the other
    key property and gives the matched one the value it matched on. *)
Definition keeps (k : string) (v : value) (sets : list (string * value)) : Prop :=
  forall v', (k, v') ∈ sets -> v' = v.

(** Whether the statement returns a row. *)
Definition answers (q : Cypher.Query) (s : list nkey * list ekey) : bool :=
  match q with
  | Cypher.DetachDeleteAll => false
  | Cypher.MergeElement cls gid _ (Some f) =>
      nonempty (Cypher.find_indices (is_file f) s.1)
  | Cypher.MergeRel ty a b _ =>
      nonempty (Cypher.find_indices (is_element {[ "Element" ]} a) s.1)
      && nonempty (Cypher.find_indices (is_element {[ "Element" ]} b) s.1)
  | _ => true
  end.

Definition sets_ok (q : Cypher.Query) : Prop :=
  match q with
  | Cypher.MergeFile fid sets => ("globalId" ∉ sets.*1) /\ keeps "fileId" (VStr fid) sets
  | Cypher.MergeElement _ gid sets _ =>
      ("fileId" ∉ sets.*1) /\ keeps "globalId" (VStr gid) sets
  | _ => True
  end.

End Keys.

(** ** Replaying a list of statements *)

Definition run_graph (qs : list Cypher.Query) (g : Graph) : Graph :=
  fold_left (fun g q => (Cypher.exec q g).2) qs g.

Definition run_keys (qs : list Cypher.Query) (s : list nkey * list ekey)
  : list nkey * list ekey :=
  fold_left (fun s q => Keys.step q s) qs s.

(** A statement is settled in a state that already holds everything it
    would merge. *)
Definition settled (q : Cypher.Query) (s : list nkey * list ekey) : Prop :=
  match q with
  | Cypher.MergeFile fid _ => Cypher.find_indices (Keys.is_file fid) s.1 <> []
  | Cypher.MergeElement cls gid _ fid =>
      Cypher.find_indices (Keys.is_element {[ "Element"; cls ]} gid) s.1 <> [] /\
      match fid with
      | None => True
      | Some f =>
          forall e f', e ∈ Cypher.find_indices (Keys.is_element {[ "Element"; cls ]} gid) s.1 ->
                       f' ∈ Cypher.find_indices (Keys.is_file f) s.1 ->
                       (e, f', "BELONGS_TO_FILE") ∈ s.2
      end
  | Cypher.MergeRel ty a b _ =>
      forall x y, x ∈ Cypher.find_indices (Keys.is_element {[ "Element" ]} a) s.1 ->
                  y ∈ Cypher.find_indices (Keys.is_element {[ "Element" ]} b) s.1 ->
                  (x, y, ty) ∈ s.2
  | Cypher.DetachDeleteAll => s = ([], [])
  | _ => True
  end.

(** [q] does not unsettle [q']. *)
Definition preserves (q' q : Cypher.Query) : Prop :=
  forall s, settled q' s -> settled q' (Keys.step q s).

Fixpoint ordered (qs : list Cypher.Query) : Prop :=
  match qs with
  | [] => True
  | q :: rest => Forall (preserves q) rest /\ ordered rest
  end.

Definition element_of_file (fid : string) (q : Cypher.Query) : Prop :=
  exists cls gid sets, q = Cypher.MergeElement cls gid sets (Some fid).

Definition relationship (q : Cypher.Query) : Prop :=
  exists ty a b rid, q = Cypher.MergeRel ty a b rid.

(** ** Statements in a world where the driver does not fail *)

(** The graph after a statement that may be rejected, and whether it
    returned a row. *)
Definition effect (q : Cypher.Query) (g : Graph) : Graph :=
  if Cypher.well_formed q then (Cypher.exec q g).2 else g.

Definition answer (q : Cypher.Query) (g : Graph) : bool :=
  Cypher.well_formed q && nonempty (Cypher.exec q g).1.

Definition run_effects (qs : list Cypher.Query) (g : Graph) : Graph :=
  fold_left (fun g q => effect q g) qs g.

(** How many statements of a list return a row when run in order. *)
Fixpoint successes (qs : list Cypher.Query) (g : Graph) : nat :=
  match qs with
  | [] => 0
  | q :: rest => (if answer q g then 1 else 0) + successes rest (effect q g)
  end.

(** [w'] is [w] with another graph, and possibly a longer log and a
    later clock. *)
Definition moves (w w' : World) (g' : Graph) : Prop :=
  graph w' = g' /\ driver w' = driver w /\ faults w' = faults w /\ stdin w' = stdin w.

(** With a connected, unfailing driver [m] amounts to the statement [q]
    (to the statements [qs], with result [res]). *)
Definition sends (m : M bool) (q : Cypher.Query) : Prop :=
  forall w, faults w = [] -> driver w = true ->
    exists w', m w = (Ret (answer q (graph w)), w') /\ moves w w' (effect q (graph w)).

Definition sends_all (m : M bool) (qs : list Cypher.Query) (res : Graph -> bool) : Prop :=
  forall w, faults w = [] -> driver w = true ->
    exists w', m w = (Ret (res (graph w)), w') /\ moves w w' (run_effects qs (graph w)).

(** The statements a relationship record leads to. *)
Definition pair_statements (ty rel_id : string) (pairs : list (string * string))
  : list Cypher.Query :=
  map (fun p : string * string => Cypher.MergeRel ty p.1 p.2 rel_id) pairs.

Definition one_to_many (ty rel_id : string) (from_id : option string) (to_ids : list string)
  : list Cypher.Query :=
  match from_id with
  | Some from =>
      if Py.truthy from_id
      then pair_statements ty rel_id (map (fun to_id => (from, to_id)) to_ids)
      else []
  | None => []
  end.

Definition many_to_one (ty rel_id : string) (from_ids : list string) (to_id : option string)
  : list Cypher.Query :=
  match to_id with
  | Some to =>
      if Py.truthy to_id
      then pair_statements ty rel_id (map (fun from_id => (from_id, to)) from_ids)
      else []
  | None => []
  end.

Definition one_to_one (ty rel_id : string) (from_id to_id : option string)
  : list Cypher.Query :=
  match from_id, to_id with
  | Some from, Some to =>
      if Py.truthy from_id && Py.truthy to_id
      then [Cypher.MergeRel ty from to rel_id] else []
  | _, _ => []
  end.

Definition neo4j_statements (r : RelRecord) : list Cypher.Query :=
  match r with
  | AGGREGATES rid f ts => one_to_many "AGGREGATES" rid f ts
  | CONNECTS_TO rid f t => one_to_one "CONNECTS_TO" rid f t
  | HAS_PROPERTY _ _ _ => []
  | CONTAINED_IN rid fs t => many_to_one "CONTAINED_IN" rid fs t
  | ASSIGNED_TO rid fs t => many_to_one "ASSIGNED_TO" rid fs t
  end.

Definition falkordb_statements (r : RelRecord) : list Cypher.Query :=
  match r with
  | AGGREGATES rid f ts => one_to_many "AGGREGATES" rid f ts
  | CONNECTS_TO rid f t => one_to_one "CONNECTS_TO" rid f t
  | HAS_PROPERTY rid fs t => many_to_one "HAS_PROPERTY" rid fs t
  | CONTAINED_IN rid fs t => many_to_one "CONTAINED_IN" rid fs t
  | ASSIGNED_TO rid fs t => many_to_one "ASSIGNED_TO" rid fs t
  end.

(** What [create_relationship] returns then. *)
Definition neo4j_result (r : RelRecord) (g : Graph) : bool :=
  match r with
  | HAS_PROPERTY _ _ _ => true
  | _ => (0 <? successes (neo4j_statements r) g)%nat
  end.

Definition falkordb_result (r : RelRecord) (g : Graph) : bool :=
  match r with
  | CONNECTS_TO _ _ _ => nonempty (falkordb_statements r)
  | _ => (0 <? successes (falkordb_statements r) g)%nat
  end.

(** What a writer amounts to while its driver is connected and does not
    fail: the [SET] lists it sends, the statements of a relationship
    record and the result reported for it. *)
Record Reliable (db : GraphWriter) := mkReliable {
  file_sets : SourceFile -> Stat -> string -> Z -> list (string * value);
  element_sets : ElementRecord -> option string -> list (string * value);
  statements_of : RelRecord -> list Cypher.Query;
  result_of : RelRecord -> Graph -> bool;
  file_written : forall f st w,
    faults w = [] -> driver w = true -> stat f = Some st ->
    let fid := file_id_of (path_stem f) (st_mtime st) in
    exists w', create_file_node db f w = (Ret (Some fid), w') /\
               moves w w' (effect (Cypher.MergeFile fid (file_sets f st fid (clock w)))
                                  (graph w));
  file_missing : forall f w,
    stat f = None ->
    exists w', create_file_node db f w = (Ret None, w') /\ moves w w' (graph w);
  file_offline : forall f w,
    driver w = false ->
    exists w', create_file_node db f w = (Ret None, w') /\ moves w w' (graph w);
  element_written : forall e fid,
    sends (create_element_node db e fid)
          (Cypher.MergeElement (ifcClass e) (globalId e) (element_sets e fid)
                               (provided fid));
  relationship_written : forall r,
    sends_all (create_relationship db r) (statements_of r) (result_of r);
  file_sets_ok : forall f st fid t,
    Keys.sets_ok (Cypher.MergeFile fid (file_sets f st fid t));
  element_sets_ok : forall e fid p,
    Keys.sets_ok (Cypher.MergeElement (ifcClass e) (globalId e) (element_sets e fid) p);
  statements_relationships : forall r, Forall relationship (statements_of r)
}.
Arguments file_sets {db}.
Arguments element_sets {db}.
Arguments statements_of {db}.
Arguments result_of {db}.

(** The statements of one import, in the order they are sent. *)
Definition import_statements {db} (R : Reliable db) (f : SourceFile) (st : Stat) (t : Z)
  : list Cypher.Query :=
  let fid := file_id_of (path_stem f) (st_mtime st) in
  Cypher.MergeFile fid (file_sets R f st fid t) ::
  match ifc f with
  | None => []
  | Some ifc_file =>
      let elements := omap id (products ifc_file) in
      if nonempty elements then
        (map (fun e => Cypher.MergeElement (ifcClass e) (globalId e)
                         (element_sets R e (Some fid)) (provided (Some fid)))
             elements
         ++ flat_map (statements_of R) (omap id (relations ifc_file)))%list
      else []
  end.

(** ** Sample inputs *)

Module Sample.

Definition wall : ElementRecord :=
  mkElement "2O2Fr$t4X7Zf8NOew3FLOH" "IfcWall" "Basic Wall" "" "" "W-1"
            [("Pset_WallCommon", [("IsExternal", "True")])].

Definition door : ElementRecord :=
  mkElement "1hOSvn6df7F8_7GcBWlRGQ" "IfcDoor" "Single-Flush" "" "" "D-1" [].

Definition storey : ElementRecord :=
  mkElement "3Zu5Bv0LOHrPC10066FoQQ" "IfcBuildingStorey" "Level 1" "" "" "" [].

Definition model : IfcModel :=
  mkIfc [Some storey; Some wall; Some door]
        [Some (AGGREGATES "0rel" (Some (globalId storey)) [globalId wall; globalId door]);
         Some (CONNECTS_TO "1rel" (Some (globalId wall)) (Some (globalId door)));
         Some (HAS_PROPERTY "2rel" [globalId wall] (Some "0pset"));
         Some (CONTAINED_IN "3rel" [globalId wall; globalId door] (Some (globalId storey)))].

Definition duplex : SourceFile :=
  mkSourceFile "input/Duplex_A_20110907.ifc" "Duplex_A_20110907.ifc" "Duplex_A_20110907"
               "/work/input/Duplex_A_20110907.ifc"
               (Some (mkStat 2393000 1315400000 1315400000)) (Some model).

(** A file that the parsing library rejects. *)
Definition broken : SourceFile :=
  mkSourceFile "input/broken.ifc" "broken.ifc" "broken" "/work/input/broken.ifc"
               (Some (mkStat 12 1315400000 1315400000)) None.

(** A connected, empty database whose driver does not fail. *)
Definition connected : World := mkWorld empty_graph true [] 1700000000 [] [] false.

(** The same before [connect]. *)
Definition fresh : World := mkWorld empty_graph false [] 1700000000 [] [] false.

End Sample.


(** ** Errors and interrupts *)

(** No interrupt is scheduled. *)
Definition calm (w : World) : Prop :=
  Forall (fun ev => ev <> Some KeyboardInterrupt) (faults w).

(** [m] hands back a value whenever no interrupt is scheduled. *)
Definition returns {A} (m : M A) : Prop :=
  forall w, calm w -> exists a w', m w = (Ret a, w') /\ calm w'.

(** [m] raises at most an [Exception] then. *)
Definition contained {A} (m : M A) : Prop :=
  forall w, calm w -> calm (m w).2 /\ (m w).1 <> Raise KeyboardInterrupt.

(** Every write of [db] hands back a value. *)
Definition writer_returns (db : GraphWriter) : Prop :=
  (forall f, returns (create_file_node db f)) /\
  (forall e fid, returns (create_element_node db e fid)) /\
  (forall r, returns (create_relationship db r)).


(** ** Outcome of a conversion *)

(** The world in which [convert_file] creates the file node. *)
Definition started (f : SourceFile) (w : World) : World :=
  add_log INFO ("Starting IFC file conversion: " ++ path_str f) w.

(** The file-node write succeeds, the file parses and at least one
    element is extracted. *)
Definition converts (db : GraphWriter) (f : SourceFile) (w : World) : bool :=
  match (create_file_node db f (started f w)).1 with
  | Ret file_id =>
      Py.truthy file_id &&
      match ifc f with
      | Some ifc_file => nonempty (omap id (products ifc_file))
      | None => false
      end
  | Raise _ => false
  end.

(** [db] with every element and relationship write failing. *)
Definition failing_writes (db : GraphWriter) : GraphWriter :=
  mkWriter (create_file_node db) (fun _ _ => ret false) (fun _ => ret false).

(** A file that cannot be converted whatever the database does. *)
Definition doomed (f : SourceFile) : Prop :=
  stat f = None \/ ifc f = None \/
  exists ifc_file, ifc f = Some ifc_file /\ omap id (products ifc_file) = [].

(** The line [convert_directory] logs after a file. *)
Definition result_logged (f : SourceFile) (b : bool) (w : World) : World :=
  if b then add_log INFO ("Conversion successful: " ++ path_name f) w
  else add_log ERROR ("Conversion failed: " ++ path_name f) w.

(** [attempted db files w results w']: from [w] on, each file of [files]
    is converted in turn, in the world its predecessors left, whatever
    their results were, and recorded with the result of its own
    conversion; [w'] is the world after the last of them. *)
Inductive attempted (db : GraphWriter)
  : list SourceFile -> World -> Results -> World -> Prop :=
| attempted_nil w : attempted db [] w [] w
| attempted_cons f files w b w1 results w' :
    convert_file db f w = (Ret b, w1) ->
    b = converts db f w ->
    attempted db files (result_logged f b w1) results w' ->
    attempted db (f :: files) w ((path_str f, b) :: results) w'.

(** A node labelled [IFCFile] with this [fileId]. *)
Definition has_file_node (g : Graph) (file_id : string) : Prop :=
  exists i n, nodes g !! i = Some n /\ "IFCFile" ∈ labels n /\
              nprops n !! "fileId" = Some (VStr file_id).


(** A loop body that converts the file and appends its result. *)
Definition records_result (body : SourceFile -> Results -> M Results) : Prop :=
  forall f acc w, calm w -> path_str f ∉ acc.*1 ->
    exists w1,
      convert_file neo4j f w = (Ret (converts neo4j f w), w1) /\
      body f acc w = (Ret (acc ++ [(path_str f, converts neo4j f w)])%list,
                      result_logged f (converts neo4j f w) w1) /\
      calm w1.


(** What [get_stats] puts under ['label_counts']: labels without a node
    are left out. *)
Definition label_counts_of (g : Graph) : list (string * nat) :=
  ((if (0 <? count_label "Element" g)%nat
    then [("Element", count_label "Element" g)] else [])
   ++ (if (0 <? count_label "IFCFile" g)%nat
       then [("IFCFile", count_label "IFCFile" g)] else []))%list.


(** ** What an import leaves in place *)

(** [g'] holds every node and edge of [g], at the same position and
    with the same key. *)
Definition extends (g g' : Graph) : Prop :=
  (keys g).1 `prefix_of` (keys g').1 /\ (keys g).2 `prefix_of` (keys g').2.

(** [m] only ever adds to the store, whatever it meets. *)
Definition appends {A} (m : M A) : Prop :=
  forall w, extends (graph w) (graph (m w).2).

Definition writer_appends (db : GraphWriter) : Prop :=
  (forall f, appends (create_file_node db f)) /\
  (forall e fid, appends (create_element_node db e fid)) /\
  (forall r, appends (create_relationship db r)).


(** * Reasoning about the store *)

(** ** Positions selected by a test *)

Section FindIndices.
Context {A : Type}.
Implicit Types (p : A -> bool) (l : list A).

Lemma elem_of_find_indices p l i :
  i ∈ Cypher.find_indices p l <-> exists a, l !! i = Some a /\ p a = true.
Proof.
  unfold Cypher.find_indices. rewrite list_elem_of_In, filter_In, in_seq.
  split.
  - intros [_ H]. destruct (l !! i) as [a|] eqn:E; [eauto | discriminate].
  - intros (a & E & H). rewrite E. split; [|done].
    apply lookup_lt_Some in E. lia.
Qed.

Lemma find_indices_nil p l :
  Cypher.find_indices p l = [] <-> forall i a, l !! i = Some a -> p a = false.
Proof.
  split.
  - intros E i a Hi. destruct (p a) eqn:Hp; [|done].
    assert (i ∈ Cypher.find_indices p l) as Hin by (apply elem_of_find_indices; eauto).
    rewrite E in Hin. by apply not_elem_of_nil in Hin.
  - intros H. destruct (Cypher.find_indices p l) as [|i r] eqn:E; [done|].
    assert (i ∈ Cypher.find_indices p l) as Hin by (rewrite E; left).
    apply elem_of_find_indices in Hin as (a & Hi & Hp).
    rewrite (H _ _ Hi) in Hp. discriminate.
Qed.

Lemma find_indices_lt p l i : i ∈ Cypher.find_indices p l -> i < length l.
Proof.
  intros (a & E & _)%elem_of_find_indices. by apply lookup_lt_Some in E.
Qed.

(** The selection only looks at the test's value at each position. *)
Lemma find_indices_ext {B} p (q : B -> bool) l (l' : list B) :
  length l = length l' ->
  (forall i a b, l !! i = Some a -> l' !! i = Some b -> p a = q b) ->
  Cypher.find_indices p l = Cypher.find_indices q l'.
Proof.
  intros Hlen H. unfold Cypher.find_indices. rewrite <- Hlen.
  apply filter_ext_in. intros i Hi%in_seq.
  destruct (l !! i) as [a|] eqn:Ea, (l' !! i) as [b|] eqn:Eb; eauto.
  - apply lookup_ge_None in Eb. lia.
  - apply lookup_ge_None in Ea. lia.
Qed.

Lemma find_indices_snoc p l a :
  Cypher.find_indices p (l ++ [a]) =
  (Cypher.find_indices p l ++ (if p a then [length l] else []))%list.
Proof.
  unfold Cypher.find_indices.
  rewrite length_app, seq_app, List.filter_app. simpl. f_equal.
  - apply filter_ext_in. intros i Hi%in_seq.
    rewrite lookup_app_l by lia. done.
  - rewrite lookup_app_r by lia. rewrite Nat.sub_diag. simpl.
    destruct (p a); done.
Qed.

End FindIndices.

(** ** Assignments and in-place updates *)

Lemma assign_lookup_ne kvs (m : gmap string value) k :
  k ∉ kvs.*1 -> Cypher.assign kvs m !! k = m !! k.
Proof.
  unfold Cypher.assign. revert m.
  induction kvs as [|[k' v'] kvs IH]; intros m Hk; [done|].
  simpl in *. apply not_elem_of_cons in Hk as [Hne Hk].
  rewrite IH by done. by rewrite lookup_insert_ne.
Qed.

Lemma assign_lookup kvs (m : gmap string value) k v :
  NoDup kvs.*1 -> (k, v) ∈ kvs -> Cypher.assign kvs m !! k = Some v.
Proof.
  unfold Cypher.assign. revert m.
  induction kvs as [|[k' v'] kvs IH]; intros m Hnd Hin.
  - by apply not_elem_of_nil in Hin.
  - simpl in *. apply NoDup_cons in Hnd as [Hk' Hnd].
    apply elem_of_cons in Hin as [[= -> ->]|Hin].
    + fold (Cypher.assign kvs (<[k':=v']> m)).
      rewrite assign_lookup_ne by done. apply lookup_insert_eq.
    + by apply IH.
Qed.

Lemma fold_alter_length {A} (f : A -> A) ids (l : list A) :
  length (fold_left (fun ns i => alter f i ns) ids l) = length l.
Proof.
  revert l. induction ids as [|i ids IH]; intros l; simpl; [done|].
  by rewrite IH, length_alter.
Qed.

Lemma fold_alter_lookup {A} (f : A -> A) ids (l : list A) j :
  NoDup ids ->
  fold_left (fun ns i => alter f i ns) ids l !! j =
  (if bool_decide (j ∈ ids) then f else id) <$> l !! j.
Proof.
  revert l. induction ids as [|i ids IH]; intros l Hnd; simpl.
  - by destruct (l !! j).
  - apply NoDup_cons in Hnd as [Hi Hnd]. rewrite IH by done.
    destruct (decide (j = i)) as [->|Hne].
    + rewrite list_lookup_alter_eq.
      rewrite (bool_decide_eq_false_2 (i ∈ ids)) by done.
      rewrite bool_decide_eq_true_2 by left.
      by destruct (l !! i).
    + rewrite list_lookup_alter_ne by done.
      destruct (bool_decide (j ∈ ids)) eqn:E.
      * apply bool_decide_eq_true_1 in E.
        rewrite bool_decide_eq_true_2 by (by right). done.
      * apply bool_decide_eq_false_1 in E.
        rewrite bool_decide_eq_false_2; [done|].
        intros [?|?]%elem_of_cons; done.
Qed.

Lemma find_indices_NoDup {A} (p : A -> bool) l : NoDup (Cypher.find_indices p l).
Proof.
  unfold Cypher.find_indices. apply NoDup_ListNoDup, List.NoDup_filter, seq_NoDup.
Qed.

Lemma assign_keeps kvs (m : gmap string value) k v :
  Keys.keeps k v kvs -> m !! k = Some v -> Cypher.assign kvs m !! k = Some v.
Proof.
  unfold Cypher.assign, Keys.keeps. revert m.
  induction kvs as [|[k' v'] kvs IH]; intros m Hk Hm; [done|].
  simpl. apply IH.
  - intros v'' Hin. apply Hk. by right.
  - destruct (decide (k' = k)) as [->|Hne].
    + rewrite (Hk v') by left. apply lookup_insert_eq.
    + by rewrite lookup_insert_ne.
Qed.

(** ** Nodes *)

Lemma node_matches_globalId ls gid n :
  Cypher.node_matches ls "globalId" (VStr gid) n = Keys.is_element ls gid (node_key n).
Proof. done. Qed.

Lemma node_matches_fileId fid n :
  Cypher.node_matches {[ "IFCFile" ]} "fileId" (VStr fid) n = Keys.is_file fid (node_key n).
Proof. done. Qed.

Lemma find_indices_map {A B} (f : A -> B) (p : B -> bool) (l : list A) :
  Cypher.find_indices (fun a => p (f a)) l = Cypher.find_indices p (map f l).
Proof.
  apply find_indices_ext; [by rewrite length_map|].
  intros i a b Ha Hb. rewrite list_lookup_fmap, Ha in Hb. by injection Hb as <-.
Qed.

Lemma match_elements_keys ls gid g :
  Cypher.match_nodes ls "globalId" (VStr gid) g =
  Cypher.find_indices (Keys.is_element ls gid) (keys g).1.
Proof. unfold Cypher.match_nodes. simpl. by rewrite <- find_indices_map. Qed.

Lemma match_files_keys fid g :
  Cypher.match_nodes {[ "IFCFile" ]} "fileId" (VStr fid) g =
  Cypher.find_indices (Keys.is_file fid) (keys g).1.
Proof. unfold Cypher.match_nodes. simpl. by rewrite <- find_indices_map. Qed.

Lemma set_nodes_lookup ids kvs g j :
  NoDup ids ->
  nodes (Cypher.set_nodes ids kvs g) !! j =
  (if bool_decide (j ∈ ids) then Cypher.set_node kvs else id) <$> nodes g !! j.
Proof. intros. unfold Cypher.set_nodes. simpl. by apply fold_alter_lookup. Qed.

Lemma set_nodes_length ids kvs g :
  length (nodes (Cypher.set_nodes ids kvs g)) = length (nodes g).
Proof. apply fold_alter_length. Qed.

(** Setting properties on nodes whose keys the assignment keeps. *)
Lemma set_nodes_keys ids kvs g :
  NoDup ids ->
  (forall i n, i ∈ ids -> nodes g !! i = Some n ->
               node_key (Cypher.set_node kvs n) = node_key n) ->
  keys (Cypher.set_nodes ids kvs g) = keys g.
Proof.
  intros Hnd H. unfold keys. f_equal. simpl.
  apply list_eq. intros j. rewrite !list_lookup_fmap.
  pose proof (fold_alter_lookup (Cypher.set_node kvs) ids (nodes g) j Hnd) as ->.
  destruct (nodes g !! j) as [n|] eqn:E; [|done]. simpl.
  destruct (bool_decide (j ∈ ids)) eqn:Ej; [|done].
  apply bool_decide_eq_true_1 in Ej. f_equal. by eapply H.
Qed.

Lemma merge_node_ids ls k v g :
  (Cypher.merge_node ls k v g).1 = Cypher.match_nodes ls k v (Cypher.merge_node ls k v g).2.
Proof.
  unfold Cypher.merge_node.
  destruct (Cypher.match_nodes ls k v g) as [|i r] eqn:E; [|simpl; by rewrite E].
  simpl. unfold Cypher.match_nodes in *. simpl.
  rewrite find_indices_snoc, E. simpl.
  unfold Cypher.node_matches. simpl.
  rewrite bool_decide_eq_true_2 by done.
  rewrite bool_decide_eq_true_2 by apply lookup_singleton_eq. done.
Qed.

Lemma merge_node_nonempty ls k v g : (Cypher.merge_node ls k v g).1 <> [].
Proof.
  unfold Cypher.merge_node.
  by destruct (Cypher.match_nodes ls k v g) eqn:E.
Qed.

Lemma merge_node_NoDup ls k v g : NoDup (Cypher.merge_node ls k v g).1.
Proof. rewrite merge_node_ids. apply find_indices_NoDup. Qed.

Lemma merge_node_edges ls k v g :
  edges (Cypher.merge_node ls k v g).2 = edges g.
Proof.
  unfold Cypher.merge_node. by destruct (Cypher.match_nodes ls k v g).
Qed.

Lemma merge_element_keys ls gid g :
  (Cypher.merge_node ls "globalId" (VStr gid) g).1 =
    (Keys.merge_key (Keys.is_element ls gid) (ls, Some (VStr gid), None) (keys g).1).1
  /\ keys (Cypher.merge_node ls "globalId" (VStr gid) g).2 =
    ((Keys.merge_key (Keys.is_element ls gid) (ls, Some (VStr gid), None) (keys g).1).2,
     (keys g).2).
Proof.
  unfold Cypher.merge_node, Keys.merge_key.
  rewrite match_elements_keys.
  destruct (Cypher.find_indices _ _) eqn:E; simpl.
  - rewrite length_map. split; [done|]. unfold keys. simpl. by rewrite map_app.
  - done.
Qed.

Lemma merge_file_keys fid g :
  (Cypher.merge_node {[ "IFCFile" ]} "fileId" (VStr fid) g).1 =
    (Keys.merge_key (Keys.is_file fid) (Keys.file_key fid) (keys g).1).1
  /\ keys (Cypher.merge_node {[ "IFCFile" ]} "fileId" (VStr fid) g).2 =
    ((Keys.merge_key (Keys.is_file fid) (Keys.file_key fid) (keys g).1).2, (keys g).2).
Proof.
  unfold Cypher.merge_node, Keys.merge_key.
  rewrite match_files_keys.
  destruct (Cypher.find_indices _ _) eqn:E; simpl.
  - rewrite length_map. split; [done|]. unfold keys. simpl. by rewrite map_app.
  - done.
Qed.

(** A matched node keeps its key under an assignment that keeps it. *)
Lemma set_node_key_element ls gid kvs n :
  "fileId" ∉ kvs.*1 -> Keys.keeps "globalId" (VStr gid) kvs ->
  Cypher.node_matches ls "globalId" (VStr gid) n = true ->
  node_key (Cypher.set_node kvs n) = node_key n.
Proof.
  intros Hf Hk Hm. unfold Cypher.node_matches in Hm.
  apply andb_true_iff in Hm as [_ Hm%bool_decide_eq_true_1].
  unfold node_key, Cypher.set_node. simpl.
  rewrite (assign_keeps _ _ _ _ Hk Hm), Hm, assign_lookup_ne by done. done.
Qed.

Lemma set_node_key_file fid kvs n :
  "globalId" ∉ kvs.*1 -> Keys.keeps "fileId" (VStr fid) kvs ->
  Cypher.node_matches {[ "IFCFile" ]} "fileId" (VStr fid) n = true ->
  node_key (Cypher.set_node kvs n) = node_key n.
Proof.
  intros Hf Hk Hm. unfold Cypher.node_matches in Hm.
  apply andb_true_iff in Hm as [_ Hm%bool_decide_eq_true_1].
  unfold node_key, Cypher.set_node. simpl.
  rewrite (assign_keeps _ _ _ _ Hk Hm), Hm, assign_lookup_ne by done. done.
Qed.

Lemma set_matched_keys ls k v kvs g :
  (forall n, Cypher.node_matches ls k v n = true ->
             node_key (Cypher.set_node kvs n) = node_key n) ->
  keys (Cypher.set_nodes (Cypher.merge_node ls k v g).1 kvs (Cypher.merge_node ls k v g).2)
  = keys (Cypher.merge_node ls k v g).2.
Proof.
  intros H. apply set_nodes_keys; [apply merge_node_NoDup|].
  intros i n Hi Hn. apply H.
  rewrite merge_node_ids in Hi.
  apply elem_of_find_indices in Hi as (n' & Hn' & Hm). congruence.
Qed.

(** ** Edges *)

Lemma fold_alter_fmap {A B} (h : A -> B) (f : A -> A) ids (l : list A) :
  (forall x, h (f x) = h x) ->
  h <$> fold_left (fun es i => alter f i es) ids l = h <$> l.
Proof.
  intros H. revert l. induction ids as [|i ids IH]; intros l; simpl; [done|].
  rewrite IH. apply list_eq. intros j. rewrite !list_lookup_fmap.
  destruct (decide (j = i)) as [->|Hne].
  - rewrite list_lookup_alter_eq. destruct (l !! i); simpl; [by rewrite H|done].
  - by rewrite list_lookup_alter_ne.
Qed.

Lemma set_edges_keys ids k v g : keys (Cypher.set_edges ids k v g) = keys g.
Proof.
  unfold keys, Cypher.set_edges. simpl. f_equal.
  by apply (fold_alter_fmap edge_key).
Qed.

Lemma edge_matches_key s d ty e :
  Cypher.edge_matches s d ty e = bool_decide (edge_key e = (s, d, ty)).
Proof.
  unfold Cypher.edge_matches, edge_key.
  destruct (Nat.eqb_spec (src e) s), (Nat.eqb_spec (dst e) d),
    (String.eqb_spec (etype e) ty); simpl; symmetry;
    first [ apply bool_decide_eq_true_2; congruence
          | apply bool_decide_eq_false_2; congruence ].
Qed.

Lemma has_edge_find k (es : list ekey) :
  Keys.has_edge k es = nonempty (Cypher.find_indices (fun k' => bool_decide (k' = k)) es).
Proof.
  unfold Keys.has_edge.
  destruct (Cypher.find_indices _ es) as [|i r] eqn:E; simpl.
  - apply bool_decide_eq_false_2. intros (i & Hi)%list_elem_of_lookup.
    rewrite find_indices_nil in E. specialize (E _ _ Hi).
    by apply bool_decide_eq_false_1 in E.
  - apply bool_decide_eq_true_2.
    assert (i ∈ Cypher.find_indices (fun k' => bool_decide (k' = k)) es) as Hin
      by (rewrite E; left).
    apply elem_of_find_indices in Hin as (a & Ha & ->%bool_decide_eq_true_1).
    by eapply list_elem_of_lookup_2.
Qed.

Lemma merge_edge_keys s d ty g :
  keys (Cypher.merge_edge s d ty g).2 =
  ((keys g).1,
   if Keys.has_edge (s, d, ty) (keys g).2 then (keys g).2
   else ((keys g).2 ++ [(s, d, ty)])%list).
Proof.
  unfold Cypher.merge_edge. rewrite has_edge_find.
  assert (Cypher.find_indices (Cypher.edge_matches s d ty) (edges g) =
          Cypher.find_indices (fun k' => bool_decide (k' = (s, d, ty))) (keys g).2) as ->.
  { simpl. rewrite <- find_indices_map. apply find_indices_ext; [done|].
    intros i a b Ha Hb. assert (a = b) as -> by congruence. apply edge_matches_key. }
  destruct (Cypher.find_indices _ _); simpl; [|done].
  unfold keys. simpl. by rewrite map_app.
Qed.

Lemma merge_edge_nonempty s d ty g : (Cypher.merge_edge s d ty g).1 <> [].
Proof.
  unfold Cypher.merge_edge. by destruct (Cypher.find_indices _ _).
Qed.

Lemma merge_edges_keys ty upd pairs g :
  (forall ids h, keys (upd ids h) = keys h) ->
  keys (Cypher.merge_edges ty upd pairs g).2 =
  ((keys g).1, Keys.merge_edge_keys ty pairs (keys g).2).
Proof.
  intros Hupd. revert g. induction pairs as [|[a b] rest IH]; intros g.
  - reflexivity.
  - cbn [Cypher.merge_edges Keys.merge_edge_keys].
    destruct (Cypher.merge_edge a b ty g) as [ids g1] eqn:E1.
    destruct (Cypher.merge_edges ty upd rest (upd ids g1)) as [rows g3] eqn:E3.
    pose proof (IH (upd ids g1)) as H. rewrite E3 in H. cbn [fst snd] in *.
    rewrite H, Hupd. pose proof (merge_edge_keys a b ty g) as H1.
    rewrite E1 in H1. cbn [fst snd] in H1. rewrite H1. done.
Qed.

Lemma merge_edges_rows ty upd pairs g :
  nonempty (Cypher.merge_edges ty upd pairs g).1 = nonempty pairs.
Proof.
  destruct pairs as [|[a b] rest]; simpl; [done|].
  destruct (Cypher.merge_edge a b ty g) as [ids g1] eqn:E1.
  destruct (Cypher.merge_edges ty upd rest (upd ids g1)) as [rows g3] eqn:E3.
  simpl. pose proof (merge_edge_nonempty a b ty g) as H. rewrite E1 in H.
  simpl in H. by destruct ids.
Qed.

Lemma pairs_of_nonempty (xs ys : list nat) :
  nonempty (Cypher.pairs_of xs ys) = nonempty xs && nonempty ys.
Proof.
  destruct xs as [|x xs]; [done|]. destruct ys as [|y ys]; simpl; [|done].
  induction xs; simpl; auto.
Qed.

(** ** The statements on keys *)

Lemma keys_exec q g :
  Keys.sets_ok q -> keys (Cypher.exec q g).2 = Keys.step q (keys g).
Proof.
  destruct q as [| |fid sets|cls gid sets fid|ty a b rid|]; simpl; intros Hok.
  - reflexivity.
  - done.
  - destruct Hok as [Hg Hk].
    destruct (Cypher.merge_node _ _ _ g) as [fs g1] eqn:E. simpl.
    pose proof (set_matched_keys {[ "IFCFile" ]} "fileId" (VStr fid) sets g
                  (fun n => set_node_key_file fid sets n Hg Hk)) as H.
    rewrite E in H. simpl in H. rewrite H.
    pose proof (merge_file_keys fid g) as [_ H2]. rewrite E in H2. done.
  - destruct Hok as [Hg Hk].
    destruct (Cypher.merge_node _ _ _ g) as [es g1] eqn:E.
    pose proof (set_matched_keys {[ "Element"; cls ]} "globalId" (VStr gid) sets g
                  (fun n => set_node_key_element _ gid sets n Hg Hk)) as H.
    rewrite E in H. simpl in H.
    pose proof (merge_element_keys {[ "Element"; cls ]} gid g) as [H1 H2].
    rewrite E in H1, H2. simpl in H1, H2.
    unfold Keys.element_key.
    destruct (Keys.merge_key _ _ _) as [es' ns'] eqn:E'. simpl in *. subst es'.
    destruct fid as [f|]; simpl.
    + rewrite merge_edges_keys by done. rewrite H, H2. simpl.
      rewrite match_files_keys, H, H2. done.
    + by rewrite H, H2.
  - rewrite merge_edges_keys by (intros; apply set_edges_keys).
    by rewrite !match_elements_keys.
  - reflexivity.
Qed.

Lemma rows_exec q g :
  Keys.sets_ok q -> nonempty (Cypher.exec q g).1 = Keys.answers q (keys g).
Proof.
  destruct q as [| |fid sets|cls gid sets fid|ty a b rid|]; simpl; intros Hok; try done.
  - destruct (Cypher.merge_node _ _ _ g) as [fs g1] eqn:E. simpl.
    pose proof (merge_node_nonempty {[ "IFCFile" ]} "fileId" (VStr fid) g) as H.
    rewrite E in H. by destruct fs.
  - destruct Hok as [Hg Hk].
    destruct (Cypher.merge_node _ _ _ g) as [es g1] eqn:E.
    pose proof (merge_node_nonempty {[ "Element"; cls ]} "globalId" (VStr gid) g) as Hne.
    pose proof (set_matched_keys {[ "Element"; cls ]} "globalId" (VStr gid) sets g
                  (fun n => set_node_key_element _ gid sets n Hg Hk)) as H.
    pose proof (merge_element_keys {[ "Element"; cls ]} gid g) as [H1 H2].
    rewrite E in Hne, H, H1, H2. simpl in *.
    destruct fid as [f|]; simpl; [|by destruct es].
    rewrite merge_edges_rows, pairs_of_nonempty, match_files_keys, H, H2. simpl.
    destruct es; [done|]. simpl.
    unfold Keys.merge_key.
    destruct (Cypher.find_indices (Keys.is_element _ _) _) eqn:E3; simpl; [|done].
    rewrite find_indices_snoc. simpl.
    unfold Keys.is_file at 2. simpl. rewrite andb_false_r, app_nil_r. done.
  - by rewrite merge_edges_rows, pairs_of_nonempty, !match_elements_keys.
Qed.

(** ** Merging edge keys *)

Lemma merge_edge_keys_incl ty pairs es k :
  k ∈ es -> k ∈ Keys.merge_edge_keys ty pairs es.
Proof.
  revert es. induction pairs as [|[a b] rest IH]; intros es Hk; simpl; [done|].
  apply IH. destruct (Keys.has_edge _ _); [done|]. apply elem_of_app. by left.
Qed.

Lemma merge_edge_keys_has ty pairs es a b :
  (a, b) ∈ pairs -> (a, b, ty) ∈ Keys.merge_edge_keys ty pairs es.
Proof.
  revert es. induction pairs as [|[a' b'] rest IH]; intros es Hin; simpl.
  - by apply not_elem_of_nil in Hin.
  - apply elem_of_cons in Hin as [[= -> ->]|Hin]; [|by apply IH].
    apply merge_edge_keys_incl. unfold Keys.has_edge.
    destruct (bool_decide _) eqn:E.
    + by apply bool_decide_eq_true_1 in E.
    + apply elem_of_app. right. left.
Qed.

Lemma merge_edge_keys_settled ty pairs es :
  (forall a b, (a, b) ∈ pairs -> (a, b, ty) ∈ es) ->
  Keys.merge_edge_keys ty pairs es = es.
Proof.
  induction pairs as [|[a b] rest IH]; intros H; simpl; [done|].
  unfold Keys.has_edge. rewrite bool_decide_eq_true_2 by (apply H; left).
  apply IH. intros a' b' Hin. apply H. by right.
Qed.

Lemma elem_of_pairs_of (xs ys : list nat) a b :
  (a, b) ∈ Cypher.pairs_of xs ys <-> a ∈ xs /\ b ∈ ys.
Proof.
  unfold Cypher.pairs_of. rewrite list_elem_of_In, in_flat_map. split.
  - intros (x & Hx & Hin). apply in_map_iff in Hin as (y & [= -> ->] & Hy).
    by rewrite !list_elem_of_In.
  - intros [Ha Hb]. exists a. rewrite <- list_elem_of_In. split; [done|].
    apply in_map_iff. exists b. by rewrite <- list_elem_of_In.
Qed.

(** ** Settled statements *)

Lemma merge_key_settled test new ns :
  Cypher.find_indices test ns <> [] ->
  Keys.merge_key test new ns = (Cypher.find_indices test ns, ns).
Proof. unfold Keys.merge_key. by destruct (Cypher.find_indices test ns). Qed.

Lemma settled_step q s : settled q s -> Keys.step q s = s.
Proof.
  destruct s as [ns es].
  destruct q as [| |fid sets|cls gid sets fid|ty a b rid|]; simpl; try done.
  - intros H. by rewrite merge_key_settled.
  - intros [H1 H2]. rewrite merge_key_settled by done.
    destruct fid as [f|]; [|done].
    rewrite merge_edge_keys_settled; [done|].
    intros a b [Ha Hb]%elem_of_pairs_of. by apply H2.
  - intros H. rewrite merge_edge_keys_settled; [done|].
    intros x y [Ha Hb]%elem_of_pairs_of. by apply H.
Qed.

Lemma run_keys_settled qs s : Forall (fun q => settled q s) qs -> run_keys qs s = s.
Proof.
  induction 1 as [|q qs Hq _ IH]; simpl; [done|].
  unfold run_keys in *. simpl. by rewrite settled_step.
Qed.

(** A merged key is the matching positions, old or new. *)
Lemma merge_key_spec test new ns :
  test new = true ->
  let r := Keys.merge_key test new ns in
  r.1 = Cypher.find_indices test r.2 /\ r.1 <> [] /\
  (r.2 = ns \/ (Cypher.find_indices test ns = [] /\ r.2 = (ns ++ [new])%list)).
Proof.
  intros Hnew. unfold Keys.merge_key.
  destruct (Cypher.find_indices test ns) as [|i ids] eqn:E; simpl.
  - rewrite find_indices_snoc, E, Hnew. simpl. auto.
  - rewrite E. auto.
Qed.

Lemma find_indices_grow {A} (p : A -> bool) l l' i :
  i ∈ Cypher.find_indices p l -> i ∈ Cypher.find_indices p (l ++ l').
Proof.
  rewrite !elem_of_find_indices. intros (a & Ha & Hp). exists a. split; [|done].
  by apply lookup_app_l_Some.
Qed.

Lemma find_indices_snoc_elem {A} (p : A -> bool) l a i :
  i ∈ Cypher.find_indices p (l ++ [a]) ->
  i ∈ Cypher.find_indices p l \/ (i = length l /\ p a = true).
Proof.
  rewrite find_indices_snoc, elem_of_app. intros [H|H]; [by left|right].
  destruct (p a); [|by apply not_elem_of_nil in H].
  by apply list_elem_of_singleton in H.
Qed.

Lemma is_element_key cls gid gid' :
  Keys.is_file gid' (Keys.element_key cls gid) = false.
Proof. unfold Keys.is_file. simpl. by rewrite andb_false_r. Qed.

Lemma is_element_self cls gid :
  Keys.is_element {[ "Element"; cls ]} gid (Keys.element_key cls gid) = true.
Proof.
  unfold Keys.is_element. simpl.
  rewrite !bool_decide_eq_true_2; done.
Qed.

Lemma is_file_self fid : Keys.is_file fid (Keys.file_key fid) = true.
Proof. unfold Keys.is_file. simpl. rewrite !bool_decide_eq_true_2; done. Qed.

Lemma nonempty_grow {A} (p : A -> bool) l l' :
  Cypher.find_indices p l <> [] -> Cypher.find_indices p (l ++ l') <> [].
Proof.
  intros H. destruct (Cypher.find_indices p l) as [|i r] eqn:E; [done|].
  assert (i ∈ Cypher.find_indices p (l ++ l')) as Hin.
  { apply find_indices_grow. rewrite E. left. }
  intros E'. rewrite E' in Hin. by apply not_elem_of_nil in Hin.
Qed.

(** What a statement of an import does to the keys. *)
Lemma step_element cls gid sets fid ns es :
  exists ids ns',
    Keys.merge_key (Keys.is_element {[ "Element"; cls ]} gid)
                   (Keys.element_key cls gid) ns = (ids, ns') /\
    ids = Cypher.find_indices (Keys.is_element {[ "Element"; cls ]} gid) ns' /\
    ids <> [] /\
    (ns' = ns \/ (Cypher.find_indices (Keys.is_element {[ "Element"; cls ]} gid) ns = []
                  /\ ns' = (ns ++ [Keys.element_key cls gid])%list)) /\
    Cypher.find_indices (Keys.is_file fid) ns' = Cypher.find_indices (Keys.is_file fid) ns /\
    Keys.step (Cypher.MergeElement cls gid sets (Some fid)) (ns, es) =
      (ns', Keys.merge_edge_keys "BELONGS_TO_FILE"
              (Cypher.pairs_of ids (Cypher.find_indices (Keys.is_file fid) ns)) es).
Proof.
  pose proof (merge_key_spec (Keys.is_element {[ "Element"; cls ]} gid)
                (Keys.element_key cls gid) ns (is_element_self cls gid)) as H.
  simpl in H. destruct (Keys.merge_key _ _ ns) as [ids ns'] eqn:E.
  simpl in H. destruct H as (H1 & H2 & H3).
  exists ids, ns'. split; [done|]. split; [done|]. split; [done|]. split; [done|].
  assert (Cypher.find_indices (Keys.is_file fid) ns' =
          Cypher.find_indices (Keys.is_file fid) ns) as HF.
  { destruct H3 as [->|[_ ->]]; [done|].
    rewrite find_indices_snoc, is_element_key. by rewrite app_nil_r. }
  split; [done|]. simpl. rewrite E. by rewrite HF.
Qed.

Lemma step_relationship ty a b rid ns es :
  Keys.step (Cypher.MergeRel ty a b rid) (ns, es) =
  (ns, Keys.merge_edge_keys ty
         (Cypher.pairs_of (Cypher.find_indices (Keys.is_element {[ "Element" ]} a) ns)
                          (Cypher.find_indices (Keys.is_element {[ "Element" ]} b) ns)) es).
Proof. done. Qed.

(** Every statement settles itself. *)
Lemma step_settles q s : settled q (Keys.step q s).
Proof.
  destruct s as [ns es].
  destruct q as [| |fid sets|cls gid sets fid|ty a b rid|]; try done.
  - simpl.
    pose proof (merge_key_spec (Keys.is_file fid) (Keys.file_key fid) ns
                  (is_file_self fid)) as (H1 & H2 & _).
    simpl in *. by rewrite <- H1.
  - destruct fid as [f|].
    + destruct (step_element cls gid sets f ns es)
        as (ids & ns' & E & Hids & Hne & Hns & HF & ->).
      simpl. rewrite <- Hids. split; [done|].
      intros e f' He Hf. apply merge_edge_keys_has, elem_of_pairs_of.
      by rewrite <- HF.
    + simpl.
      pose proof (merge_key_spec (Keys.is_element {[ "Element"; cls ]} gid)
                    (Keys.element_key cls gid) ns (is_element_self cls gid))
        as (H1 & H2 & _).
      destruct (Keys.merge_key _ _ ns) as [ids ns'] eqn:E. simpl in *.
      by rewrite <- H1.
  - rewrite step_relationship. simpl. intros x y Hx Hy.
    by apply merge_edge_keys_has, elem_of_pairs_of.
Qed.

(** ** Which statements leave which settled *)

Lemma file_preserved_by_element fid sets cls gid sets' f :
  preserves (Cypher.MergeFile fid sets) (Cypher.MergeElement cls gid sets' (Some f)).
Proof.
  intros [ns es] H.
  destruct (step_element cls gid sets' f ns es)
    as (ids & ns' & E & Hids & Hne & Hns & HF & ->).
  simpl in *. destruct Hns as [->|[_ ->]]; [done|]. by apply nonempty_grow.
Qed.

Lemma file_preserved_by_relationship fid sets ty a b rid :
  preserves (Cypher.MergeFile fid sets) (Cypher.MergeRel ty a b rid).
Proof. intros [ns es] H. by rewrite step_relationship. Qed.

Lemma element_preserved_by_element cls' gid' sets' cls gid sets f :
  preserves (Cypher.MergeElement cls' gid' sets' (Some f))
            (Cypher.MergeElement cls gid sets (Some f)).
Proof.
  intros [ns es] [Hne' Hedges].
  destruct (step_element cls gid sets f ns es)
    as (ids & ns' & E & Hids & Hne & Hns & HF & ->).
  simpl in *. rewrite HF. split.
  - destruct Hns as [->|[_ ->]]; [done|]. by apply nonempty_grow.
  - intros e f' He Hf.
    destruct Hns as [->|[Hnone ->]].
    + apply merge_edge_keys_incl. by apply Hedges.
    + apply find_indices_snoc_elem in He as [He|[-> _]].
      * apply merge_edge_keys_incl. by apply Hedges.
      * apply merge_edge_keys_has, elem_of_pairs_of. split; [|done].
        rewrite Hids, find_indices_snoc, Hnone, is_element_self. left.
Qed.

Lemma element_preserved_by_relationship cls gid sets fid ty a b rid :
  preserves (Cypher.MergeElement cls gid sets fid) (Cypher.MergeRel ty a b rid).
Proof.
  intros [ns es] [Hne Hedges]. rewrite step_relationship. simpl in *.
  split; [done|]. destruct fid as [f|]; [|done].
  intros e f' He Hf. apply merge_edge_keys_incl. by apply Hedges.
Qed.

Lemma relationship_preserved_by_relationship ty' a' b' rid' ty a b rid :
  preserves (Cypher.MergeRel ty' a' b' rid') (Cypher.MergeRel ty a b rid).
Proof.
  intros [ns es] H. rewrite step_relationship. simpl in *.
  intros x y Hx Hy. apply merge_edge_keys_incl. by apply H.
Qed.

(** ** A whole import on keys *)

Lemma run_keys_app qs qs' s : run_keys (qs ++ qs') s = run_keys qs' (run_keys qs s).
Proof. apply fold_left_app. Qed.

Lemma run_preserved q' qs s :
  Forall (preserves q') qs -> settled q' s -> settled q' (run_keys qs s).
Proof.
  intros H. revert s. induction H as [|q qs Hq _ IH]; intros s Hs; [done|].
  simpl. apply IH. by apply Hq.
Qed.

Lemma run_settles qs s :
  ordered qs -> Forall (fun q => settled q (run_keys qs s)) qs.
Proof.
  revert s. induction qs as [|q qs IH]; intros s Hord; [constructor|].
  destruct Hord as [Hq Hord]. constructor.
  - simpl. apply run_preserved; [done|]. apply step_settles.
  - simpl. by apply IH.
Qed.

Lemma run_keys_idempotent qs s :
  ordered qs -> run_keys qs (run_keys qs s) = run_keys qs s.
Proof. intros H. apply run_keys_settled. by apply run_settles. Qed.

Lemma ordered_relationships rels : Forall relationship rels -> ordered rels.
Proof.
  induction 1 as [|q rels (ty & a & b & rid & ->) Hrels IH]; simpl; [done|].
  split; [|done]. eapply Forall_impl; [exact Hrels|].
  intros q (ty' & a' & b' & rid' & ->). apply relationship_preserved_by_relationship.
Qed.

Lemma ordered_elements fid elems rels :
  Forall (element_of_file fid) elems -> Forall relationship rels ->
  ordered (elems ++ rels).
Proof.
  intros He Hr. induction He as [|q elems (cls & gid & sets & ->) Helems IH]; simpl.
  - by apply ordered_relationships.
  - split; [|done]. apply Forall_app. split.
    + eapply Forall_impl; [exact Helems|].
      intros q (cls' & gid' & sets' & ->). apply element_preserved_by_element.
    + eapply Forall_impl; [exact Hr|].
      intros q (ty & a & b & rid & ->). apply element_preserved_by_relationship.
Qed.

Lemma ordered_import fid sets elems rels :
  Forall (element_of_file fid) elems -> Forall relationship rels ->
  ordered (Cypher.MergeFile fid sets :: elems ++ rels).
Proof.
  intros He Hr. split; [|by eapply ordered_elements].
  apply Forall_app. split.
  - eapply Forall_impl; [exact He|].
    intros q (cls & gid & sets' & ->). apply file_preserved_by_element.
  - eapply Forall_impl; [exact Hr|].
    intros q (ty & a & b & rid & ->). apply file_preserved_by_relationship.
Qed.

Lemma run_graph_keys qs g :
  Forall Keys.sets_ok qs -> keys (run_graph qs g) = run_keys qs (keys g).
Proof.
  intros H. revert g. induction H as [|q qs Hq _ IH]; intros g; [done|].
  simpl. unfold run_graph in *. simpl. by rewrite IH, keys_exec.
Qed.

Lemma keys_counts g :
  node_count g = length (keys g).1 /\ edge_count g = length (keys g).2.
Proof. unfold keys, node_count, edge_count. simpl. by rewrite !length_map. Qed.

(** * Reasoning about the writers *)

Arguments Cypher.exec : simpl never.
Arguments Cypher.well_formed : simpl never.
Arguments Py.truthy : simpl never.

Ltac monad_unfold :=
  unfold bind, ret, raise, try_except, logger, with_handle in *.

Lemma run_statement_reliable q w :
  faults w = [] ->
  run_statement q w =
  if Cypher.well_formed q
  then (Ret (Cypher.exec q (graph w)).1, set_graph (Cypher.exec q (graph w)).2 w)
  else (Raise (Exception "Invalid input: syntax error"), w).
Proof.
  intros Hf. unfold run_statement, bind, next_event. rewrite Hf.
  destruct (Cypher.well_formed q); [|done].
  by destruct (Cypher.exec q (graph w)).
Qed.

Lemma moves_refl w : moves w w (graph w).
Proof. done. Qed.

Lemma moves_trans w w1 w2 g1 g2 : moves w w1 g1 -> moves w1 w2 g2 -> moves w w2 g2.
Proof.
  intros (_ & Hd & Hf & Hs) (Hg & Hd' & Hf' & Hs').
  repeat split; congruence.
Qed.

Lemma moves_log w w' g l m : moves w w' g -> moves w (add_log l m w') g.
Proof. done. Qed.

Lemma moves_reliable w w' g :
  moves w w' g -> faults w = [] -> driver w = true ->
  faults w' = [] /\ driver w' = true.
Proof. intros (_ & Hd & Hf & _) ? ?. split; congruence. Qed.

(** ** The Neo4j writer *)

Lemma neo4j_sends_element e fid :
  sends (Neo4jDatabase.create_element_node e fid)
        (Cypher.MergeElement (ifcClass e) (globalId e) (element_properties e fid)
                             (provided fid)).
Proof.
  intros w Hf Hd.
  unfold Neo4jDatabase.create_element_node, Neo4jDatabase.session,
    Neo4jDatabase.execute_write, Neo4jDatabase._create_element_tx, Neo4jDatabase.tx_run.
  monad_unfold. rewrite Hd.
  rewrite (run_statement_reliable _ (set_tx_failed false w)) by done.
  unfold answer, effect.
  destruct (Cypher.well_formed _); simpl.
  - destruct (Cypher.exec _ (graph w)) as [rows g'] eqn:E. simpl.
    destruct rows; simpl; eexists; split; try reflexivity; done.
  - eexists; split; [reflexivity|done].
Qed.

Lemma well_formed_rel ty a b rid : Cypher.well_formed (Cypher.MergeRel ty a b rid) = true.
Proof. done. Qed.

(** A loop whose body amounts to one statement per item. *)
Lemma count_loop_sends {A} (body : A -> M bool) (stmt : A -> Cypher.Query) xs :
  (forall x, sends (body x) (stmt x)) ->
  forall n w, faults w = [] -> driver w = true ->
    exists w', count_loop body xs n w = (Ret (n + successes (map stmt xs) (graph w)), w')
               /\ moves w w' (run_effects (map stmt xs) (graph w)).
Proof.
  intros Hbody. induction xs as [|x xs IH]; intros n w Hf Hd; simpl.
  - exists w. rewrite Nat.add_0_r. done.
  - unfold bind. destruct (Hbody x w Hf Hd) as (w1 & -> & Hm).
    destruct (moves_reliable _ _ _ Hm Hf Hd) as [Hf1 Hd1].
    destruct (IH (if answer (stmt x) (graph w) then S n else n) w1 Hf1 Hd1)
      as (w2 & -> & Hm2).
    pose proof Hm as [Hg _]. rewrite Hg in Hm2 |- *.
    exists w2. split.
    + f_equal. f_equal. destruct (answer _ _); lia.
    + eapply moves_trans; [exact Hm|exact Hm2].
Qed.

Lemma neo4j_sends_pair ty rid (p : string * string) :
  sends (result <- Neo4jDatabase.tx_run (Cypher.MergeRel ty p.1 p.2 rid) ;;
         ret (nonempty result))%imp
        (Cypher.MergeRel ty p.1 p.2 rid).
Proof.
  intros w Hf Hd. unfold Neo4jDatabase.tx_run. monad_unfold.
  rewrite (run_statement_reliable _ _ Hf), well_formed_rel.
  unfold answer, effect. rewrite well_formed_rel. simpl.
  eexists. split; [reflexivity|done].
Qed.

Lemma neo4j_pairs_flag ty rid pairs n w :
  faults w = [] ->
  tx_failed (count_loop
               (fun p : string * string =>
                  result <- Neo4jDatabase.tx_run (Cypher.MergeRel ty p.1 p.2 rid) ;;
                  ret (nonempty result))%imp
               pairs n w).2 = tx_failed w.
Proof.
  revert n w. induction pairs as [|p pairs IH]; intros n w Hf; [done|].
  cbn [count_loop]. unfold bind at 1, bind at 1, Neo4jDatabase.tx_run at 1.
  rewrite (run_statement_reliable _ _ Hf), well_formed_rel. unfold ret at 1.
  by rewrite IH.
Qed.

Lemma neo4j_write_pairs_reliable ty rid pairs w :
  faults w = [] -> driver w = true ->
  exists w', Neo4jDatabase.write_pairs ty rid pairs w =
               (Ret (0 <? successes (pair_statements ty rid pairs) (graph w))%nat, w')
             /\ moves w w' (run_effects (pair_statements ty rid pairs) (graph w))
             /\ tx_failed w' = tx_failed w.
Proof.
  intros Hf Hd. unfold Neo4jDatabase.write_pairs. unfold bind at 1.
  pose proof (neo4j_pairs_flag ty rid pairs 0 w Hf) as Hx.
  destruct (count_loop_sends _ _ pairs (neo4j_sends_pair ty rid) 0 w Hf Hd)
    as (w' & E & Hm).
  rewrite E in Hx |- *. exists w'. done.
Qed.

Lemma successes_one q g : (0 <? successes [q] g)%nat = answer q g.
Proof. simpl. by destruct (answer q g). Qed.

Ltac neo4j_no_statement :=
  eexists; split; [reflexivity|]; done.

Lemma neo4j_sends_relationship r :
  sends_all (Neo4jDatabase.create_relationship r) (neo4j_statements r) (neo4j_result r).
Proof.
  intros w Hf Hd.
  unfold Neo4jDatabase.create_relationship, Neo4jDatabase.session,
    Neo4jDatabase.execute_write, Neo4jDatabase._create_relationship_tx.
  unfold try_except, with_handle. rewrite Hd.
  destruct r as [rid f ts|rid f t|rid fs t|rid fs t|rid fs t];
    unfold neo4j_result, neo4j_statements.
  - unfold Neo4jDatabase._create_aggregates_relationship, one_to_many.
    destruct f as [from|]; [|neo4j_no_statement].
    destruct (Py.truthy (Some from)); simpl; [|neo4j_no_statement].
    destruct ts as [|t ts]; [neo4j_no_statement|]. cbn [nonempty negb].
    destruct (neo4j_write_pairs_reliable "AGGREGATES" rid
                (map (fun to_id => (from, to_id)) (t :: ts)) (set_tx_failed false w) Hf Hd)
      as (w' & -> & Hm & ->).
    by eexists.
  - unfold Neo4jDatabase._create_connects_relationship, one_to_one.
    destruct f as [from|]; [|neo4j_no_statement].
    destruct t as [to|]; [|neo4j_no_statement].
    destruct (Py.truthy (Some from)); simpl; [|neo4j_no_statement].
    destruct (Py.truthy (Some to)); simpl; [|neo4j_no_statement].
    cbn [negb]. unfold bind, ret, Neo4jDatabase.tx_run.
    rewrite (run_statement_reliable _ (set_tx_failed false w)) by done.
    rewrite well_formed_rel.
    unfold run_effects, answer, effect. simpl. rewrite ?well_formed_rel. simpl.
    destruct (Cypher.exec _ (graph w)) as [[|row rows] g']; simpl;
      eexists; (split; [reflexivity|done]).
  - neo4j_no_statement.
  - unfold Neo4jDatabase._create_spatial_relationship, many_to_one.
    destruct t as [to|]; [|neo4j_no_statement].
    destruct (Py.truthy (Some to)); simpl;
      [|rewrite orb_true_r; neo4j_no_statement].
    destruct fs as [|x fs]; [neo4j_no_statement|]. cbn [nonempty negb orb].
    destruct (neo4j_write_pairs_reliable "CONTAINED_IN" rid
                (map (fun from_id => (from_id, to)) (x :: fs)) (set_tx_failed false w) Hf Hd)
      as (w' & -> & Hm & ->).
    by eexists.
  - unfold Neo4jDatabase._create_group_relationship, many_to_one.
    destruct t as [to|]; [|neo4j_no_statement].
    destruct (Py.truthy (Some to)); simpl;
      [|rewrite orb_true_r; neo4j_no_statement].
    destruct fs as [|x fs]; [neo4j_no_statement|]. cbn [nonempty negb orb].
    destruct (neo4j_write_pairs_reliable "ASSIGNED_TO" rid
                (map (fun from_id => (from_id, to)) (x :: fs)) (set_tx_failed false w) Hf Hd)
      as (w' & -> & Hm & ->).
    by eexists.
Qed.

Lemma exec_file_rows fid sets g :
  nonempty (Cypher.exec (Cypher.MergeFile fid sets) g).1 = true.
Proof.
  unfold Cypher.exec.
  destruct (Cypher.merge_node _ _ _ g) as [fs g1] eqn:E. simpl.
  pose proof (merge_node_nonempty {[ "IFCFile" ]} "fileId" (VStr fid) g) as H.
  rewrite E in H. by destruct fs.
Qed.

Lemma neo4j_file_reliable f st w :
  faults w = [] -> driver w = true -> stat f = Some st ->
  let fid := file_id_of (path_stem f) (st_mtime st) in
  exists w', Neo4jDatabase.create_file_node f w = (Ret (Some fid), w') /\
             moves w w' (effect (Cypher.MergeFile fid (file_data f st fid (clock w)))
                                (graph w)).
Proof.
  intros Hf Hd Hst fid.
  unfold Neo4jDatabase.create_file_node, Neo4jDatabase.session,
    Neo4jDatabase.execute_write, Neo4jDatabase._create_file_tx, Neo4jDatabase.tx_run,
    file_stat, now.
  rewrite Hst. monad_unfold. rewrite Hd. simpl.
  rewrite run_statement_reliable by done. fold fid.
  change (Cypher.well_formed (Cypher.MergeFile fid (file_data f st fid (clock w))))
    with true. cbv iota. simpl.
  rewrite exec_file_rows. unfold effect.
  change (Cypher.well_formed (Cypher.MergeFile fid (file_data f st fid (clock w))))
    with true. cbv iota.
  eexists. split; [reflexivity|done].
Qed.

Lemma neo4j_file_missing f w :
  stat f = None ->
  exists w', Neo4jDatabase.create_file_node f w = (Ret None, w') /\ moves w w' (graph w).
Proof.
  intros Hst.
  unfold Neo4jDatabase.create_file_node, Neo4jDatabase.session,
    Neo4jDatabase.execute_write, Neo4jDatabase._create_file_tx, file_stat.
  rewrite Hst. monad_unfold.
  destruct (driver w); simpl; eexists; (split; [reflexivity|done]).
Qed.

Lemma neo4j_file_offline f w :
  driver w = false ->
  exists w', Neo4jDatabase.create_file_node f w = (Ret None, w') /\ moves w w' (graph w).
Proof.
  intros Hd.
  unfold Neo4jDatabase.create_file_node, Neo4jDatabase.session.
  monad_unfold. rewrite Hd. eexists; (split; [reflexivity|done]).
Qed.

(** ** The FalkorDB writer *)

Lemma falkordb_sends_element e fid :
  sends (FalkorDBDatabase.create_element_node e fid)
        (Cypher.MergeElement (ifcClass e) (globalId e)
                             (FalkorDBDatabase.set_fields e fid) (provided fid)).
Proof.
  intros w Hf Hd.
  unfold FalkorDBDatabase.create_element_node, FalkorDBDatabase.graph_query.
  monad_unfold. rewrite Hd, (run_statement_reliable _ _ Hf).
  unfold answer, effect.
  destruct (Cypher.well_formed _); simpl.
  - destruct (Cypher.exec _ (graph w)) as [rows g'] eqn:E. simpl.
    destruct rows; simpl; eexists; split; try reflexivity; done.
  - eexists; split; [reflexivity|done].
Qed.

Lemma falkordb_sends_pair what ty rid (p : string * string) :
  sends (try_except
           (result <- FalkorDBDatabase.graph_query (Cypher.MergeRel ty p.1 p.2 rid) ;;
            ret (nonempty result))%imp
           (fun e =>
              logger WARNING (what ++ " relationship creation failed: " ++ p.1
                              ++ " -> " ++ p.2 ++ ", error: " ++ e) ;;
              ret false)%imp)
        (Cypher.MergeRel ty p.1 p.2 rid).
Proof.
  intros w Hf Hd. unfold FalkorDBDatabase.graph_query. monad_unfold.
  rewrite Hd, (run_statement_reliable _ _ Hf), well_formed_rel.
  unfold answer, effect. rewrite well_formed_rel. simpl.
  eexists. split; [reflexivity|done].
Qed.

Lemma falkordb_write_pairs_reliable what ty rid pairs w :
  faults w = [] -> driver w = true ->
  exists w', FalkorDBDatabase.write_pairs what ty rid pairs w =
               (Ret (0 <? successes (pair_statements ty rid pairs) (graph w))%nat, w')
             /\ moves w w' (run_effects (pair_statements ty rid pairs) (graph w)).
Proof.
  intros Hf Hd. unfold FalkorDBDatabase.write_pairs. unfold bind at 1.
  destruct (count_loop_sends _ _ pairs (falkordb_sends_pair what ty rid) 0 w Hf Hd)
    as (w' & -> & Hm).
  exists w'. done.
Qed.

Lemma falkordb_many_to_one_reliable what ty rid fs t w :
  faults w = [] -> driver w = true ->
  exists w', FalkorDBDatabase.many_to_one what ty rid fs t w =
               (Ret (0 <? successes (many_to_one ty rid fs t) (graph w))%nat, w')
             /\ moves w w' (run_effects (many_to_one ty rid fs t) (graph w)).
Proof.
  intros Hf Hd. unfold FalkorDBDatabase.many_to_one, many_to_one.
  destruct t as [to|]; [|neo4j_no_statement].
  destruct (Py.truthy (Some to)); simpl;
    [|rewrite orb_true_r; neo4j_no_statement].
  destruct fs as [|x fs]; [neo4j_no_statement|]. cbn [nonempty negb orb].
  destruct (falkordb_write_pairs_reliable what ty rid
              (map (fun from_id => (from_id, to)) (x :: fs)) w Hf Hd) as (w' & -> & Hm).
  by exists w'.
Qed.

Lemma falkordb_sends_relationship r :
  sends_all (FalkorDBDatabase.create_relationship r)
            (falkordb_statements r) (falkordb_result r).
Proof.
  intros w Hf Hd.
  unfold FalkorDBDatabase.create_relationship.
  unfold try_except.
  destruct r as [rid f ts|rid f t|rid fs t|rid fs t|rid fs t];
    unfold falkordb_result, falkordb_statements.
  - unfold FalkorDBDatabase._create_aggregates_relationship, one_to_many.
    destruct f as [from|]; [|neo4j_no_statement].
    destruct (Py.truthy (Some from)); simpl; [|neo4j_no_statement].
    destruct ts as [|t ts]; [neo4j_no_statement|]. cbn [nonempty negb].
    destruct (falkordb_write_pairs_reliable "Aggregation" "AGGREGATES" rid
                (map (fun to_id => (from, to_id)) (t :: ts)) w Hf Hd) as (w' & -> & Hm).
    by exists w'.
  - unfold FalkorDBDatabase._create_connects_relationship, one_to_one.
    destruct f as [from|]; [|neo4j_no_statement].
    destruct t as [to|]; [|neo4j_no_statement].
    destruct (Py.truthy (Some from)); simpl; [|neo4j_no_statement].
    destruct (Py.truthy (Some to)); simpl; [|neo4j_no_statement].
    cbn [negb]. unfold FalkorDBDatabase.graph_query. monad_unfold.
    rewrite Hd, (run_statement_reliable _ _ Hf), well_formed_rel.
    unfold run_effects, effect. simpl. rewrite ?well_formed_rel. simpl.
    eexists; (split; [reflexivity|done]).
  - destruct (falkordb_many_to_one_reliable "Property" "HAS_PROPERTY" rid fs t w Hf Hd)
      as (w' & E & Hm).
    unfold FalkorDBDatabase._create_property_relationship. rewrite E. by exists w'.
  - destruct (falkordb_many_to_one_reliable "Spatial" "CONTAINED_IN" rid fs t w Hf Hd)
      as (w' & E & Hm).
    unfold FalkorDBDatabase._create_spatial_relationship. rewrite E. by exists w'.
  - destruct (falkordb_many_to_one_reliable "Group" "ASSIGNED_TO" rid fs t w Hf Hd)
      as (w' & E & Hm).
    unfold FalkorDBDatabase._create_group_relationship. rewrite E. by exists w'.
Qed.

Lemma falkordb_file_reliable f st w :
  faults w = [] -> driver w = true -> stat f = Some st ->
  let fid := file_id_of (path_stem f) (st_mtime st) in
  exists w', FalkorDBDatabase.create_file_node f w = (Ret (Some fid), w') /\
             moves w w' (effect (Cypher.MergeFile fid (tail (file_data f st fid (clock w))))
                                (graph w)).
Proof.
  intros Hf Hd Hst fid.
  unfold FalkorDBDatabase.create_file_node, FalkorDBDatabase.graph_query, file_stat, now.
  rewrite Hst. monad_unfold. simpl. rewrite Hd.
  rewrite run_statement_reliable by done. fold fid.
  match goal with |- context [Cypher.well_formed ?q] =>
    change (Cypher.well_formed q) with true end. cbv iota. simpl.
  rewrite exec_file_rows. unfold effect.
  match goal with |- context [Cypher.well_formed ?q] =>
    change (Cypher.well_formed q) with true end. cbv iota.
  eexists. split; [reflexivity|done].
Qed.

Lemma falkordb_file_missing f w :
  stat f = None ->
  exists w', FalkorDBDatabase.create_file_node f w = (Ret None, w') /\ moves w w' (graph w).
Proof.
  intros Hst.
  unfold FalkorDBDatabase.create_file_node, file_stat.
  rewrite Hst. monad_unfold. eexists; (split; [reflexivity|done]).
Qed.

Lemma falkordb_file_offline f w :
  driver w = false ->
  exists w', FalkorDBDatabase.create_file_node f w = (Ret None, w') /\ moves w w' (graph w).
Proof.
  intros Hd.
  unfold FalkorDBDatabase.create_file_node, FalkorDBDatabase.graph_query, file_stat, now.
  monad_unfold. destruct (stat f); simpl; rewrite ?Hd;
    eexists; (split; [reflexivity|done]).
Qed.

(** ** Stepping through a computation *)

Lemma bind_logger {A} l msg (k : unit -> M A) w :
  bind (logger l msg) k w = k tt (add_log l msg w).
Proof. done. Qed.

Lemma bind_returns {A B} (m : M A) (k : A -> M B) w a w1 :
  m w = (Ret a, w1) -> bind m k w = k a w1.
Proof. intros H. unfold bind. by rewrite H. Qed.

Lemma try_except_returns {A} (m : M A) h w a w1 :
  m w = (Ret a, w1) -> try_except m h w = (Ret a, w1).
Proof. intros H. unfold try_except. by rewrite H. Qed.

Lemma try_except_returns_some {A} (m : M A) h w (P : A -> World -> Prop) :
  (exists a w1, m w = (Ret a, w1) /\ P a w1) ->
  exists a w1, try_except m h w = (Ret a, w1) /\ P a w1.
Proof.
  intros (a & w1 & E & HP). exists a, w1. split; [|done].
  by apply try_except_returns.
Qed.

Lemma extract_loop_returns {A} what (xs : list (option A)) out w :
  exists w', IFCParser.extract_loop what xs out w = (Ret (out ++ omap id xs)%list, w')
             /\ moves w w' (graph w).
Proof.
  revert out w. induction xs as [|[a|] xs IH]; intros out w; simpl.
  - exists w. by rewrite app_nil_r.
  - destruct (IH (out ++ [a])%list w) as (w' & -> & Hm). exists w'.
    by rewrite <- app_assoc.
  - rewrite bind_logger.
    destruct (IH out (add_log WARNING (what +:+ " extraction failed") w))
      as (w' & -> & Hm).
    by exists w'.
Qed.

Lemma extract_elements_returns m w :
  exists w', IFCParser.extract_elements m w = (Ret (omap id (products m)), w')
             /\ moves w w' (graph w).
Proof.
  unfold IFCParser.extract_elements.
  destruct (extract_loop_returns "Element" (products m) [] w) as (w1 & E & Hm).
  rewrite (bind_returns _ _ _ _ _ E), bind_logger. eexists. split; [reflexivity|].
  by apply moves_log.
Qed.

Lemma extract_relationships_returns m w :
  exists w', IFCParser.extract_relationships m w = (Ret (omap id (relations m)), w')
             /\ moves w w' (graph w).
Proof.
  unfold IFCParser.extract_relationships.
  destruct (extract_loop_returns "Relationship" (relations m) [] w) as (w1 & E & Hm).
  rewrite (bind_returns _ _ _ _ _ E), bind_logger. eexists. split; [reflexivity|].
  by apply moves_log.
Qed.

Lemma parse_file_returns f w :
  exists w', IFCParser.parse_file f w = (Ret (ifc f), w') /\ moves w w' (graph w).
Proof.
  unfold IFCParser.parse_file. rewrite bind_logger.
  destruct (ifc f); rewrite bind_logger; eexists; (split; [reflexivity|done]).
Qed.

Lemma file_id_truthy stem mtime : Py.truthy (Some (file_id_of stem mtime)) = true.
Proof. done. Qed.

Lemma run_effects_app qs qs' g :
  run_effects (qs ++ qs') g = run_effects qs' (run_effects qs g).
Proof. apply fold_left_app. Qed.

Lemma count_loop_sends_all {A} (body : A -> M bool) stmts res xs :
  (forall x, sends_all (body x) (stmts x) (res x)) ->
  forall n w, faults w = [] -> driver w = true ->
    exists k w', count_loop body xs n w = (Ret k, w')
                 /\ moves w w' (run_effects (flat_map stmts xs) (graph w)).
Proof.
  intros Hbody. induction xs as [|x xs IH]; intros n w Hf Hd; simpl.
  - by exists n, w.
  - destruct (Hbody x w Hf Hd) as (w1 & E & Hm).
    rewrite (bind_returns _ _ _ _ _ E).
    destruct (moves_reliable _ _ _ Hm Hf Hd) as [Hf1 Hd1].
    destruct (IH (if res x (graph w) then S n else n) w1 Hf1 Hd1)
      as (k & w2 & -> & Hm2).
    exists k, w2. split; [done|]. rewrite run_effects_app.
    pose proof Hm as [Hg _]. rewrite Hg in Hm2.
    eapply moves_trans; [exact Hm|exact Hm2].
Qed.

(** ** One import with an unfailing driver *)

Section OneImport.
Context {db : GraphWriter} (R : Reliable db).

Lemma convert_file_reliable f st w :
  faults w = [] -> driver w = true -> stat f = Some st ->
  exists b w', convert_file db f w = (Ret b, w') /\
               moves w w' (run_effects (import_statements R f st (clock w)) (graph w)).
Proof.
  intros Hf Hd Hst. unfold convert_file, import_statements.
  set (fid := file_id_of (path_stem f) (st_mtime st)).
  set (w0 := add_log INFO ("Starting IFC file conversion: " +:+ path_str f) w).
  assert (moves w w0 (graph w)) as Hm0 by done.
  destruct (file_written db R f st w0 Hf Hd Hst) as (w1 & E1 & Hm1). fold fid in E1, Hm1.
  destruct (moves_reliable _ _ _ Hm1 Hf Hd) as [Hf1 Hd1].
  destruct (parse_file_returns f w1) as (w2 & E2 & Hm2).
  pose proof (moves_trans _ _ _ _ _ Hm1 Hm2) as Hm12.
  pose proof Hm1 as [Hg1 _]. rewrite Hg1 in Hm12. change (graph w0) with (graph w) in *.
  change (clock w0) with (clock w) in *.
  apply try_except_returns_some.
  rewrite bind_logger. fold w0. rewrite (bind_returns _ _ _ _ _ E1).
  change (Py.truthy (Some fid)) with true. cbn [negb]. rewrite (bind_returns _ _ _ _ _ E2).
  destruct (ifc f) as [m|].
  2:{ rewrite bind_logger. eexists _, _. split; [reflexivity|].
      apply moves_log. exact Hm12. }
  destruct (extract_elements_returns m w2) as (w3 & E3 & Hm3).
  rewrite (bind_returns _ _ _ _ _ E3).
  pose proof (moves_trans _ _ _ _ _ Hm12 Hm3) as Hm13.
  pose proof Hm12 as [Hg2 _]. rewrite Hg2 in Hm13.
  destruct (moves_reliable _ _ _ Hm13 Hf Hd) as [Hf3 Hd3].
  destruct (nonempty (omap id (products m))) eqn:Hne; cbn [negb].
  2:{ rewrite bind_logger. eexists _, _. split; [reflexivity|].
      apply moves_log. exact Hm13. }
  destruct (count_loop_sends _ _ (omap id (products m))
              (fun e => element_written db R e (Some fid)) 0 w3 Hf3 Hd3)
    as (w4 & E4 & Hm4).
  rewrite (bind_returns _ _ _ _ _ E4), bind_logger.
  set (w5 := add_log INFO _ w4).
  assert (moves w3 w5 (graph w4)) as Hm5 by (apply moves_log; destruct Hm4; done).
  destruct (extract_relationships_returns m w5) as (w6 & E6 & Hm6).
  rewrite (bind_returns _ _ _ _ _ E6).
  pose proof (moves_trans _ _ _ _ _ Hm13 (moves_trans _ _ _ _ _ Hm5 Hm6)) as Hm16.
  destruct (moves_reliable _ _ _ Hm16 Hf Hd) as [Hf6 Hd6].
  assert (graph w6 = run_effects
            (map (fun e => Cypher.MergeElement (ifcClass e) (globalId e)
                             (element_sets R e (Some fid)) (provided (Some fid)))
                 (omap id (products m)))
            (run_effects [Cypher.MergeFile fid (file_sets R f st fid (clock w))] (graph w)))
    as Hg6.
  { destruct Hm6 as [-> _]. change (graph w5) with (graph w4).
    destruct Hm4 as [-> _]. destruct Hm13 as [-> _]. done. }
  destruct (nonempty (omap id (relations m))) eqn:Hrel.
  - destruct (count_loop_sends_all _ _ _ (omap id (relations m))
                (relationship_written db R) 0 w6 Hf6 Hd6) as (k & w7 & E7 & Hm7).
    rewrite (bind_returns _ _ _ _ _ (bind_returns _ _ _ _ _ E7)).
    rewrite !bind_logger. eexists _, _. split; [reflexivity|].
    do 2 apply moves_log.
    eapply moves_trans; [exact Hm16|].
    rewrite Hg6 in Hm7. simpl. rewrite run_effects_app. exact Hm7.
  - rewrite !bind_logger. eexists _, _. split; [reflexivity|].
    do 2 apply moves_log. destruct (omap id (relations m)); [|done].
    simpl. rewrite app_nil_r. destruct Hm16 as (_ & ? & ? & ?).
    by repeat split.
Qed.

End OneImport.

(** ** The two writers, with an unfailing driver *)

Ltac not_a_key :=
  let H := fresh in
  intros H; simpl in H;
  repeat (apply elem_of_cons in H as [H|H]; [discriminate|]);
  by apply not_elem_of_nil in H.

Ltac keeps_key :=
  let H := fresh in
  intros ? H; simpl in H;
  repeat (apply elem_of_cons in H as [H|H]; [first [discriminate | by injection H as <-]|]);
  by apply not_elem_of_nil in H.

Lemma file_data_ok f st fid t : Keys.sets_ok (Cypher.MergeFile fid (file_data f st fid t)).
Proof. split; [not_a_key|keeps_key]. Qed.

Lemma file_fields_ok f st fid t :
  Keys.sets_ok (Cypher.MergeFile fid (tail (file_data f st fid t))).
Proof. split; [not_a_key|keeps_key]. Qed.

Lemma element_properties_ok e fid p :
  Keys.sets_ok (Cypher.MergeElement (ifcClass e) (globalId e) (element_properties e fid) p).
Proof.
  unfold Keys.sets_ok, element_properties.
  destruct fid as [fid|]; [destruct (Py.truthy (Some fid))|];
    destruct (nonempty (properties e)); split; first [not_a_key|keeps_key].
Qed.

Lemma properties_entry e fid :
  Py.dict_get "properties" (element_properties e fid) =
  if nonempty (properties e) then Some (VJson (properties e)) else None.
Proof.
  unfold element_properties.
  destruct fid as [fid|]; [destruct (Py.truthy (Some fid))|];
    destruct (nonempty (properties e)); done.
Qed.

(** The [SET] fields of the FalkorDB writer are the [properties] of the
    Neo4j writer without [globalId]. *)
Lemma set_fields_properties e fid :
  element_properties e fid = ("globalId", VStr (globalId e)) :: FalkorDBDatabase.set_fields e fid.
Proof.
  unfold FalkorDBDatabase.set_fields. rewrite properties_entry.
  unfold element_properties.
  destruct fid as [fid|]; [destruct (Py.truthy (Some fid))|];
    destruct (nonempty (properties e)); done.
Qed.

Lemma set_fields_ok e fid p :
  Keys.sets_ok (Cypher.MergeElement (ifcClass e) (globalId e)
                                    (FalkorDBDatabase.set_fields e fid) p).
Proof.
  pose proof (element_properties_ok e fid p) as [H1 H2].
  rewrite set_fields_properties in H1, H2. split.
  - intros H. apply H1. simpl. by right.
  - intros v Hv. apply H2. by right.
Qed.

Lemma pair_statements_relationships ty rid pairs :
  Forall relationship (pair_statements ty rid pairs).
Proof.
  unfold pair_statements. apply Forall_forall. intros q (p & -> & _)%list_elem_of_fmap.
  by eexists _, _, _, _.
Qed.

Lemma one_to_many_relationships ty rid f ts : Forall relationship (one_to_many ty rid f ts).
Proof.
  unfold one_to_many. destruct f; [|constructor].
  destruct (Py.truthy _); [apply pair_statements_relationships|constructor].
Qed.

Lemma many_to_one_relationships ty rid fs t : Forall relationship (many_to_one ty rid fs t).
Proof.
  unfold many_to_one. destruct t; [|constructor].
  destruct (Py.truthy _); [apply pair_statements_relationships|constructor].
Qed.

Lemma one_to_one_relationships ty rid f t : Forall relationship (one_to_one ty rid f t).
Proof.
  unfold one_to_one. destruct f, t; try constructor.
  destruct (_ && _); constructor; [by eexists _, _, _, _|constructor].
Qed.

Lemma neo4j_statements_relationships r : Forall relationship (neo4j_statements r).
Proof.
  destruct r; simpl;
    auto using one_to_many_relationships, many_to_one_relationships,
      one_to_one_relationships.
Qed.

Lemma falkordb_statements_relationships r : Forall relationship (falkordb_statements r).
Proof.
  destruct r; simpl;
    auto using one_to_many_relationships, many_to_one_relationships,
      one_to_one_relationships.
Qed.

Definition neo4j_reliable : Reliable neo4j :=
  mkReliable neo4j file_data element_properties neo4j_statements neo4j_result
    neo4j_file_reliable neo4j_file_missing neo4j_file_offline
    neo4j_sends_element neo4j_sends_relationship
    file_data_ok element_properties_ok neo4j_statements_relationships.

Definition falkordb_reliable : Reliable falkordb :=
  mkReliable falkordb (fun f st fid t => tail (file_data f st fid t))
    FalkorDBDatabase.set_fields falkordb_statements falkordb_result
    falkordb_file_reliable falkordb_file_missing falkordb_file_offline
    falkordb_sends_element falkordb_sends_relationship
    file_fields_ok set_fields_ok falkordb_statements_relationships.

(** * Importing a file again *)

Lemma run_effects_filter qs g :
  run_effects qs g = run_graph (List.filter Cypher.well_formed qs) g.
Proof.
  revert g. induction qs as [|q qs IH]; intros g; [done|].
  change (run_effects (q :: qs) g) with (run_effects qs (effect q g)).
  rewrite IH. unfold effect. simpl. by destruct (Cypher.well_formed q).
Qed.

Lemma Forall_list_filter {A} (P : A -> Prop) p (l : list A) :
  Forall P l -> Forall P (List.filter p l).
Proof.
  induction 1 as [|x l Hx _ IH]; simpl; [constructor|].
  destruct (p x); [by constructor|done].
Qed.

Lemma run_effects_keys qs g :
  Forall Keys.sets_ok qs ->
  keys (run_effects qs g) = run_keys (List.filter Cypher.well_formed qs) (keys g).
Proof.
  intros H. rewrite run_effects_filter. by apply run_graph_keys, Forall_list_filter.
Qed.

Section Reimport.
Context {db : GraphWriter} (R : Reliable db).

Lemma import_statements_ok f st t : Forall Keys.sets_ok (import_statements R f st t).
Proof.
  unfold import_statements. constructor; [apply file_sets_ok|].
  destruct (ifc f) as [m|]; [|constructor].
  destruct (nonempty _); [|constructor].
  apply Forall_app. split.
  - apply Forall_forall. intros q (e & -> & _)%list_elem_of_fmap. apply element_sets_ok.
  - apply Forall_forall. intros q Hq%list_elem_of_In.
    apply in_flat_map in Hq as (r & _ & Hq%list_elem_of_In).
    pose proof (statements_relationships db R r) as Hr.
    rewrite Forall_forall in Hr. by destruct (Hr _ Hq) as (? & ? & ? & ? & ->).
Qed.

(** The well-formed statements of an import: the file, then elements
    of that file, then relationships. *)
Lemma import_statements_shape f st t :
  exists elems rels,
    List.filter Cypher.well_formed (import_statements R f st t) =
      Cypher.MergeFile (file_id_of (path_stem f) (st_mtime st))
                       (file_sets R f st (file_id_of (path_stem f) (st_mtime st)) t)
        :: (elems ++ rels)%list /\
    Forall (element_of_file (file_id_of (path_stem f) (st_mtime st))) elems /\
    Forall relationship rels /\
    forall t', List.filter Cypher.well_formed (import_statements R f st t') =
      Cypher.MergeFile (file_id_of (path_stem f) (st_mtime st))
                       (file_sets R f st (file_id_of (path_stem f) (st_mtime st)) t')
        :: (elems ++ rels)%list.
Proof.
  unfold import_statements.
  set (fid := file_id_of (path_stem f) (st_mtime st)).
  change (provided (Some fid)) with (Some fid).
  destruct (ifc f) as [m|]; [|by exists [], []].
  destruct (nonempty _); [|by exists [], []].
  eexists (List.filter Cypher.well_formed (map _ (omap id (products m)))),
          (List.filter Cypher.well_formed (flat_map _ (omap id (relations m)))).
  split; [|split; [|split]].
  - change (List.filter Cypher.well_formed (?q :: ?l)) with (q :: List.filter Cypher.well_formed l).
    by rewrite List.filter_app.
  - apply Forall_list_filter, Forall_forall.
    intros q (e & -> & _)%list_elem_of_fmap. by eexists _, _, _.
  - apply Forall_list_filter, Forall_forall. intros q Hq%list_elem_of_In.
    apply in_flat_map in Hq as (r & _ & Hq%list_elem_of_In).
    pose proof (statements_relationships db R r) as Hr.
    rewrite Forall_forall in Hr. by apply Hr.
  - intros t'.
    change (List.filter Cypher.well_formed (?q :: ?l)) with (q :: List.filter Cypher.well_formed l).
    by rewrite List.filter_app.
Qed.

Lemma reimport_keys f st t t' s :
  run_keys (List.filter Cypher.well_formed (import_statements R f st t'))
    (run_keys (List.filter Cypher.well_formed (import_statements R f st t)) s)
  = run_keys (List.filter Cypher.well_formed (import_statements R f st t)) s.
Proof.
  destruct (import_statements_shape f st t) as (elems & rels & E & He & Hr & E').
  rewrite (E' t'), E.
  transitivity (run_keys (Cypher.MergeFile (file_id_of (path_stem f) (st_mtime st))
                            (file_sets R f st (file_id_of (path_stem f) (st_mtime st)) t)
                          :: (elems ++ rels)%list)
                  (run_keys (Cypher.MergeFile (file_id_of (path_stem f) (st_mtime st))
                            (file_sets R f st (file_id_of (path_stem f) (st_mtime st)) t)
                          :: (elems ++ rels)%list) s)); [done|].
  apply run_keys_idempotent. by apply ordered_import.
Qed.

Lemma convert_file_unwritten f w w1 :
  create_file_node db f (add_log INFO ("Starting IFC file conversion: " ++ path_str f) w)
    = (Ret None, w1) ->
  convert_file db f w =
    (Ret false, add_log ERROR ("File metadata creation failed: " ++ path_str f) w1).
Proof.
  intros E. unfold convert_file. apply try_except_returns.
  rewrite bind_logger, (bind_returns _ _ _ _ _ E). done.
Qed.

(** The keys of the store after a second import of the same file are
    those after the first. *)
Lemma reimport_same_keys f w :
  faults w = [] ->
  keys (graph (convert_file db f (convert_file db f w).2).2)
  = keys (graph (convert_file db f w).2).
Proof.
  intros Hf.
  assert (forall w, (driver w = false \/ stat f = None) ->
            exists w', convert_file db f w = (Ret false, w') /\ moves w w' (graph w))
    as Hnone.
  { intros w0 H.
    assert (exists w1, create_file_node db f
              (add_log INFO ("Starting IFC file conversion: " ++ path_str f) w0)
              = (Ret None, w1) /\ moves w0 w1 (graph w0)) as (w1 & E & Hm).
    { destruct H as [H|H].
      - exact (file_offline db R f (add_log INFO _ w0) H).
      - exact (file_missing db R f (add_log INFO _ w0) H). }
    rewrite (convert_file_unwritten _ _ _ E). eexists. split; [done|].
    by apply moves_log. }
  destruct (driver w) eqn:Hd; [destruct (stat f) as [st|] eqn:Hst|].
  - destruct (convert_file_reliable R f st w Hf Hd Hst) as (b & w1 & E1 & Hm1).
    rewrite E1. cbn [snd].
    destruct (moves_reliable _ _ _ Hm1 Hf Hd) as [Hf1 Hd1].
    destruct (convert_file_reliable R f st w1 Hf1 Hd1 Hst) as (b2 & w2 & E2 & Hm2).
    rewrite E2. cbn [snd].
    destruct Hm2 as [-> _]. destruct Hm1 as [-> _].
    rewrite !run_effects_keys by apply import_statements_ok.
    apply reimport_keys.
  - destruct (Hnone w) as (w1 & E1 & Hm1); [by right|]. rewrite E1. cbn [snd].
    destruct (Hnone w1) as (w2 & E2 & Hm2); [by right|]. rewrite E2. cbn [snd].
    by destruct Hm2 as [-> _].
  - destruct (Hnone w) as (w1 & E1 & Hm1); [by left|]. rewrite E1. cbn [snd].
    destruct (Hnone w1) as (w2 & E2 & Hm2).
    { left. destruct Hm1 as (_ & -> & _). done. }
    rewrite E2. cbn [snd]. by destruct Hm2 as [-> _].
Qed.

End Reimport.

(** C1. Importing the same unmodified file a second time, with a driver
    that does not fail, leaves the number of nodes and of edges as they
    were after the first import; indeed every node keeps its labels,
    [globalId] and [fileId], and every edge its endpoints and type: the
    writes are merges on [globalId], and on the file identifier
    [FILE_<stem>_<int(mtime)>], which depends on the file's stem and
    modification time alone. *)
Theorem import_twice_same_counts (f : SourceFile) (w : World) :
  faults w = [] ->
  let once := graph (convert_file neo4j f w).2 in
  let twice := graph (convert_file neo4j f (convert_file neo4j f w).2).2 in
  node_count twice = node_count once /\
  edge_count twice = edge_count once /\
  keys twice = keys once /\
  (forall st fid w', stat f = Some st ->
     Neo4jDatabase.create_file_node f w = (Ret (Some fid), w') ->
     fid = file_id_of (path_stem f) (st_mtime st)).
Proof.
  intros Hf once twice.
  pose proof (reimport_same_keys neo4j_reliable f w Hf) as H.
  fold once twice in H.
  destruct (keys_counts once) as [-> ->], (keys_counts twice) as [-> ->].
  rewrite H. repeat split; try done.
  intros st fid w' Hst E.
  unfold Neo4jDatabase.create_file_node, Neo4jDatabase.session,
    Neo4jDatabase.execute_write, Neo4jDatabase._create_file_tx, file_stat in E.
  rewrite Hst in E. monad_unfold. unfold with_handle in E.
  destruct (driver w); [|discriminate].
  unfold now in E. cbn beta iota in E.
  destruct (Neo4jDatabase.tx_run _ _) as [[rows|e] w2]; cbn beta iota in E.
  - destruct (nonempty rows); cbn [add_log tx_failed] in E;
      destruct (tx_failed w2); congruence.
  - destruct e; [cbn [add_log tx_failed] in E; destruct (tx_failed w2)|]; discriminate.
Qed.

Lemma import_twice_same_counts_witness :
  faults Sample.connected = [] /\
  node_count (graph (convert_file neo4j Sample.duplex
                       (convert_file neo4j Sample.duplex Sample.connected).2).2)
  = node_count (graph (convert_file neo4j Sample.duplex Sample.connected).2).
Proof.
  split; [reflexivity|].
  exact (proj1 (import_twice_same_counts Sample.duplex Sample.connected eq_refl)).
Defined.

(** * Errors stay inside *)

Lemma returns_contained {A} (m : M A) : returns m -> contained m.
Proof. intros H w Hw. destruct (H w Hw) as (a & w' & -> & Hw'). done. Qed.

Lemma returns_ret {A} (a : A) : returns (ret a).
Proof. intros w Hw. by exists a, w. Qed.

Lemma returns_logger l msg : returns (logger l msg).
Proof. intros w Hw. by eexists _, _. Qed.

Lemma returns_now : returns now.
Proof. intros w Hw. by eexists _, _. Qed.

Lemma returns_bind {A B} (m : M A) (k : A -> M B) :
  returns m -> (forall a, returns (k a)) -> returns (bind m k).
Proof.
  intros Hm Hk w Hw. destruct (Hm w Hw) as (a & w1 & E & Hw1).
  destruct (Hk a w1 Hw1) as (b & w2 & E2 & Hw2).
  exists b, w2. by rewrite (bind_returns _ _ _ _ _ E).
Qed.

Lemma contained_raise {A} msg : contained (@raise A (Exception msg)).
Proof. intros w Hw. done. Qed.

Lemma contained_bind {A B} (m : M A) (k : A -> M B) :
  contained m -> (forall a, contained (k a)) -> contained (bind m k).
Proof.
  intros Hm Hk w Hw. destruct (Hm w Hw) as [Hw1 Hne]. unfold bind.
  destruct (m w) as [[a|[msg|]] w1]; simpl in *; [by apply Hk|done|done].
Qed.

Lemma contained_try {A} (m : M A) h :
  contained m -> (forall e, contained (h e)) -> contained (try_except m h).
Proof.
  intros Hm Hh w Hw. destruct (Hm w Hw) as [Hw1 Hne]. unfold try_except.
  destruct (m w) as [[a|[msg|]] w1]; simpl in *; [done|by apply Hh|done].
Qed.

Lemma returns_try {A} (m : M A) h :
  contained m -> (forall e, returns (h e)) -> returns (try_except m h).
Proof.
  intros Hm Hh w Hw. destruct (Hm w Hw) as [Hw1 Hne]. unfold try_except.
  destruct (m w) as [[a|[msg|]] w1]; simpl in *; [by exists a, w1|by apply Hh|done].
Qed.

Lemma returns_try_all {A} (m : M A) h :
  contained m -> returns h -> returns (try_except_all m h).
Proof.
  intros Hm Hh w Hw. destruct (Hm w Hw) as [Hw1 Hne]. unfold try_except_all.
  destruct (m w) as [[a|e] w1]; simpl in *; [by exists a, w1|by apply Hh].
Qed.

Lemma contained_next_event : contained next_event.
Proof.
  intros w Hw. unfold next_event, calm in *.
  destruct (faults w) as [|[e|] fs] eqn:E; simpl; [by rewrite E|..].
  - apply Forall_cons in Hw as [He Hfs]. split; [done|]. congruence.
  - by apply Forall_cons in Hw as [_ Hfs].
Qed.

Lemma contained_run_statement q : contained (run_statement q).
Proof.
  unfold run_statement. apply contained_bind; [apply contained_next_event|].
  intros _. destruct (Cypher.well_formed q); [|apply contained_raise].
  intros w Hw. by destruct (Cypher.exec q (graph w)).
Qed.

Lemma contained_with_handle {A} attr (m : M A) :
  contained m -> contained (with_handle attr m).
Proof.
  intros Hm w Hw. unfold with_handle. destruct (driver w); [by apply Hm|done].
Qed.

Lemma contained_execute_write {A} (m : M A) :
  contained m -> contained (Neo4jDatabase.execute_write m).
Proof.
  intros Hm w Hw. destruct (Hm (set_tx_failed false w) Hw) as [Hw1 Hne].
  unfold Neo4jDatabase.execute_write.
  destruct (m (set_tx_failed false w)) as [[a|e] w1]; simpl in *;
    [destruct (tx_failed w1)|]; done.
Qed.

Lemma contained_tx_run q : contained (Neo4jDatabase.tx_run q).
Proof.
  intros w Hw. destruct (contained_run_statement q w Hw) as [Hw1 Hne].
  unfold Neo4jDatabase.tx_run.
  by destruct (run_statement q w) as [[a|[msg|]] w1].
Qed.

Lemma contained_file_stat f : contained (file_stat f).
Proof.
  unfold file_stat. destruct (stat f); [apply returns_contained, returns_ret|].
  apply contained_raise.
Qed.

Lemma returns_count_loop {A} (body : A -> M bool) xs n :
  (forall x, returns (body x)) -> returns (count_loop body xs n).
Proof.
  intros Hb. revert n. induction xs as [|x xs IH]; intros n; simpl.
  - apply returns_ret.
  - apply returns_bind; [apply Hb|]. intros b. apply IH.
Qed.

Lemma contained_count_loop {A} (body : A -> M bool) xs n :
  (forall x, contained (body x)) -> contained (count_loop body xs n).
Proof.
  intros Hb. revert n. induction xs as [|x xs IH]; intros n; simpl.
  - apply returns_contained, returns_ret.
  - apply contained_bind; [apply Hb|]. intros b. apply IH.
Qed.

Lemma returns_set_driver d : returns (fun w => (Ret tt, set_driver d w)).
Proof. intros w Hw. by eexists _, _. Qed.

(** Breaks a computation into its steps. *)
Ltac steps :=
  repeat first
    [ progress intros
    | apply returns_ret | apply returns_logger | apply returns_now
    | apply returns_set_driver
    | apply returns_bind | apply returns_try | apply returns_try_all
    | apply returns_count_loop
    | apply contained_raise | apply contained_next_event
    | apply contained_run_statement | apply contained_tx_run
    | apply contained_file_stat
    | apply contained_with_handle | apply contained_execute_write
    | apply contained_bind | apply contained_try | apply contained_count_loop
    | match goal with
      | |- returns (if ?b then _ else _) => destruct b
      | |- contained (if ?b then _ else _) => destruct b
      | |- returns (match ?x with _ => _ end) => destruct x
      | |- contained (match ?x with _ => _ end) => destruct x
      end
    | apply returns_contained ].

Lemma neo4j_returns : writer_returns neo4j.
Proof.
  repeat split; simpl.
  - intros f. unfold Neo4jDatabase.create_file_node, Neo4jDatabase._create_file_tx,
      Neo4jDatabase.session. steps.
  - intros e fid. unfold Neo4jDatabase.create_element_node,
      Neo4jDatabase._create_element_tx, Neo4jDatabase.session. steps.
  - intros r. unfold Neo4jDatabase.create_relationship,
      Neo4jDatabase._create_relationship_tx, Neo4jDatabase.session.
    apply returns_try; [|steps]. apply contained_with_handle, contained_execute_write.
    apply contained_try; [|steps].
    destruct r;
      unfold Neo4jDatabase._create_aggregates_relationship,
        Neo4jDatabase._create_connects_relationship,
        Neo4jDatabase._create_property_relationship,
        Neo4jDatabase._create_spatial_relationship,
        Neo4jDatabase._create_group_relationship,
        Neo4jDatabase.write_pairs; steps.
Qed.

Lemma falkordb_returns : writer_returns falkordb.
Proof.
  repeat split; simpl.
  - intros f. unfold FalkorDBDatabase.create_file_node, FalkorDBDatabase.graph_query.
    steps.
  - intros e fid. unfold FalkorDBDatabase.create_element_node,
      FalkorDBDatabase.graph_query. steps.
  - intros r. unfold FalkorDBDatabase.create_relationship.
    apply returns_try; [|steps].
    destruct r;
      unfold FalkorDBDatabase._create_aggregates_relationship,
        FalkorDBDatabase._create_connects_relationship,
        FalkorDBDatabase._create_property_relationship,
        FalkorDBDatabase._create_spatial_relationship,
        FalkorDBDatabase._create_group_relationship,
        FalkorDBDatabase.many_to_one,
        FalkorDBDatabase.write_pairs, FalkorDBDatabase.graph_query; steps.
Qed.

(** ** The result of [convert_file] *)

Lemma returns_extract_loop {A} what (xs : list (option A)) out :
  returns (IFCParser.extract_loop what xs out).
Proof.
  intros w Hw. destruct (extract_loop_returns what xs out w) as (w' & E & Hm).
  eexists _, _. split; [exact E|]. unfold calm. by destruct Hm as (_ & _ & -> & _).
Qed.

Lemma moves_calm w w' g : moves w w' g -> calm w -> calm w'.
Proof. intros (_ & _ & Hf & _) H. unfold calm. by rewrite Hf. Qed.

Lemma try_except_returns_to {A} (m : M A) h w a (P : World -> Prop) :
  (exists w1, m w = (Ret a, w1) /\ P w1) ->
  exists w1, try_except m h w = (Ret a, w1) /\ P w1.
Proof.
  intros (w1 & E & HP). exists w1. split; [|done]. by apply try_except_returns.
Qed.

Section ConvertFile.
Context (db : GraphWriter) (Hdb : writer_returns db).

Lemma convert_file_result f w :
  calm w ->
  exists w', convert_file db f w = (Ret (converts db f w), w') /\ calm w'.
Proof.
  intros Hw. destruct Hdb as (Hfile & Helem & Hrel).
  unfold convert_file, converts.
  assert (calm (started f w)) as Hw0 by done.
  destruct (Hfile f (started f w) Hw0) as (fo & w1 & E1 & Hw1).
  rewrite E1. cbn [fst].
  apply try_except_returns_to.
  rewrite bind_logger. fold (started f w). rewrite (bind_returns _ _ _ _ _ E1).
  destruct (Py.truthy fo) eqn:Ht; cbn [negb andb].
  2:{ rewrite bind_logger. by eexists. }
  destruct (parse_file_returns f w1) as (w2 & E2 & Hm2).
  rewrite (bind_returns _ _ _ _ _ E2).
  pose proof (moves_calm _ _ _ Hm2 Hw1) as Hw2.
  destruct (ifc f) as [m|]; [|rewrite bind_logger; by eexists].
  destruct (extract_elements_returns m w2) as (w3 & E3 & Hm3).
  rewrite (bind_returns _ _ _ _ _ E3).
  pose proof (moves_calm _ _ _ Hm3 Hw2) as Hw3.
  destruct (nonempty (omap id (products m))); cbn [negb];
    [|rewrite bind_logger; by eexists].
  destruct (returns_count_loop (fun e => create_element_node db e fo)
              (omap id (products m)) 0 (fun e => Helem e fo) w3 Hw3)
    as (n & w4 & E4 & Hw4).
  rewrite (bind_returns _ _ _ _ _ E4), bind_logger.
  match goal with |- context [add_log INFO ?s w4] => set (w5 := add_log INFO s w4) end.
  destruct (extract_relationships_returns m w5) as (w6 & E6 & Hm6).
  rewrite (bind_returns _ _ _ _ _ E6).
  assert (calm w6) as Hw6 by (eapply moves_calm; [exact Hm6|done]).
  destruct (nonempty (omap id (relations m))).
  - destruct (returns_count_loop (create_relationship db) (omap id (relations m)) 0
                Hrel w6 Hw6) as (k & w7 & E7 & Hw7).
    rewrite (bind_returns _ _ _ _ _ (bind_returns _ _ _ _ _ E7)).
    rewrite !bind_logger. by eexists.
  - rewrite !bind_logger. by eexists.
Qed.

Lemma returns_convert_file f : returns (convert_file db f).
Proof.
  intros w Hw. destruct (convert_file_result f w Hw) as (w' & E & Hw').
  by eexists _, _.
Qed.

End ConvertFile.

Lemma failing_writes_returns db : writer_returns db -> writer_returns (failing_writes db).
Proof.
  intros (Hf & _ & _). repeat split; simpl; [done|..]; intros; apply returns_ret.
Qed.

(** C10. [convert_file] reports success exactly when the file-node write
    hands back an identifier, the file parses and at least one element
    is extracted; how the element and relationship writes fare has no
    part in it: with every one of them failing the report is the same. *)
Theorem convert_file_success_ignores_writes (db : GraphWriter) (f : SourceFile) (w : World) :
  writer_returns db -> calm w ->
  exists b w',
    convert_file db f w = (Ret b, w') /\
    (b = true <->
       (exists file_id, (create_file_node db f (started f w)).1 = Ret file_id /\
                        Py.truthy file_id = true) /\
       (exists ifc_file, ifc f = Some ifc_file /\ omap id (products ifc_file) <> [])) /\
    (convert_file (failing_writes db) f w).1 = Ret b.
Proof.
  intros Hdb Hw.
  destruct (convert_file_result db Hdb f w Hw) as (w' & E & _).
  destruct (convert_file_result _ (failing_writes_returns db Hdb) f w Hw) as (w'' & E' & _).
  exists (converts db f w), w'. split; [done|]. split; [|by rewrite E'].
  unfold converts.
  destruct (create_file_node db f (started f w)) as [[fo|e] w1]; cbn [fst].
  - rewrite andb_true_iff. split.
    + intros [Ht Hm]. split; [by exists fo|].
      destruct (ifc f) as [m|]; [|done]. exists m. split; [done|].
      by destruct (omap id (products m)).
    + intros [(fo' & [= <-] & Ht) (m & -> & Hm)]. split; [done|].
      by destruct (omap id (products m)).
  - split; [done|]. by intros [(fo' & ? & _) _].
Qed.

Lemma convert_file_success_ignores_writes_witness :
  writer_returns neo4j /\ calm Sample.connected /\
  exists b w',
    convert_file neo4j Sample.duplex Sample.connected = (Ret b, w') /\
    (convert_file (failing_writes neo4j) Sample.duplex Sample.connected).1 = Ret b.
Proof.
  split; [exact neo4j_returns|]. split; [constructor|].
  destruct (convert_file_success_ignores_writes neo4j Sample.duplex Sample.connected
              neo4j_returns (List.Forall_nil _)) as (b & w' & E & _ & E').
  exists b, w'. split; [exact E | exact E'].
Defined.

(** ** The file node *)

Lemma run_statement_inv q w rows w' :
  run_statement q w = (Ret rows, w') ->
  Cypher.well_formed q = true /\
  rows = (Cypher.exec q (graph w)).1 /\ graph w' = (Cypher.exec q (graph w)).2 /\
  driver w' = driver w.
Proof.
  unfold run_statement, bind, next_event, raise.
  destruct (faults w) as [|[e|] fs]; [| |].
  - destruct (Cypher.well_formed q); [|done].
    destruct (Cypher.exec q (graph w)) as [r g]. by intros [= <- <-].
  - done.
  - destruct (Cypher.well_formed q); [|done]. cbn [graph set_faults].
    destruct (Cypher.exec q (graph w)) as [r g]. by intros [= <- <-].
Qed.

Lemma has_file_node_keys g fid :
  Cypher.find_indices (Keys.is_file fid) (keys g).1 <> [] -> has_file_node g fid.
Proof.
  intros H. destruct (Cypher.find_indices _ _) as [|i r] eqn:E; [done|].
  assert (i ∈ Cypher.find_indices (Keys.is_file fid) (keys g).1) as Hi by (rewrite E; left).
  apply elem_of_find_indices in Hi as (k & Hk & Hf).
  unfold keys in Hk. cbn [fst] in Hk. rewrite list_lookup_fmap in Hk.
  destruct (nodes g !! i) as [n|] eqn:En; [|done]. injection Hk as <-.
  unfold Keys.is_file, node_key in Hf. cbn [fst snd] in Hf.
  apply andb_true_iff in Hf as [Hl%bool_decide_eq_true_1 Hp%bool_decide_eq_true_1].
  exists i, n. split; [done|]. split; [|done]. apply Hl. by apply elem_of_singleton.
Qed.

Lemma exec_file_node fid sets g :
  Keys.sets_ok (Cypher.MergeFile fid sets) ->
  has_file_node (Cypher.exec (Cypher.MergeFile fid sets) g).2 fid.
Proof.
  intros Hok. apply has_file_node_keys. rewrite keys_exec by done.
  apply (step_settles (Cypher.MergeFile fid sets)).
Qed.

Lemma neo4j_file_node_written f w fid w1 :
  Neo4jDatabase.create_file_node f w = (Ret (Some fid), w1) ->
  (exists st, stat f = Some st /\ fid = file_id_of (path_stem f) (st_mtime st)) /\
  has_file_node (graph w1) fid.
Proof.
  unfold Neo4jDatabase.create_file_node, Neo4jDatabase.session,
    Neo4jDatabase.execute_write, Neo4jDatabase._create_file_tx, Neo4jDatabase.tx_run,
    file_stat.
  destruct (stat f) as [st|]; monad_unfold; destruct (driver w); try discriminate.
  unfold now. cbn beta iota.
  destruct (run_statement _ _) as [[rows|[msg|]] w2] eqn:E; try discriminate.
  apply run_statement_inv in E as (_ & -> & Hg & _).
  rewrite exec_file_rows. cbn [tx_failed add_log].
  destruct (tx_failed w2); [discriminate|].
  intros [= <- <-]. split; [by exists st|].
  cbn [graph add_log set_tx_failed]. rewrite Hg. apply exec_file_node, file_data_ok.
Qed.

Lemma falkordb_file_node_written f w fid w1 :
  FalkorDBDatabase.create_file_node f w = (Ret (Some fid), w1) ->
  (exists st, stat f = Some st /\ fid = file_id_of (path_stem f) (st_mtime st)) /\
  has_file_node (graph w1) fid.
Proof.
  unfold FalkorDBDatabase.create_file_node, FalkorDBDatabase.graph_query, file_stat.
  destruct (stat f) as [st|]; monad_unfold; try discriminate.
  unfold now. cbn beta iota. cbn [driver set_clock].
  destruct (driver w); try discriminate.
  destruct (run_statement _ _) as [[rows|[msg|]] w2] eqn:E; try discriminate.
  apply run_statement_inv in E as (_ & -> & Hg & _).
  rewrite exec_file_rows. intros [= <- <-]. split; [by exists st|].
  cbn [graph add_log]. rewrite Hg. apply exec_file_node, file_fields_ok.
Qed.

(** C9. A conversion that fails after the file node was written is not
    undone: when the file does not parse, or yields no element,
    [convert_file] reports failure and the store is the one the
    file-node write left, with the [IFCFile] node of this file in it. *)
Theorem failed_conversion_keeps_file_node (f : SourceFile) (w : World)
        (file_id : string) (w1 : World) :
  Neo4jDatabase.create_file_node f (started f w) = (Ret (Some file_id), w1) ->
  ifc f = None \/ (exists ifc_file, ifc f = Some ifc_file /\
                                    omap id (products ifc_file) = []) ->
  exists w', convert_file neo4j f w = (Ret false, w') /\
             graph w' = graph w1 /\ has_file_node (graph w') file_id.
Proof.
  intros E1 Hfail.
  destruct (neo4j_file_node_written _ _ _ _ E1) as [(st & Hst & ->) Hnode].
  cut (exists w', convert_file neo4j f w = (Ret false, w') /\ graph w' = graph w1).
  { intros (w' & E & Hg). exists w'. by rewrite Hg. }
  unfold convert_file. apply try_except_returns_to.
  rewrite bind_logger. fold (started f w).
  change (create_file_node neo4j f) with (Neo4jDatabase.create_file_node f).
  rewrite (bind_returns _ _ _ _ _ E1).
  rewrite file_id_truthy. cbn [negb].
  destruct (parse_file_returns f w1) as (w2 & E2 & Hm2).
  rewrite (bind_returns _ _ _ _ _ E2).
  destruct Hfail as [->|(m & -> & Hm)].
  - rewrite bind_logger. eexists. split; [done|].
    destruct Hm2 as [Hg2 _]. cbn [graph add_log]. congruence.
  - destruct (extract_elements_returns m w2) as (w3 & E3 & Hm3).
    rewrite (bind_returns _ _ _ _ _ E3), Hm. cbn [nonempty negb].
    rewrite bind_logger. eexists. split; [done|].
    destruct Hm2 as [Hg2 _], Hm3 as [Hg3 _]. cbn [graph add_log]. congruence.
Qed.

Lemma failed_conversion_keeps_file_node_witness :
  exists w', convert_file neo4j Sample.broken Sample.connected = (Ret false, w') /\
             has_file_node (graph w') (file_id_of "broken" 1315400000).
Proof.
  destruct (file_written neo4j neo4j_reliable Sample.broken _
              (started Sample.broken Sample.connected) eq_refl eq_refl eq_refl)
    as (w1 & E1 & _).
  destruct (failed_conversion_keeps_file_node Sample.broken Sample.connected _ w1 E1
              (or_introl eq_refl)) as (w' & E & _ & Hn).
  exists w'. split; [exact E | exact Hn].
Defined.

(** ** The results of a directory *)

Lemma dict_set_fresh {V} k (v : V) d :
  k ∉ d.*1 -> Py.dict_set k v d = (d ++ [(k, v)])%list.
Proof.
  induction d as [|[k' v'] d IH]; intros Hk; [done|].
  rewrite fmap_cons, not_elem_of_cons in Hk. destruct Hk as [Hne Hk]. simpl in *.
  destruct (String.eqb_spec k k') as [->|_]; [done|]. by rewrite IH.
Qed.

Lemma dict_get_elem_of {V} k (v : V) d :
  NoDup d.*1 -> (k, v) ∈ d -> Py.dict_get k d = Some v.
Proof.
  induction d as [|[k' v'] d IH]; intros Hnd Hin; [by apply elem_of_nil in Hin|].
  simpl in *. apply NoDup_cons in Hnd as [Hk' Hnd].
  apply elem_of_cons in Hin as [[= <- <-]|Hin].
  - by rewrite String.eqb_refl.
  - destruct (String.eqb_spec k k') as [<-|_]; [|by apply IH].
    destruct Hk'. apply list_elem_of_fmap. by exists (k, v).
Qed.

Lemma attempted_paths db files w results w' :
  attempted db files w results w' -> results.*1 = map path_str files.
Proof. induction 1; [done|]. simpl. by f_equal. Qed.

Lemma doomed_converts f w : doomed f -> converts neo4j f w = false.
Proof.
  unfold converts. intros [Hst|[Hifc|(m & Hifc & Hm)]].
  - destruct (neo4j_file_missing f (started f w) Hst) as (w' & E & _).
    change (create_file_node neo4j f) with (Neo4jDatabase.create_file_node f).
    by rewrite E.
  - destruct (create_file_node neo4j f (started f w)).1 as [fo|]; [|done].
    rewrite Hifc. apply andb_false_r.
  - destruct (create_file_node neo4j f (started f w)).1 as [fo|]; [|done].
    rewrite Hifc, Hm. apply andb_false_r.
Qed.

Lemma attempted_doomed files w results w' f :
  attempted neo4j files w results w' -> f ∈ files -> doomed f ->
  (path_str f, false) ∈ results.
Proof.
  induction 1 as [|f0 files w b w1 results w' E Hb _ IH]; intros Hin Hd.
  - by apply elem_of_nil in Hin.
  - apply elem_of_cons in Hin as [->|Hin].
    + rewrite Hb, doomed_converts by done. left.
    + right. by apply IH.
Qed.

Lemma result_logged_calm f b w : calm w -> calm (result_logged f b w).
Proof. by destruct b. Qed.

Lemma each_file_attempted body handler files acc w :
  records_result body ->
  calm w ->
  (forall f, f ∈ files -> path_str f ∉ acc.*1) ->
  NoDup (map path_str files) ->
  exists results w',
    each_file body handler files acc w = (Ret (inl (acc ++ results)%list), w') /\
    attempted neo4j files w results w' /\ calm w'.
Proof.
  intros Hbody. revert acc w.
  induction files as [|f files IH]; intros acc w Hw Hacc Hnd.
  - exists [], w. rewrite app_nil_r. repeat split; [constructor|done].
  - simpl in Hnd. apply NoDup_cons in Hnd as [Hf Hnd].
    destruct (Hbody f acc w Hw) as (w1 & E & Eb & Hw1); [apply Hacc; left|].
    destruct (IH (acc ++ [(path_str f, converts neo4j f w)])%list
                 (result_logged f (converts neo4j f w) w1))
      as (rs & w' & E' & Hat & Hw').
    + by apply result_logged_calm.
    + intros f' Hin. rewrite fmap_app, not_elem_of_app. split; [apply Hacc; by right|].
      simpl. rewrite list_elem_of_singleton. intros Heq. apply Hf.
      rewrite <- Heq. apply list_elem_of_fmap. by exists f'.
    + done.
    + exists ((path_str f, converts neo4j f w) :: rs), w'. split; [|split; [|done]].
      * cbn [each_file].
        rewrite (bind_returns _ _ _ _ _
                   (try_except_returns _ _ _ _ _ (bind_returns _ _ _ _ _ Eb))).
        rewrite <- app_assoc in E'. exact E'.
      * by econstructor.
Qed.

(** C4. One file's failure stays with that file.  Without an interrupt,
    [convert_directory] converts every file of the directory, in order:
    each file is converted in the world its predecessors left, whether
    they succeeded or failed, and is recorded with the result of its own
    conversion (file node written, file parsed, an element extracted);
    the mapping returned has exactly these entries and the world
    returned is the one the last conversion left, with the summary
    logged.  In particular a file whose metadata cannot be read, that
    does not parse or that holds no element is recorded [False],
    wherever it stands in the batch, and the files after it are still
    converted. *)
Theorem convert_directory_isolates_failures (dir : Directory) (w : World) :
  calm w -> NoDup (map path_str (glob dir)) ->
  exists results w1,
    attempted neo4j (glob dir)
      (if nonempty (glob dir)
       then add_log INFO ("Found " ++ pretty (length (glob dir))
                          ++ " IFC files in total.") w
       else add_log WARNING ("No IFC files found: " ++ dir_str dir) w)
      results w1 /\
    IFCToGraphConverter.convert_directory dir w =
      (Ret results,
       if nonempty (glob dir)
       then add_log INFO ("Conversion completed - successful: "
                          ++ pretty (success_count results) ++ "/"
                          ++ pretty (length results)) w1
       else w1) /\
    results.*1 = map path_str (glob dir) /\
    (forall f, f ∈ glob dir -> doomed f ->
               Py.dict_get (path_str f) results = Some false).
Proof.
  intros Hw Hnd. unfold IFCToGraphConverter.convert_directory.
  destruct (nonempty (glob dir)) eqn:Hne; cbn [negb].
  2:{ destruct (glob dir); [|done]. eexists [], _. split; [constructor|].
      split; [reflexivity|]. split; [done|]. intros f Hin. by apply elem_of_nil in Hin. }
  rewrite bind_logger.
  match goal with |- context [add_log INFO ?s w] => set (w0 := add_log INFO s w) end.
  match goal with |- context [each_file ?b ?h] =>
    destruct (each_file_attempted b h (glob dir) [] w0) as (rs & w' & E & Hat & _)
  end; [|done| |done|].
  { intros f acc w1 Hw1 Hacc.
    destruct (convert_file_result neo4j neo4j_returns f w1 Hw1) as (w2 & E & Hw2).
    exists w2. split; [done|]. split; [|done].
    apply try_except_returns. unfold IFCToGraphConverter.convert_file.
    rewrite (bind_returns _ _ _ _ _ E), dict_set_fresh by done.
    unfold result_logged. by destruct (converts neo4j f w1). }
  { intros f _. apply not_elem_of_nil. }
  rewrite (bind_returns _ _ _ _ _ E), bind_logger. cbn [app].
  exists rs, w'. split; [done|]. split; [reflexivity|].
  pose proof (attempted_paths _ _ _ _ _ Hat) as Hp.
  split; [done|].
  intros f Hin Hd. apply dict_get_elem_of; [by rewrite Hp|].
  by apply attempted_doomed with (glob dir) w0 w'.
Qed.

Lemma convert_directory_isolates_failures_witness :
  let dir := mkDirectory "input" true [Sample.broken; Sample.duplex] in
  exists w',
    IFCToGraphConverter.convert_directory dir Sample.connected =
      (Ret [("input/broken.ifc", false); ("input/Duplex_A_20110907.ifc", true)], w').
Proof.
  intros dir.
  assert (NoDup (map path_str (glob dir))) as Hnd.
  { repeat constructor; [|apply not_elem_of_nil].
    rewrite list_elem_of_singleton. discriminate. }
  destruct (convert_directory_isolates_failures dir Sample.connected
              (List.Forall_nil _) Hnd)
    as (results & w1 & Hat & E & _ & _).
  assert (results = [("input/broken.ifc", false); ("input/Duplex_A_20110907.ifc", true)])
    as Hr.
  { assert (exists w2, IFCToGraphConverter.convert_directory dir Sample.connected =
              (Ret [("input/broken.ifc", false); ("input/Duplex_A_20110907.ifc", true)], w2))
      as [w2 E2] by (eexists; vm_compute; reflexivity).
    rewrite E2 in E. by injection E. }
  rewrite Hr in E. eexists. exact E.
Defined.

(** * The query tool of the agent *)

Section QueryTool.
Variable answer : string -> Graph -> list Neo4jQueryTool.Row * Graph.

Lemma next_event_fault e fs w :
  faults w = Some e :: fs -> next_event w = (Raise e, set_faults fs w).
Proof. unfold next_event. by intros ->. Qed.

Lemma next_event_quiet fs w :
  faults w = None :: fs -> next_event w = (Ret tt, set_faults fs w).
Proof. unfold next_event. by intros ->. Qed.

Lemma session_run_fault q e fs w :
  driver w = true -> faults w = Some e :: fs ->
  Neo4jQueryTool.session_run answer q w = (Raise e, set_faults fs w).
Proof.
  intros Hd Hf. unfold Neo4jQueryTool.session_run, Neo4jDatabase.session, with_handle.
  rewrite Hd. unfold bind. by rewrite (next_event_fault _ _ _ Hf).
Qed.

Lemma session_run_quiet q fs w :
  driver w = true -> faults w = None :: fs ->
  Neo4jQueryTool.session_run answer q w =
  (Ret (answer q (graph w)).1, set_graph (answer q (graph w)).2 (set_faults fs w)).
Proof.
  intros Hd Hf. unfold Neo4jQueryTool.session_run, Neo4jDatabase.session, with_handle.
  rewrite Hd. unfold bind. rewrite (next_event_quiet _ _ Hf). cbn [graph set_faults].
  by destruct (answer q (graph w)).
Qed.

(** One attempt of [connect]. *)
Lemma connect_attempt_fault n e fs w :
  faults w = Some (Exception e) :: fs ->
  Neo4jQueryTool.connect (S n) w = Neo4jQueryTool.connect n (set_faults fs (set_driver true w)).
Proof.
  intros Hf. cbn [Neo4jQueryTool.connect].
  unfold bind at 1, try_except, bind at 1, bind at 1.
  unfold Neo4jDatabase.session, with_handle. cbn [driver set_driver].
  unfold run_statement, bind.
  rewrite (next_event_fault (Exception e) fs (set_driver true w)) by done.
  reflexivity.
Qed.

Lemma connect_attempt_quiet n fs w :
  faults w = None :: fs ->
  Neo4jQueryTool.connect (S n) w = (Ret true, set_faults fs (set_driver true w)).
Proof.
  intros Hf. cbn [Neo4jQueryTool.connect].
  unfold bind at 1, try_except, bind at 1, bind at 1.
  unfold Neo4jDatabase.session, with_handle. cbn [driver set_driver].
  unfold run_statement, bind.
  rewrite (next_event_quiet fs (set_driver true w)) by done.
  reflexivity.
Qed.

Lemma connect_attempt_idle n w :
  faults w = [] ->
  Neo4jQueryTool.connect (S n) w = (Ret true, set_driver true w).
Proof.
  intros Hf. cbn [Neo4jQueryTool.connect].
  unfold bind at 1, try_except, bind at 1, bind at 1.
  unfold Neo4jDatabase.session, with_handle. cbn [driver set_driver].
  unfold run_statement, bind, next_event. cbn [faults set_driver]. by rewrite Hf.
Qed.

Lemma connect_attempt_interrupt n fs w :
  faults w = Some KeyboardInterrupt :: fs ->
  Neo4jQueryTool.connect (S n) w =
  (Raise KeyboardInterrupt, set_faults fs (set_driver true w)).
Proof.
  intros Hf. cbn [Neo4jQueryTool.connect].
  unfold bind at 1, try_except, bind at 1, bind at 1.
  unfold Neo4jDatabase.session, with_handle. cbn [driver set_driver].
  unfold run_statement, bind.
  rewrite (next_event_fault KeyboardInterrupt fs (set_driver true w)) by done.
  reflexivity.
Qed.

Lemma calm_drop k w w' : faults w' = drop k (faults w) -> calm w -> calm w'.
Proof. unfold calm. intros ->. apply Forall_drop. Qed.

(** [connect] makes at most [max_retries] attempts, never raises an
    [Exception], and reports success only with the handle set. *)
Lemma connect_spec n w :
  exists o w' k,
    Neo4jQueryTool.connect n w = (o, w') /\ k <= n /\
    faults w' = drop k (faults w) /\ graph w' = graph w /\
    (o = Ret true -> driver w' = true) /\
    (forall e, o <> Raise (Exception e)) /\
    (calm w -> exists b, o = Ret b).
Proof.
  revert w. induction n as [|n IH]; intros w.
  { exists (Ret false), w, 0. repeat split; try done. by exists false. }
  destruct (faults w) as [|[[e|]|] fs] eqn:Hf.
  - rewrite (connect_attempt_idle n w Hf). exists (Ret true), (set_driver true w), 0.
    repeat split; try done; [lia|by exists true].
  - rewrite (connect_attempt_fault n e fs w Hf).
    destruct (IH (set_faults fs (set_driver true w)))
      as (o & w' & k & E & Hk & Hd & Hg & Ht & He & Hc).
    exists o, w', (S k). rewrite E. repeat split; try done; [lia|].
    intros Hw. apply Hc. unfold calm in *. rewrite Hf in Hw.
    by apply Forall_cons in Hw as [_ Hw].
  - rewrite (connect_attempt_interrupt n fs w Hf).
    eexists _, _, 1. repeat split; try done; [lia|].
    intros Hw. unfold calm in Hw. rewrite Hf in Hw.
    by apply Forall_cons in Hw as [Hw _].
  - rewrite (connect_attempt_quiet n fs w Hf).
    eexists _, _, 1. repeat split; try done; [lia|by exists true].
Qed.

End QueryTool.

Section Attempts.
Variable answer : string -> Graph -> list Neo4jQueryTool.Row * Graph.
Variables (q : string) (n : nat).

Lemma session_run_idle w :
  driver w = true -> faults w = [] ->
  Neo4jQueryTool.session_run answer q w =
  (Ret (answer q (graph w)).1, set_graph (answer q (graph w)).2 w).
Proof.
  intros Hd Hf. unfold Neo4jQueryTool.session_run, Neo4jDatabase.session, with_handle.
  rewrite Hd. unfold bind, next_event. rewrite Hf.
  by destruct (answer q (graph w)).
Qed.

(** One turn of the loop, by what the statement meets. *)
Lemma attempts_idle rem att w :
  driver w = true -> faults w = [] ->
  Neo4jQueryTool.attempts answer q n (S rem) att w =
  (Ret (Neo4jQueryTool.mkResult true (Some q) None (answer q (graph w)).1),
   set_graph (answer q (graph w)).2 w).
Proof.
  intros Hd Hf. cbn [Neo4jQueryTool.attempts].
  unfold bind at 1, try_except, bind at 1.
  by rewrite (session_run_idle w Hd Hf).
Qed.

Lemma attempts_quiet rem att fs w :
  driver w = true -> faults w = None :: fs ->
  Neo4jQueryTool.attempts answer q n (S rem) att w =
  (Ret (Neo4jQueryTool.mkResult true (Some q) None (answer q (graph w)).1),
   set_graph (answer q (graph w)).2 (set_faults fs w)).
Proof.
  intros Hd Hf. cbn [Neo4jQueryTool.attempts].
  unfold bind at 1, try_except, bind at 1.
  by rewrite (session_run_quiet answer q fs w Hd Hf).
Qed.

Lemma attempts_interrupt rem att fs w :
  driver w = true -> faults w = Some KeyboardInterrupt :: fs ->
  Neo4jQueryTool.attempts answer q n (S rem) att w =
  (Raise KeyboardInterrupt, set_faults fs w).
Proof.
  intros Hd Hf. cbn [Neo4jQueryTool.attempts].
  unfold bind at 1, try_except, bind at 1.
  by rewrite (session_run_fault answer q _ fs w Hd Hf).
Qed.

Lemma attempts_fault rem att e fs w :
  driver w = true -> faults w = Some (Exception e) :: fs ->
  Neo4jQueryTool.attempts answer q n (S rem) att w =
  if Neo4jQueryTool.connection_related e && (att <? n - 1)%nat then
    match Neo4jQueryTool.connect 3 (set_faults fs w) with
    | (Ret true, w1) => Neo4jQueryTool.attempts answer q n rem (S att) w1
    | (Ret false, w1) => (Ret (Neo4jQueryTool.failed q e), w1)
    | (Raise x, w1) => (Raise x, w1)
    end
  else (Ret (Neo4jQueryTool.failed q e), set_faults fs w).
Proof.
  intros Hd Hf. cbn [Neo4jQueryTool.attempts].
  unfold bind at 1, try_except, bind at 1.
  rewrite (session_run_fault answer q _ fs w Hd Hf).
  unfold bind at 1.
  destruct (Neo4jQueryTool.connection_related e); [|done].
  destruct (att <? n - 1)%nat; [|done]. cbn [andb].
  by destruct (Neo4jQueryTool.connect 3 (set_faults fs w)) as [[[|]|x] w1].
Qed.

Lemma drop_tail_drop {A} k (l : list A) x fs :
  l = x :: fs -> drop k fs = drop (S k) l.
Proof. by intros ->. Qed.

Lemma attempts_spec rem att w :
  driver w = true ->
  exists o w' k,
    Neo4jQueryTool.attempts answer q n rem att w = (o, w') /\ k <= 4 * rem /\
    faults w' = drop k (faults w) /\
    (forall e, o <> Raise (Exception e)) /\
    (calm w -> exists r, o = Ret r) /\
    (forall r, att + rem = n -> 0 < rem -> o = Ret r ->
       Neo4jQueryTool.success r = true \/
       exists e, r = Neo4jQueryTool.failed q e /\ Some (Exception e) ∈ faults w).
Proof.
  revert att w. induction rem as [|rem IH]; intros att w Hd.
  { eexists _, w, 0. repeat split; try done; [by eexists|lia]. }
  destruct (faults w) as [|[[e|]|] fs] eqn:Hf.
  - rewrite (attempts_idle rem att w Hd Hf). eexists _, _, 0.
    repeat split; try done; [lia|by eexists|]. intros r _ _ [= <-]. by left.
  - rewrite (attempts_fault rem att e fs w Hd Hf).
    destruct (Neo4jQueryTool.connection_related e && (att <? n - 1)%nat) eqn:Hgo.
    2:{ eexists _, _, 1. repeat split; try done; [lia|by eexists|].
        intros r _ _ [= <-]. right. exists e. split; [done|left]. }
    apply andb_true_iff in Hgo as [_ Hatt%Nat.ltb_lt].
    destruct (connect_spec 3 (set_faults fs w))
      as (o & w1 & k & E & Hk & Hd1 & _ & Ht & He & Hc).
    rewrite E. cbn [faults set_faults] in Hd1.
    assert (calm w -> calm (set_faults fs w)) as Hcalm.
    { unfold calm. cbn [faults set_faults]. rewrite Hf.
      intros Hw. by apply Forall_cons in Hw as [_ Hw]. }
    destruct o as [[|]|x].
    + destruct (IH (S att) w1 (Ht eq_refl)) as (o & w2 & j & E2 & Hj & Hd2 & He2 & Hc2 & Hr).
      exists o, w2, (S (k + j)). rewrite E2. split; [done|]. split; [lia|].
      split; [by rewrite Hd2, Hd1, drop_drop|]. split; [done|]. split.
      * intros Hw. apply Hc2. eapply calm_drop; [|apply Hcalm, Hw]. exact Hd1.
      * intros r Hn Hrem Ho. destruct (Hr r) as [?|(e' & -> & Hin)]; [lia|lia|done|by left|].
        right. exists e'. split; [done|]. right.
        rewrite Hd1 in Hin. eapply subseteq_drop, Hin.
    + exists (Ret (Neo4jQueryTool.failed q e)), w1, (S k).
      split; [done|]. split; [lia|]. split; [done|]. split; [done|]. split; [by eexists|].
      intros r _ _ [= <-]. right. exists e. split; [done|left].
    + exists (Raise x), w1, (S k).
      split; [done|]. split; [lia|]. split; [done|]. split; [intros e' [= ->]; by apply (He e')|]. split.
      * intros Hw. destruct (Hc (Hcalm Hw)) as [b Hb]. discriminate.
      * by intros.
  - rewrite (attempts_interrupt rem att fs w Hd Hf). eexists _, _, 1.
    repeat split; try done; [lia|]. intros Hw. unfold calm in Hw. rewrite Hf in Hw.
    by apply Forall_cons in Hw as [Hw _].
  - rewrite (attempts_quiet rem att fs w Hd Hf). eexists _, _, 1.
    repeat split; try done; [lia|by eexists|]. intros r _ _ [= <-]. by left.
Qed.

End Attempts.

(** X1. [execute_query] is bounded and total: whatever the driver does,
    it sends at most [4 * max_retries] statements (each attempt, and up
    to three connection tests after it), lets no [Exception] out, and
    hands back a result dictionary whenever it is not interrupted. *)
Theorem execute_query_bounded
        (answer : string -> Graph -> list Neo4jQueryTool.Row * Graph)
        (cypher_query : string) (max_retries : nat) (w : World) :
  exists o w' k,
    Neo4jQueryTool.execute_query answer cypher_query max_retries w = (o, w') /\
    k <= 4 * max_retries /\
    faults w' = drop k (faults w) /\
    (forall e, o <> Raise (Exception e)) /\
    (calm w -> exists r, o = Ret r).
Proof.
  unfold Neo4jQueryTool.execute_query. destruct (driver w) eqn:Hd.
  - destruct (attempts_spec answer cypher_query max_retries max_retries 0 w Hd)
      as (o & w' & k & E & Hk & Hf & He & Hc & _).
    by exists o, w', k.
  - eexists _, w, 0. repeat split; try done; [lia|by eexists].
Qed.

(** X2. With [max_retries >= 1] the closing "Query execution failed
    after all retry attempts" result is never produced: a result that
    is not a success carries the text of an error the driver raised. *)
Theorem execute_query_reports_driver_error
        (answer : string -> Graph -> list Neo4jQueryTool.Row * Graph)
        (cypher_query : string) (max_retries : nat) (w w' : World)
        (r : Neo4jQueryTool.QueryResult) :
  0 < max_retries -> driver w = true ->
  Neo4jQueryTool.execute_query answer cypher_query max_retries w = (Ret r, w') ->
  Neo4jQueryTool.success r = true \/
  exists e, r = Neo4jQueryTool.failed cypher_query e /\ Some (Exception e) ∈ faults w.
Proof.
  intros Hn Hd. unfold Neo4jQueryTool.execute_query. rewrite Hd.
  destruct (attempts_spec answer cypher_query max_retries max_retries 0 w Hd)
    as (o & w1 & k & E & _ & _ & _ & _ & Hr).
  rewrite E. intros [= -> ->]. by apply Hr.
Qed.

Lemma execute_query_reports_driver_error_witness :
  let answer := fun (_ : string) (g : Graph) => ([] : list Neo4jQueryTool.Row, g) in
  let w := set_faults [Some (Exception "Connection refused"); Some (Exception "down");
                       None; Some (Exception "syntax error")] Sample.connected in
  exists r w',
    Neo4jQueryTool.execute_query answer "MATCH (n) RETURN n" 2 w = (Ret r, w') /\
    (Neo4jQueryTool.success r = true \/
     exists e, r = Neo4jQueryTool.failed "MATCH (n) RETURN n" e /\
               Some (Exception e) ∈ faults w).
Proof.
  intros answer w.
  assert (exists r w', Neo4jQueryTool.execute_query answer "MATCH (n) RETURN n" 2 w
                       = (Ret r, w')) as (r & w' & E).
  { eexists _, _. vm_compute. reflexivity. }
  exists r, w'. split; [exact E|].
  apply (execute_query_reports_driver_error answer "MATCH (n) RETURN n" 2 w w' r);
    [lia|reflexivity|exact E].
Defined.




(** X4. A connection-related error before the last attempt is answered
    by a reconnection and one more attempt: when the connection test and
    the repeated statement go through, the call succeeds with the rows
    of the statement. *)
Theorem execute_query_reconnects_and_retries
        (answer : string -> Graph -> list Neo4jQueryTool.Row * Graph)
        (cypher_query : string) (max_retries : nat) (e : string)
        (fs : list (option exn)) (w : World) :
  driver w = true -> 2 <= max_retries ->
  Neo4jQueryTool.connection_related e = true ->
  faults w = Some (Exception e) :: None :: None :: fs ->
  exists w',
    Neo4jQueryTool.execute_query answer cypher_query max_retries w =
    (Ret (Neo4jQueryTool.mkResult true (Some cypher_query) None
            (answer cypher_query (graph w)).1), w') /\
    graph w' = (answer cypher_query (graph w)).2 /\ faults w' = fs.
Proof.
  intros Hd Hn He Hf. unfold Neo4jQueryTool.execute_query. rewrite Hd.
  destruct max_retries as [|[|n]]; [lia|lia|].
  rewrite (attempts_fault answer cypher_query (S (S n)) (S n) 0 e _ w Hd Hf), He.
  cbn [andb Nat.ltb Nat.leb Nat.sub].
  rewrite (connect_attempt_quiet 2 (None :: fs) (set_faults (None :: None :: fs) w))
    by reflexivity.
  rewrite (attempts_quiet answer cypher_query (S (S n)) n 1 fs) by reflexivity.
  eexists. split; [reflexivity|]. by split.
Qed.

Lemma execute_query_reconnects_and_retries_witness :
  let answer := fun (_ : string) (g : Graph) => ([] : list Neo4jQueryTool.Row, g) in
  let w := set_faults [Some (Exception "Connection reset by peer"); None; None]
                      Sample.connected in
  exists w',
    Neo4jQueryTool.execute_query answer "MATCH (n) RETURN n" 2 w =
    (Ret (Neo4jQueryTool.mkResult true (Some "MATCH (n) RETURN n") None []), w') /\
    faults w' = [].
Proof.
  intros answer w.
  destruct (execute_query_reconnects_and_retries answer "MATCH (n) RETURN n" 2
              "Connection reset by peer" [] w) as (w' & E & _ & Hf);
    [reflexivity|lia|vm_compute; reflexivity|reflexivity|].
  exists w'. split; [exact E|exact Hf].
Defined.

(** X5. [Neo4jQueryTool.connect] tries until the connection test goes
    through: after [max_retries] failed tests it gives up with [False];
    a test that goes through before that ends it with [True] and the
    handle set.  The store is not touched either way. *)
Theorem connect_tries_until_success (max_retries : nat) (msgs : list string)
        (fs : list (option exn)) (w : World) :
  faults w = (map (fun m => Some (Exception m)) msgs ++ fs)%list ->
  (length msgs = max_retries ->
   exists w', Neo4jQueryTool.connect max_retries w = (Ret false, w') /\
              faults w' = fs /\ graph w' = graph w) /\
  (length msgs < max_retries -> fs = [] \/ (exists fs', fs = None :: fs') ->
   exists w', Neo4jQueryTool.connect max_retries w = (Ret true, w') /\
              driver w' = true /\ faults w' = tail fs /\ graph w' = graph w).
Proof.
  revert max_retries w. induction msgs as [|m msgs IH]; intros n w Hf.
  - simpl in Hf. split.
    + intros <-. by exists w.
    + intros Hn Hfs. destruct n as [|n]; [simpl in Hn; lia|].
      destruct Hfs as [->|[fs' ->]].
      * rewrite (connect_attempt_idle n w Hf). by eexists.
      * rewrite (connect_attempt_quiet n fs' w Hf). by eexists.
  - simpl in Hf. split.
    + intros <-. cbn [length]. rewrite (connect_attempt_fault _ m _ w Hf).
      destruct (IH (length msgs) (set_faults _ (set_driver true w)) eq_refl) as [H _].
      destruct (H eq_refl) as (w' & E & H1 & H2). by exists w'.
    + intros Hn Hfs. destruct n as [|n]; [simpl in Hn; lia|].
      rewrite (connect_attempt_fault _ m _ w Hf).
      destruct (IH n (set_faults _ (set_driver true w)) eq_refl) as [_ H].
      destruct H as (w' & E & H1 & H2 & H3); [simpl in Hn; lia|done|].
      by exists w'.
Qed.

Lemma connect_tries_until_success_witness :
  let w := set_faults [Some (Exception "refused"); Some (Exception "refused"); None]
                      Sample.fresh in
  exists w', Neo4jQueryTool.connect 3 w = (Ret true, w') /\ driver w' = true.
Proof.
  intros w.
  destruct (connect_tries_until_success 3 ["refused"; "refused"] [None] w eq_refl)
    as [_ H].
  destruct H as (w' & E & Hd & _); [simpl; lia|right; by exists []|].
  exists w'. split; [exact E|exact Hd].
Defined.

(** * The batch driver *)

Lemma returns_read {A} (f : World -> A) : returns (fun w => (Ret (f w), w)).
Proof. intros w Hw. by eexists _, _. Qed.

Lemma contained_read_count c : contained (Neo4jDatabase.read_count c).
Proof.
  unfold Neo4jDatabase.read_count, Neo4jDatabase.session_run.
  apply contained_bind; [apply contained_run_statement|].
  intros _. apply returns_contained, returns_read.
Qed.

Lemma returns_neo4j_connect uri : returns (Neo4jDatabase.connect uri).
Proof.
  unfold Neo4jDatabase.connect, Neo4jDatabase.session, Neo4jDatabase.session_run. steps.
Qed.

Lemma returns_neo4j_clear : returns Neo4jDatabase.clear_database.
Proof.
  unfold Neo4jDatabase.clear_database, Neo4jDatabase.session, Neo4jDatabase.session_run. steps.
Qed.

Lemma returns_neo4j_close : returns Neo4jDatabase.close.
Proof.
  intros w Hw. unfold Neo4jDatabase.close. destruct (driver w); by eexists _, _.
Qed.

Lemma returns_get_stats : returns Neo4jDatabase.get_stats.
Proof.
  unfold Neo4jDatabase.get_stats, Neo4jDatabase.session.
  apply returns_try; [|steps]. apply contained_with_handle.
  apply contained_bind; [apply contained_read_count|]. intros n.
  apply contained_bind; [apply contained_read_count|]. intros k.
  apply returns_contained, returns_bind; [|steps].
  apply returns_try_all; [|steps].
  apply contained_bind; [apply contained_read_count|]. intros ec.
  apply returns_contained, returns_try_all; [|steps].
  apply contained_bind; [apply contained_read_count|]. steps.
Qed.

Lemma returns_distribution what : returns (Statistics.distribution what).
Proof.
  unfold Statistics.distribution, Neo4jDatabase.session, Neo4jDatabase.session_run. steps.
Qed.

Lemma returns_get_conversion_statistics : returns Statistics.get_conversion_statistics.
Proof.
  unfold Statistics.get_conversion_statistics.
  apply returns_try; [|steps]. apply returns_contained.
  apply returns_bind; [apply returns_get_stats|]. intros st.
  apply returns_bind; [apply returns_distribution|]. intros _.
  apply returns_bind; [apply returns_distribution|]. steps.
Qed.

Lemma returns_parse_file f : returns (IFCParser.parse_file f).
Proof. unfold IFCParser.parse_file. steps. Qed.

Lemma returns_extract_elements m : returns (IFCParser.extract_elements m).
Proof.
  unfold IFCParser.extract_elements.
  apply returns_bind; [apply returns_extract_loop|]. steps.
Qed.

Lemma returns_extract_relationships m : returns (IFCParser.extract_relationships m).
Proof.
  unfold IFCParser.extract_relationships.
  apply returns_bind; [apply returns_extract_loop|]. steps.
Qed.

Lemma returns_validate_conversion f : returns (Statistics.validate_conversion f).
Proof.
  unfold Statistics.validate_conversion.
  apply returns_try; [|steps]. apply returns_contained.
  apply returns_bind; [apply returns_logger|]. intros _.
  apply returns_bind; [apply returns_parse_file|]. intros [m|]; [|apply returns_ret].
  apply returns_bind; [apply returns_extract_elements|]. intros _.
  apply returns_bind; [apply returns_extract_relationships|]. intros _.
  apply returns_bind; [apply returns_get_stats|]. intros _.
  apply returns_bind; [apply returns_distribution|]. intros _.
  apply returns_bind; [apply returns_distribution|]. steps.
Qed.

Lemma returns_each_file body handler files acc :
  (forall f r, returns (body f r)) -> (forall e, returns (handler e)) ->
  returns (each_file body handler files acc).
Proof.
  intros Hb Hh. revert acc. induction files as [|f files IH]; intros acc; simpl.
  - apply returns_ret.
  - apply returns_bind.
    + apply returns_try.
      * apply returns_contained, returns_bind; [apply Hb|]. steps.
      * intros e. apply returns_bind; [apply Hh|]. steps.
    + intros [r|r]; [apply IH|apply returns_ret].
Qed.

Lemma returns_convert_directory dir : returns (IFCToGraphConverter.convert_directory dir).
Proof.
  unfold IFCToGraphConverter.convert_directory.
  destruct (negb (nonempty (glob dir))); [steps|].
  apply returns_bind; [apply returns_logger|]. intros _.
  apply returns_bind; [|steps].
  apply returns_each_file; [|steps]. intros f r.
  apply returns_try; [|steps]. apply returns_contained.
  apply returns_bind; [apply (returns_convert_file neo4j neo4j_returns)|]. steps.
Qed.

Lemma success_count_le results : success_count results <= length results.
Proof.
  unfold success_count, Py.values.
  etransitivity; [apply filter_length_le|]. by rewrite length_map.
Qed.

Lemma exit_status_spec results w :
  exists w', import_ifc.exit_status results w =
             (Ret (if (0 <? success_count results)%nat then 0 else 1)%Z, w') /\
             graph w' = graph w /\ faults w' = faults w.
Proof.
  unfold import_ifc.exit_status. pose proof (success_count_le results) as Hle.
  destruct (Nat.eqb_spec (success_count results) (length results)) as [E|E].
  - destruct (0 <? length results)%nat eqn:H0; cbn [andb].
    + rewrite bind_logger. rewrite E, H0. by eexists.
    + apply Nat.ltb_ge in H0. assert (success_count results = 0) as -> by lia.
      cbn. by eexists.
  - cbn [andb]. destruct (0 <? success_count results)%nat; rewrite bind_logger; by eexists.
Qed.

(** [main] up to the connection: the opening log lines, the environment,
    the directory and its files. *)
Lemma main_body_setup args environ w :
  exists w0 env_config,
    moves w w0 (graph w) /\
    (forall entry, entry ∈ log w -> entry ∈ log w0) /\
    import_ifc.uri env_config = default "" (environ !! "NEO4J_URI") /\
    import_ifc.main_body args environ w =
    if nonempty (import_ifc.missing_vars environ) then
      (Ret 1%Z,
       add_log ERROR ("Environment variable loading failed: "
                      ++ "Required environment variables not set: "
                      ++ Py.join ", " (import_ifc.missing_vars environ)) w0)
    else
      let w1 := add_log INFO "Environment variables loaded successfully" w0 in
      if negb (dir_exists (import_ifc.input_dir args)) then
        (Ret 1%Z, add_log ERROR ("Input directory does not exist: "
                                 ++ dir_str (import_ifc.input_dir args)) w1)
      else
        let w2 := add_log INFO ("Input directory: "
                                ++ dir_str (import_ifc.input_dir args)) w1 in
        if negb (nonempty (glob (import_ifc.input_dir args))) then
          (Ret 0%Z, add_log WARNING ("No IFC files found: "
                                     ++ dir_str (import_ifc.input_dir args)) w2)
        else import_ifc.run_conversion args env_config w2.
Proof.
  set (env_config := import_ifc.mkConfig
                (default "" (import_ifc.getenv environ "NEO4J_URI"))
                (default "" (import_ifc.getenv environ "NEO4J_USER"))
                (default "" (import_ifc.getenv environ "NEO4J_PASSWORD"))
                (default "" (import_ifc.getenv environ "NEO4J_DATABASE"))).
  unfold import_ifc.main_body, import_ifc.load_environment.
  fold env_config.
  destruct (import_ifc.no_log_file args).
  - exists (add_log INFO ("Log level: " ++ import_ifc.log_level args)
              (add_log INFO "IFC to Neo4j converter starting" w)), env_config.
    split; [done|]. split.
    { intros entry Hin. cbn. rewrite !elem_of_app. auto. }
    split; [done|].
    destruct (nonempty (import_ifc.missing_vars environ)); [reflexivity|].
    destruct (dir_exists (import_ifc.input_dir args)); [|reflexivity].
    destruct (nonempty (glob (import_ifc.input_dir args))); reflexivity.
  - exists (add_log INFO ("Log file: logs/ifc_import_" ++ pretty (clock w) ++ ".log")
              (add_log INFO ("Log level: " ++ import_ifc.log_level args)
                 (add_log INFO "IFC to Neo4j converter starting"
                    (set_clock (clock w + 1) w)))), env_config.
    split; [done|]. split.
    { intros entry Hin. cbn. rewrite !elem_of_app. auto. }
    split; [done|].
    destruct (nonempty (import_ifc.missing_vars environ)); [reflexivity|].
    destruct (dir_exists (import_ifc.input_dir args)); [|reflexivity].
    destruct (nonempty (glob (import_ifc.input_dir args))); reflexivity.
Qed.

Lemma missing_var_found environ var :
  var ∈ import_ifc.required_vars ->
  environ !! var = None \/ environ !! var = Some "" ->
  var ∈ import_ifc.missing_vars environ.
Proof.
  intros Hin Hvar. unfold import_ifc.missing_vars.
  rewrite list_elem_of_In, filter_In, <- list_elem_of_In. split; [done|].
  unfold import_ifc.getenv. by destruct Hvar as [-> | ->].
Qed.

Lemma nonempty_elem_of {A} (x : A) l : x ∈ l -> nonempty l = true.
Proof. destruct l; [by intros ?%elem_of_nil|done]. Qed.

Lemma main_code args environ w code w' :
  import_ifc.main_body args environ w = (Ret code, w') ->
  import_ifc.main args environ w = (code, w').
Proof. unfold import_ifc.main. by intros ->. Qed.

(** X6. A setup error ends [main] with exit code 1 before the database
    is approached: when one of the four required variables is unset or
    empty, or the input directory does not exist, nothing is sent, the
    connection is not opened and the store is as it was. *)
Theorem main_setup_error_exits_1 (args : import_ifc.Args) (environ : gmap string string)
        (w : World) :
  (exists var, var ∈ import_ifc.required_vars /\
               (environ !! var = None \/ environ !! var = Some "")) \/
  dir_exists (import_ifc.input_dir args) = false ->
  (import_ifc.main args environ w).1 = 1%Z /\
  moves w (import_ifc.main args environ w).2 (graph w).
Proof.
  intros Hcase.
  destruct (main_body_setup args environ w) as (w0 & cfg & Hm & _ & _ & E).
  destruct (nonempty (import_ifc.missing_vars environ)) eqn:Hmiss.
  { rewrite (main_code _ _ _ _ _ E). split; [done|]. by apply moves_log. }
  destruct Hcase as [(var & Hin & Hvar)|Hdir].
  { apply (missing_var_found environ) in Hvar; [|done].
    apply nonempty_elem_of in Hvar. congruence. }
  rewrite Hdir in E. cbn [negb] in E. cbn zeta in E.
  rewrite (main_code _ _ _ _ _ E). split; [done|]. by apply moves_log, moves_log.
Qed.

Lemma main_setup_error_exits_1_witness :
  let args := import_ifc.mkArgs (mkDirectory "input" true [Sample.duplex])
                                false false "INFO" true false false in
  let environ : gmap string string :=
    {[ "NEO4J_URI" := "bolt://localhost:7687"; "NEO4J_USER" := "neo4j";
       "NEO4J_PASSWORD" := ""; "NEO4J_DATABASE" := "elements" ]} in
  (import_ifc.main args environ Sample.fresh).1 = 1%Z.
Proof.
  intros args environ.
  apply (main_setup_error_exits_1 args environ Sample.fresh).
  left. exists "NEO4J_PASSWORD". split.
  - unfold import_ifc.required_vars. set_solver.
  - right. vm_compute. reflexivity.
Defined.

(** X7. A directory without IFC files is no error: with the environment
    complete and the directory there, [main] logs the warning and exits
    with code 0 without opening the connection. *)
Theorem main_no_files_exits_0 (args : import_ifc.Args) (environ : gmap string string)
        (w : World) :
  import_ifc.missing_vars environ = [] ->
  dir_exists (import_ifc.input_dir args) = true ->
  glob (import_ifc.input_dir args) = [] ->
  (import_ifc.main args environ w).1 = 0%Z /\
  moves w (import_ifc.main args environ w).2 (graph w) /\
  (WARNING, "No IFC files found: " ++ dir_str (import_ifc.input_dir args))
    ∈ log (import_ifc.main args environ w).2.
Proof.
  intros Hmiss Hdir Hglob.
  destruct (main_body_setup args environ w) as (w0 & cfg & Hm & _ & _ & E).
  rewrite Hmiss, Hdir, Hglob in E. cbn [nonempty negb] in E. cbn zeta in E.
  rewrite (main_code _ _ _ _ _ E). split; [done|]. split.
  - by apply moves_log, moves_log, moves_log.
  - cbn. rewrite elem_of_app. right. left.
Qed.

Lemma main_no_files_exits_0_witness :
  let args := import_ifc.mkArgs (mkDirectory "input" true [])
                                false false "INFO" true false false in
  let environ : gmap string string :=
    {[ "NEO4J_URI" := "bolt://localhost:7687"; "NEO4J_USER" := "neo4j";
       "NEO4J_PASSWORD" := "secret"; "NEO4J_DATABASE" := "elements" ]} in
  (import_ifc.main args environ Sample.fresh).1 = 0%Z.
Proof.
  intros args environ.
  apply (main_no_files_exits_0 args environ Sample.fresh); [|reflexivity|reflexivity].
  vm_compute. reflexivity.
Defined.

Lemma neo4j_connect_fault uri e fs w :
  faults w = Some (Exception e) :: fs ->
  Neo4jDatabase.connect uri w =
  (Ret false, add_log ERROR ("Neo4j database connection failed: " ++ e)
                (set_faults fs (set_driver true w))).
Proof.
  intros Hf. unfold Neo4jDatabase.connect, try_except, bind at 1, bind at 1.
  unfold Neo4jDatabase.session, with_handle. cbn [driver set_driver].
  unfold Neo4jDatabase.session_run, run_statement, bind at 1.
  by rewrite (next_event_fault (Exception e) fs (set_driver true w)).
Qed.

Lemma neo4j_connect_quiet uri w :
  faults w = [] \/ (exists fs, faults w = None :: fs) ->
  exists w', Neo4jDatabase.connect uri w = (Ret true, w') /\
             graph w' = graph w /\ faults w' = tail (faults w) /\
             stdin w' = stdin w /\ driver w' = true.
Proof.
  intros Hf. unfold Neo4jDatabase.connect, try_except, bind at 1, bind at 1.
  unfold Neo4jDatabase.session, with_handle. cbn [driver set_driver].
  unfold Neo4jDatabase.session_run, run_statement, bind at 1.
  destruct Hf as [Hf|[fs Hf]].
  - unfold next_event. cbn [faults set_driver]. rewrite Hf. cbn. by eexists.
  - rewrite (next_event_quiet fs (set_driver true w)) by done. cbn.
    eexists. split; [done|]. by rewrite Hf.
Qed.

(** X8. When the connection test raises, [main] exits with code 1
    after that one statement: the failure is logged, no file is
    converted and the store is as it was. *)
Theorem main_connection_failure_exits_1 (args : import_ifc.Args)
        (environ : gmap string string) (w : World) (e : string)
        (fs : list (option exn)) :
  import_ifc.missing_vars environ = [] ->
  dir_exists (import_ifc.input_dir args) = true ->
  glob (import_ifc.input_dir args) <> [] ->
  faults w = Some (Exception e) :: fs ->
  (import_ifc.main args environ w).1 = 1%Z /\
  graph (import_ifc.main args environ w).2 = graph w /\
  faults (import_ifc.main args environ w).2 = fs /\
  (ERROR, "Neo4j database connection failed") ∈ log (import_ifc.main args environ w).2.
Proof.
  intros Hmiss Hdir Hglob Hf.
  destruct (main_body_setup args environ w) as (w0 & cfg & Hm & _ & _ & E).
  rewrite Hmiss, Hdir in E. cbn [nonempty negb] in E. cbn zeta in E.
  destruct (glob (import_ifc.input_dir args)) as [|f0 files] eqn:Eg; [done|].
  cbn [nonempty negb] in E. clear Hglob.
  destruct Hm as (Hg & _ & Hf0 & _). rewrite Hf in Hf0.
  unfold import_ifc.run_conversion in E.
  match type of E with _ = bind _ _ ?w2 =>
    rewrite (bind_returns _ _ _ _ _ (neo4j_connect_fault (import_ifc.uri cfg) e fs w2 Hf0))
      in E
  end.
  cbn [negb] in E. rewrite bind_logger in E.
  rewrite (main_code _ _ _ _ _ E). cbn. split; [done|]. split; [done|]. split; [done|].
  rewrite elem_of_app. right. left.
Qed.

Lemma main_connection_failure_exits_1_witness :
  let args := import_ifc.mkArgs (mkDirectory "input" true [Sample.duplex])
                                false false "INFO" true false false in
  let environ : gmap string string :=
    {[ "NEO4J_URI" := "bolt://localhost:7687"; "NEO4J_USER" := "neo4j";
       "NEO4J_PASSWORD" := "secret"; "NEO4J_DATABASE" := "elements" ]} in
  let w := set_faults [Some (Exception "Connection refused")] Sample.fresh in
  (import_ifc.main args environ w).1 = 1%Z /\
  graph (import_ifc.main args environ w).2 = graph w.
Proof.
  intros args environ w.
  destruct (main_connection_failure_exits_1 args environ w "Connection refused" [])
    as (H1 & H2 & _); [vm_compute; reflexivity|reflexivity|discriminate|reflexivity|].
  split; [exact H1|exact H2].
Defined.

(** X9. The confirmation prompt of [--clear-db]: when the input ends
    in an interrupt before a valid answer, [main] exits with code 130,
    and when it ends altogether ([EOFError]) with code 1; either way
    nothing has been deleted or written. *)
Theorem main_prompt_aborted (args : import_ifc.Args) (environ : gmap string string)
        (w : World) (x : exn) :
  import_ifc.missing_vars environ = [] ->
  dir_exists (import_ifc.input_dir args) = true ->
  glob (import_ifc.input_dir args) <> [] ->
  import_ifc.clear_db args = true -> import_ifc.force_clear args = false ->
  faults w = [] \/ (exists fs, faults w = None :: fs) ->
  (import_ifc.read_answer (stdin w)).1 = Raise x ->
  (import_ifc.main args environ w).1 =
    match x with KeyboardInterrupt => 130%Z | Exception _ => 1%Z end /\
  graph (import_ifc.main args environ w).2 = graph w.
Proof.
  intros Hmiss Hdir Hglob Hclear Hforce Hf Hread.
  destruct (main_body_setup args environ w) as (w0 & cfg & Hm & _ & _ & E).
  rewrite Hmiss, Hdir in E. cbn [nonempty negb] in E. cbn zeta in E.
  destruct (glob (import_ifc.input_dir args)) as [|f0 files] eqn:Eg; [done|].
  cbn [nonempty negb] in E. clear Hglob.
  destruct Hm as (Hg & _ & Hf0 & Hin).
  match type of E with _ = import_ifc.run_conversion _ _ ?w2 =>
    destruct (neo4j_connect_quiet (import_ifc.uri cfg) w2) as (w3 & Ec & Hg3 & _ & Hin3 & _)
  end.
  { cbn [faults add_log]. by rewrite Hf0. }
  unfold import_ifc.run_conversion in E.
  rewrite (bind_returns _ _ _ _ _ Ec), Hclear, Hforce in E. cbn [negb] in E.
  cbn [graph stdin add_log] in Hg3, Hin3.
  assert (import_ifc.ask_user w3 = (Raise x, set_stdin (import_ifc.read_answer (stdin w)).2 w3))
    as Ea.
  { unfold import_ifc.ask_user. rewrite Hin3, Hin.
    destruct (import_ifc.read_answer (stdin w)) as [o rest]. simpl in Hread. by subst o. }
  assert (import_ifc.main_body args environ w =
          (Raise x, set_stdin (import_ifc.read_answer (stdin w)).2 w3)) as E'.
  { rewrite E. unfold bind at 1, bind at 1, bind at 1. by rewrite Ea. }
  unfold import_ifc.main. rewrite E'.
  destruct x as [msg|]; cbn; (split; [done|congruence]).
Qed.

Lemma main_prompt_aborted_witness :
  let args := import_ifc.mkArgs (mkDirectory "input" true [Sample.duplex])
                                true false "INFO" true false false in
  let environ : gmap string string :=
    {[ "NEO4J_URI" := "bolt://localhost:7687"; "NEO4J_USER" := "neo4j";
       "NEO4J_PASSWORD" := "secret"; "NEO4J_DATABASE" := "elements" ]} in
  let w := set_stdin [Some "maybe"; Some (String (Py.byte 28) "yess"); None]
                     Sample.fresh in
  (import_ifc.main args environ w).1 = 130%Z.
Proof.
  intros args environ w.
  apply (main_prompt_aborted args environ w KeyboardInterrupt);
    [vm_compute; reflexivity|reflexivity|discriminate|reflexivity|reflexivity
    |by left|vm_compute; reflexivity].
Defined.

(** X10. The exit code is read off the conversion results alone.
    Without an interrupt and without [--clear-db], [main] exits with 1
    when the connection fails and otherwise with 0 exactly when some
    file was converted: statistics, validation and closing the
    connection cannot change it. *)
Theorem main_exit_code_from_results (args : import_ifc.Args)
        (environ : gmap string string) (w : World) :
  calm w ->
  import_ifc.missing_vars environ = [] ->
  dir_exists (import_ifc.input_dir args) = true ->
  glob (import_ifc.input_dir args) <> [] ->
  import_ifc.clear_db args = false ->
  exists w2 env_config,
    moves w w2 (graph w) /\
    import_ifc.uri env_config = default "" (environ !! "NEO4J_URI") /\
    (import_ifc.main args environ w).1 =
    match Neo4jDatabase.connect (import_ifc.uri env_config) w2 with
    | (Ret true, w3) =>
        match IFCToGraphConverter.convert_directory (import_ifc.input_dir args) w3 with
        | (Ret results, _) => if (0 <? success_count results)%nat then 0%Z else 1%Z
        | (Raise _, _) => 1%Z
        end
    | _ => 1%Z
    end.
Proof.
  intros Hw Hmiss Hdir Hglob Hclear.
  destruct (main_body_setup args environ w) as (w0 & cfg & Hm & _ & Huri & E).
  rewrite Hmiss, Hdir in E. cbn [nonempty negb] in E. cbn zeta in E.
  destruct (glob (import_ifc.input_dir args)) as [|f0 files] eqn:Eg; [done|].
  cbn [nonempty negb] in E. clear Hglob.
  match type of E with _ = import_ifc.run_conversion _ _ ?w2 =>
    exists w2, cfg; set (w2' := w2) in *
  end.
  split; [by apply moves_log, moves_log|]. split; [done|].
  assert (calm w2') as Hw2 by (eapply moves_calm; [exact Hm|done]).
  destruct (returns_neo4j_connect (import_ifc.uri cfg) w2' Hw2) as (b & w3 & Ec & Hw3).
  rewrite Ec. unfold import_ifc.run_conversion in E.
  rewrite (bind_returns _ _ _ _ _ Ec) in E. destruct b; cbn [negb] in E.
  2:{ rewrite bind_logger in E. by rewrite (main_code _ _ _ _ _ E). }
  rewrite Hclear in E. unfold bind at 1, ret at 1 in E.
  destruct (returns_convert_directory (import_ifc.input_dir args) w3 Hw3)
    as (results & w4 & Ed & Hw4).
  rewrite Ed. rewrite (bind_returns _ _ _ _ _ Ed) in E.
  assert (exists w5, calm w5 /\
            import_ifc.main_body args environ w =
            (_ <- Neo4jDatabase.close ;; import_ifc.exit_status results) w5)
    as (w5 & Hw5 & E5).
  { assert (exists w4', calm w4' /\
              import_ifc.main_body args environ w =
              (_ <- (if import_ifc.validate args && nonempty results
                     then match glob (import_ifc.input_dir args) with
                          | first :: _ => Statistics.validate_conversion first
                          | [] => ret tt
                          end
                     else ret tt) ;;
               _ <- Neo4jDatabase.close ;; import_ifc.exit_status results) w4')
      as (w4' & Hw4' & E4).
    { destruct (import_ifc.stats args).
      - destruct (returns_get_conversion_statistics w4 Hw4) as (s & w4' & Es & Hw4').
        exists w4'. split; [done|]. rewrite E. unfold bind at 1, bind at 1.
        by rewrite Es.
      - by exists w4. }
    rewrite E4. destruct (import_ifc.validate args && nonempty results).
    - rewrite Eg.
      destruct (returns_validate_conversion f0 w4' Hw4') as ([] & w5 & Ev & Hw5).
      exists w5. split; [done|]. unfold bind at 1. by rewrite Ev.
    - by exists w4'. }
  destruct (returns_neo4j_close w5 Hw5) as ([] & w6 & E6 & _).
  rewrite (bind_returns _ _ _ _ _ E6) in E5.
  destruct (exit_status_spec results w6) as (w7 & E7 & _).
  rewrite E7 in E5. by rewrite (main_code _ _ _ _ _ E5).
Qed.

Lemma main_exit_code_from_results_witness :
  let args := import_ifc.mkArgs (mkDirectory "input" true [Sample.broken])
                                false false "INFO" true true true in
  let environ : gmap string string :=
    {[ "NEO4J_URI" := "bolt://localhost:7687"; "NEO4J_USER" := "neo4j";
       "NEO4J_PASSWORD" := "secret"; "NEO4J_DATABASE" := "elements" ]} in
  exists w2 env_config,
    (import_ifc.main args environ Sample.fresh).1 =
    match Neo4jDatabase.connect (import_ifc.uri env_config) w2 with
    | (Ret true, w3) =>
        match IFCToGraphConverter.convert_directory (import_ifc.input_dir args) w3 with
        | (Ret results, _) => if (0 <? success_count results)%nat then 0%Z else 1%Z
        | (Raise _, _) => 1%Z
        end
    | _ => 1%Z
    end.
Proof.
  intros args environ.
  destruct (main_exit_code_from_results args environ Sample.fresh)
    as (w2 & cfg & _ & _ & E);
    [apply List.Forall_nil|vm_compute; reflexivity|reflexivity|discriminate|reflexivity|].
  exists w2, cfg. exact E.
Defined.

(** What [str.strip()] takes for blank goes beyond the space and the
    tab: a line that opens with a file separator is read as its answer. *)
Lemma read_answer_strips_separators (rest : list (option string)) :
  import_ifc.read_answer (Some (String (Py.byte 28) "yes" ++ Py.utf8 160) :: rest)
  = (Ret true, rest).
Proof. reflexivity. Qed.

(** X11. The confirmation loop asks again until it reads a valid
    answer: lines that are none of yes, y, no, n (case and surrounding
    blanks aside) are skipped, and the first valid line decides. *)
Theorem read_answer_waits_for_valid (junk : list string) (line : string)
        (rest : list (option string)) :
  Forall (fun l => let r := Py.strip (Py.lower l) in
                   r <> "yes" /\ r <> "y" /\ r <> "no" /\ r <> "n") junk ->
  let response := Py.strip (Py.lower line) in
  (response = "yes" \/ response = "y" ->
   import_ifc.read_answer (map Some junk ++ Some line :: rest)%list = (Ret true, rest)) /\
  (response = "no" \/ response = "n" ->
   import_ifc.read_answer (map Some junk ++ Some line :: rest)%list = (Ret false, rest)).
Proof.
  intros Hjunk response. induction Hjunk as [|l junk (H1 & H2 & H3 & H4) _ IH].
  - cbn [map app import_ifc.read_answer]. fold response. split.
    + intros [-> | ->]; reflexivity.
    + intros [-> | ->]; reflexivity.
  - cbn [map app import_ifc.read_answer].
    apply String.eqb_neq in H1, H2, H3, H4. cbn zeta. by rewrite H1, H2, H3, H4.
Qed.

Lemma read_answer_waits_for_valid_witness :
  let blank := (String (Py.byte 28) " " ++ Py.utf8 160)%string in
  import_ifc.read_answer
    [Some "maybe"; Some ""; Some (blank ++ "YES" ++ Py.utf8 8195); Some "no"]
  = (Ret true, [Some "no"]).
Proof.
  intros blank.
  apply (read_answer_waits_for_valid ["maybe"; ""] (blank ++ "YES" ++ Py.utf8 8195)
           [Some "no"]).
  - repeat constructor; vm_compute; discriminate.
  - left. vm_compute. reflexivity.
Defined.

(** * The database classes *)

(** A statement sent through the handle, by what it meets. *)
Lemma handle_statement attr q w :
  Cypher.well_formed q = true ->
  with_handle attr (run_statement q) w =
  if driver w then
    match faults w with
    | [] => (Ret (Cypher.exec q (graph w)).1, set_graph (Cypher.exec q (graph w)).2 w)
    | None :: fs =>
        (Ret (Cypher.exec q (graph w)).1,
         set_graph (Cypher.exec q (graph w)).2 (set_faults fs w))
    | Some e :: fs => (Raise e, set_faults fs w)
    end
  else (Raise (Exception ("'NoneType' object has no attribute '" ++ attr ++ "'")), w).
Proof.
  intros Hq. unfold with_handle. destruct (driver w); [|done].
  unfold run_statement, bind, next_event. rewrite Hq.
  destruct (faults w) as [|[e|] fs]; [| |]; cbn [graph set_faults];
    by destruct (Cypher.exec q (graph w)).
Qed.

(** X12. [clear_database] is all or nothing, in both database classes:
    without an interrupt it returns [True] with the store emptied, or
    [False] with the store as it was; and it returns [True] exactly when
    the connection is open and the statement does not raise. *)
Theorem clear_database_all_or_nothing (w : World) :
  calm w ->
  (exists b w', Neo4jDatabase.clear_database w = (Ret b, w') /\
     graph w' = (if b then empty_graph else graph w) /\
     (b = true <-> driver w = true /\ forall e fs, faults w <> Some e :: fs)) /\
  (exists b w', FalkorDBDatabase.clear_database w = (Ret b, w') /\
     graph w' = (if b then empty_graph else graph w) /\
     (b = true <-> driver w = true /\ forall e fs, faults w <> Some e :: fs)).
Proof.
  intros Hw.
  assert (forall attr ok bad,
    exists b w',
      try_except
        (with_handle attr (run_statement Cypher.DetachDeleteAll) ;;
         logger INFO ok ;; ret true)
        (fun e => logger ERROR (bad ++ e) ;; ret false) w = (Ret b, w') /\
      graph w' = (if b then empty_graph else graph w) /\
      (b = true <-> driver w = true /\ forall e fs, faults w <> Some e :: fs)) as H.
  { intros attr ok bad. unfold try_except, bind at 1.
    rewrite handle_statement by done.
    destruct (driver w).
    - destruct (faults w) as [|[[msg|]|] fs] eqn:Hf.
      + exists true. eexists. split; [reflexivity|]. split; [done|]. split; [|done].
        intros _. split; [done|]. by intros e fs.
      + exists false. eexists. split; [reflexivity|]. split; [done|]. split; [done|].
        intros [_ H]. by destruct (H (Exception msg) fs).
      + unfold calm in Hw. rewrite Hf in Hw. by apply Forall_cons in Hw as [Hw _].
      + exists true. eexists. split; [reflexivity|]. split; [done|]. split; [|done].
        intros _. split; [done|]. by intros e fs'.
    - exists false. eexists. split; [reflexivity|]. split; [done|]. split; [done|].
      by intros [? _]. }
  split.
  - apply (H "session" "Database initialization completed" "Database initialization failed: ").
  - apply (H "query" "Database cleared successfully" "Database clear failed: ").
Qed.

Lemma clear_database_all_or_nothing_witness :
  let g := mkGraph [mkNode {[ "Element" ]} ∅; mkNode {[ "IFCFile" ]} ∅]
                   [mkEdge 0 1 "BELONGS_TO_FILE" ∅] in
  let w := set_graph g Sample.connected in
  let w_err := set_faults [Some (Exception "Connection refused")] w in
  (exists w', Neo4jDatabase.clear_database w = (Ret true, w') /\
              node_count (graph w) = 2 /\ graph w' = empty_graph) /\
  (exists w', Neo4jDatabase.clear_database w_err = (Ret false, w') /\ graph w' = g).
Proof.
  intros g w w_err. split.
  - destruct (clear_database_all_or_nothing w (List.Forall_nil _))
      as [(b & w' & E & Hg & Hb) _].
    assert (b = true) as ->.
    { apply Hb. split; [reflexivity|]. intros e fs. discriminate. }
    exists w'. split; [exact E|]. split; [reflexivity|exact Hg].
  - destruct (clear_database_all_or_nothing w_err) as [(b & w' & E & Hg & Hb) _].
    { repeat constructor. discriminate. }
    destruct b.
    + destruct Hb as [Hb _]. destruct (Hb eq_refl) as [_ Hno].
      destruct (Hno (Exception "Connection refused") [] eq_refl).
    + exists w'. split; [exact E|exact Hg].
Defined.

Lemma set_graph_same w : set_graph (graph w) w = w.
Proof. by destruct w. Qed.

Lemma read_count_quiet c w :
  faults w = [] -> Neo4jDatabase.read_count c w = (Ret (c (graph w)), w).
Proof.
  intros Hf. destruct w as [g d f t i l]. cbn in Hf. by subst f.
Qed.

Lemma read_count_next c o fs w :
  faults w = o :: fs ->
  Neo4jDatabase.read_count c w =
  match o with
  | None => (Ret (c (graph w)), set_faults fs w)
  | Some e => (Raise e, set_faults fs w)
  end.
Proof.
  intros Hf. destruct w as [g d f t i l]. cbn in Hf. subst f. by destruct o.
Qed.

(** X13. [get_stats] with a connection that does not fail reports the
    number of nodes, the number of relationships and the counts of the
    [Element] and [IFCFile] labels, leaving out a label without nodes,
    and changes nothing; before [connect] it reports zeros with an empty
    label table and logs the error. *)
Theorem get_stats_counts (w : World) :
  (driver w = true -> faults w = [] ->
   exists w', Neo4jDatabase.get_stats w =
              (Ret (mkStats (node_count (graph w)) (edge_count (graph w))
                            (label_counts_of (graph w))), w') /\
              graph w' = graph w /\ log w' = log w) /\
  (driver w = false ->
   exists w', Neo4jDatabase.get_stats w = (Ret (mkStats 0 0 []), w') /\
              graph w' = graph w /\
              exists msg,
                log w' = (log w ++ [(ERROR, ("Statistics query failed: " ++ msg)%string)])%list).
Proof.
  split.
  - intros Hd Hf. unfold Neo4jDatabase.get_stats, Neo4jDatabase.session, with_handle.
    unfold try_except at 1. rewrite Hd.
    rewrite (bind_returns _ _ _ _ _ (read_count_quiet _ w Hf)).
    rewrite (bind_returns _ _ _ _ _ (read_count_quiet _ w Hf)).
    unfold bind at 1, try_except_all at 1.
    rewrite (bind_returns _ _ _ _ _ (read_count_quiet _ w Hf)).
    unfold try_except_all.
    rewrite (bind_returns _ _ _ _ _ (read_count_quiet _ w Hf)).
    unfold label_counts_of.
    exists w. split; [|done]. unfold ret. repeat f_equal.
    destruct (0 <? count_label "Element" (graph w))%nat,
             (0 <? count_label "IFCFile" (graph w))%nat; reflexivity.
  - intros Hd. unfold Neo4jDatabase.get_stats, Neo4jDatabase.session, with_handle.
    unfold try_except at 1. rewrite Hd. rewrite bind_logger.
    eexists. split; [reflexivity|]. split; [done|]. by eexists.
Qed.

(** X14. The bare [except:] around the label counts swallows whatever
    is raised there, an interrupt included: when the third statement
    raises, [get_stats] still returns the totals with an empty label
    table, and when the fourth raises, with the [Element] count alone. *)
Theorem get_stats_swallows_label_errors (w : World) (x : exn) (fs : list (option exn)) :
  driver w = true ->
  (faults w = None :: None :: Some x :: fs ->
   exists w', Neo4jDatabase.get_stats w =
              (Ret (mkStats (node_count (graph w)) (edge_count (graph w)) []), w') /\
              faults w' = fs /\ graph w' = graph w) /\
  (faults w = None :: None :: None :: Some x :: fs ->
   exists w', Neo4jDatabase.get_stats w =
              (Ret (mkStats (node_count (graph w)) (edge_count (graph w))
                      (if (0 <? count_label "Element" (graph w))%nat
                       then [("Element", count_label "Element" (graph w))] else [])), w') /\
              faults w' = fs /\ graph w' = graph w).
Proof.
  intros Hd. split; intros Hf.
  - unfold Neo4jDatabase.get_stats, Neo4jDatabase.session, with_handle.
    unfold try_except at 1. rewrite Hd.
    rewrite (bind_returns _ _ _ _ _ (read_count_next _ _ _ w Hf)).
    rewrite (bind_returns _ _ _ _ _
               (read_count_next _ None (Some x :: fs) (set_faults _ w) eq_refl)).
    unfold bind at 1, try_except_all at 1. unfold bind at 1.
    rewrite (read_count_next _ (Some x) fs (set_faults _ (set_faults _ w)) eq_refl).
    eexists. split; [reflexivity|]. done.
  - unfold Neo4jDatabase.get_stats, Neo4jDatabase.session, with_handle.
    unfold try_except at 1. rewrite Hd.
    rewrite (bind_returns _ _ _ _ _ (read_count_next _ _ _ w Hf)).
    rewrite (bind_returns _ _ _ _ _
               (read_count_next _ None (None :: Some x :: fs) (set_faults _ w) eq_refl)).
    unfold bind at 1, try_except_all at 1.
    rewrite (bind_returns _ _ _ _ _
               (read_count_next _ None (Some x :: fs)
                  (set_faults _ (set_faults _ w)) eq_refl)).
    unfold try_except_all. unfold bind at 1.
    rewrite (read_count_next _ (Some x) fs
               (set_faults _ (set_faults _ (set_faults _ w))) eq_refl).
    eexists. split; [reflexivity|]. done.
Qed.

Lemma get_stats_swallows_label_errors_witness :
  let w := set_faults [None; None; Some KeyboardInterrupt] Sample.connected in
  exists w', Neo4jDatabase.get_stats w = (Ret (mkStats 0 0 []), w') /\ faults w' = [].
Proof.
  intros w.
  destruct (get_stats_swallows_label_errors w KeyboardInterrupt [] eq_refl) as [H _].
  destruct (H eq_refl) as (w' & E & Hf & _).
  exists w'. split; [exact E|exact Hf].
Defined.

(** ** Relationship writes whose endpoints are missing *)

Lemma pairs_of_missing xs ys : xs = [] \/ ys = [] -> Cypher.pairs_of xs ys = [].
Proof.
  intros H. pose proof (pairs_of_nonempty xs ys) as Hne.
  destruct (Cypher.pairs_of xs ys); [done|].
  destruct H as [-> | ->]; [done|]. simpl in Hne. by rewrite andb_false_r in Hne.
Qed.

Lemma exec_rel_missing ty a b rid g :
  Cypher.match_nodes {[ "Element" ]} "globalId" (VStr a) g = [] \/
  Cypher.match_nodes {[ "Element" ]} "globalId" (VStr b) g = [] ->
  Cypher.exec (Cypher.MergeRel ty a b rid) g = ([], g).
Proof. intros H. unfold Cypher.exec. by rewrite (pairs_of_missing _ _ H). Qed.

Lemma exec_rel_rows ty a b rid g :
  nonempty (Cypher.exec (Cypher.MergeRel ty a b rid) g).1 =
  nonempty (Cypher.match_nodes {[ "Element" ]} "globalId" (VStr a) g) &&
  nonempty (Cypher.match_nodes {[ "Element" ]} "globalId" (VStr b) g).
Proof. unfold Cypher.exec. by rewrite merge_edges_rows, pairs_of_nonempty. Qed.

Lemma truthy_nonempty s : s <> "" -> Py.truthy (Some s) = true.
Proof. intros H. unfold Py.truthy. by apply String.eqb_neq in H as ->. Qed.

(** X15. A connection record one of whose endpoints has no [Element]
    node creates no edge in either backend, but the two report it
    differently: [FalkorDBDatabase] answers [True] whenever the query
    ran ([result_set is not None]), [Neo4jDatabase] answers [True] only
    if both endpoints were matched. *)
Theorem connects_missing_endpoint (rel_id from_id to_id : string) (w : World) :
  driver w = true -> faults w = [] -> from_id <> "" -> to_id <> "" ->
  let r := CONNECTS_TO rel_id (Some from_id) (Some to_id) in
  let froms := Cypher.match_nodes {[ "Element" ]} "globalId" (VStr from_id) (graph w) in
  let tos := Cypher.match_nodes {[ "Element" ]} "globalId" (VStr to_id) (graph w) in
  (exists w', FalkorDBDatabase.create_relationship r w = (Ret true, w') /\
              (froms = [] \/ tos = [] -> graph w' = graph w)) /\
  (exists w', Neo4jDatabase.create_relationship r w =
              (Ret (nonempty froms && nonempty tos), w') /\
              (froms = [] \/ tos = [] -> graph w' = graph w)).
Proof.
  intros Hd Hf Ha Hb r froms tos. split.
  - destruct (falkordb_sends_relationship r w Hf Hd) as (w' & E & Hg & _).
    exists w'. split.
    + rewrite E. unfold falkordb_result, r, falkordb_statements, one_to_one.
      by rewrite !truthy_nonempty.
    + intros Hmiss. rewrite Hg. unfold r, falkordb_statements, one_to_one.
      rewrite !truthy_nonempty by done. cbn [andb run_effects fold_left].
      unfold effect. rewrite well_formed_rel. by rewrite exec_rel_missing.
  - destruct (neo4j_sends_relationship r w Hf Hd) as (w' & E & Hg & _).
    exists w'. split.
    + rewrite E. unfold neo4j_result, r, neo4j_statements, one_to_one.
      rewrite !truthy_nonempty by done. cbn [andb]. rewrite successes_one.
      unfold answer. rewrite well_formed_rel. cbn [andb]. by rewrite exec_rel_rows.
    + intros Hmiss. rewrite Hg. unfold r, neo4j_statements, one_to_one.
      rewrite !truthy_nonempty by done. cbn [andb run_effects fold_left].
      unfold effect. rewrite well_formed_rel. by rewrite exec_rel_missing.
Qed.

Lemma connects_missing_endpoint_witness :
  exists w', FalkorDBDatabase.create_relationship
               (CONNECTS_TO "1rel" (Some "wall") (Some "door")) Sample.connected
             = (Ret true, w') /\ graph w' = graph Sample.connected.
Proof.
  destruct (connects_missing_endpoint "1rel" "wall" "door" Sample.connected
              eq_refl eq_refl) as [(w' & E & Hg) _]; [discriminate|discriminate|].
  exists w'. split; [exact E|]. apply Hg. by left.
Defined.

(** Pairs all of which miss their single endpoint. *)
Lemma many_to_one_missing ty rid fs to g :
  Cypher.match_nodes {[ "Element" ]} "globalId" (VStr to) g = [] ->
  run_effects (pair_statements ty rid (map (fun from_id => (from_id, to)) fs)) g = g /\
  successes (pair_statements ty rid (map (fun from_id => (from_id, to)) fs)) g = 0.
Proof.
  intros Hto. induction fs as [|a fs [IH1 IH2]]; [done|].
  unfold run_effects in *. cbn [map pair_statements fold_left successes fst snd].
  unfold effect, answer. rewrite well_formed_rel, exec_rel_missing by (by right).
  by split.
Qed.

(** X16. The backends disagree on property-definition records.  With
    the property definition not stored as an [Element] node (it is not
    a product), [Neo4jDatabase] reports [True] without sending anything
    and [FalkorDBDatabase], which sends one [MERGE] per related object,
    reports [False]; neither changes the store. *)
Theorem has_property_backends_differ (rel_id : string) (from_ids : list string)
        (to_property : string) (w : World) :
  driver w = true -> faults w = [] ->
  Cypher.match_nodes {[ "Element" ]} "globalId" (VStr to_property) (graph w) = [] ->
  let r := HAS_PROPERTY rel_id from_ids (Some to_property) in
  (exists w', Neo4jDatabase.create_relationship r w = (Ret true, w') /\
              graph w' = graph w) /\
  (exists w', FalkorDBDatabase.create_relationship r w = (Ret false, w') /\
              graph w' = graph w).
Proof.
  intros Hd Hf Hto r. split.
  - destruct (neo4j_sends_relationship r w Hf Hd) as (w' & E & Hg & _).
    by exists w'.
  - destruct (falkordb_sends_relationship r w Hf Hd) as (w' & E & Hg & _).
    exists w'. unfold falkordb_result, r, falkordb_statements, many_to_one in *.
    destruct (Py.truthy (Some to_property)).
    + destruct (many_to_one_missing "HAS_PROPERTY" rel_id from_ids to_property
                  (graph w) Hto) as [H1 H2].
      rewrite H2 in E. rewrite H1 in Hg. by split.
    + by split.
Qed.

Lemma has_property_backends_differ_witness :
  exists w', FalkorDBDatabase.create_relationship
               (HAS_PROPERTY "2rel" ["wall"] (Some "0pset")) Sample.connected
             = (Ret false, w').
Proof.
  destruct (has_property_backends_differ "2rel" ["wall"] "0pset" Sample.connected
              eq_refl eq_refl eq_refl) as [_ (w' & E & _)].
  exists w'. exact E.
Defined.

(** ** The FalkorDB converter *)

(** X17. Importing the same unmodified file a second time through the
    FalkorDB writer, with a connection that does not fail, adds no node
    and no edge: every node keeps its labels, [globalId] and [fileId],
    and every edge its endpoints and type. *)
Theorem falkordb_import_twice_same_counts (f : SourceFile) (w : World) :
  faults w = [] ->
  let once := graph (IFCToFalkorDBConverter.convert_file f w).2 in
  let twice := graph (IFCToFalkorDBConverter.convert_file f
                        (IFCToFalkorDBConverter.convert_file f w).2).2 in
  node_count twice = node_count once /\
  edge_count twice = edge_count once /\
  keys twice = keys once.
Proof.
  intros Hf once twice.
  pose proof (reimport_same_keys falkordb_reliable f w Hf) as H.
  unfold IFCToFalkorDBConverter.convert_file in once, twice.
  fold once twice in H.
  destruct (keys_counts once) as [-> ->], (keys_counts twice) as [-> ->].
  by rewrite H.
Qed.

Lemma falkordb_import_twice_same_counts_witness :
  node_count (graph (IFCToFalkorDBConverter.convert_file Sample.duplex
                       (IFCToFalkorDBConverter.convert_file Sample.duplex
                          Sample.connected).2).2)
  = node_count (graph (IFCToFalkorDBConverter.convert_file Sample.duplex
                         Sample.connected).2).
Proof.
  exact (proj1 (falkordb_import_twice_same_counts Sample.duplex Sample.connected eq_refl)).
Defined.

Lemma doomed_converts_falkordb f w : doomed f -> converts falkordb f w = false.
Proof.
  unfold converts. intros [Hst|[Hifc|(m & Hifc & Hm)]].
  - destruct (falkordb_file_missing f (started f w) Hst) as (w' & E & _).
    change (create_file_node falkordb f) with (FalkorDBDatabase.create_file_node f).
    by rewrite E.
  - destruct (create_file_node falkordb f (started f w)).1 as [fo|]; [|done].
    rewrite Hifc. apply andb_false_r.
  - destruct (create_file_node falkordb f (started f w)).1 as [fo|]; [|done].
    rewrite Hifc, Hm. apply andb_false_r.
Qed.

(** A loop whose body appends the file's result. *)
Lemma each_file_appends body handler files acc w :
  (forall f acc w, calm w -> path_str f ∉ acc.*1 ->
     exists b w1, body f acc w = (Ret (acc ++ [(path_str f, b)])%list, w1) /\
                  calm w1 /\ (doomed f -> b = false)) ->
  calm w ->
  (forall f, f ∈ files -> path_str f ∉ acc.*1) ->
  NoDup (map path_str files) ->
  exists results w',
    each_file body handler files acc w = (Ret (inl (acc ++ results)%list), w') /\
    results.*1 = map path_str files /\
    (forall f, f ∈ files -> doomed f -> (path_str f, false) ∈ results) /\
    calm w'.
Proof.
  intros Hbody. revert acc w.
  induction files as [|f files IH]; intros acc w Hw Hacc Hnd.
  - exists [], w. rewrite app_nil_r. repeat split; [|done].
    intros f Hin. by apply elem_of_nil in Hin.
  - simpl in Hnd. apply NoDup_cons in Hnd as [Hf Hnd].
    destruct (Hbody f acc w Hw) as (b & w1 & Eb & Hw1 & Hb); [apply Hacc; left|].
    destruct (IH (acc ++ [(path_str f, b)])%list w1) as (rs & w' & E' & Hp & Hd & Hw').
    + done.
    + intros f' Hin. rewrite fmap_app, not_elem_of_app. split; [apply Hacc; by right|].
      simpl. rewrite list_elem_of_singleton. intros Heq. apply Hf.
      rewrite <- Heq. apply list_elem_of_fmap. by exists f'.
    + done.
    + exists ((path_str f, b) :: rs), w'. split; [|split; [|split; [|done]]].
      * cbn [each_file].
        rewrite (bind_returns _ _ _ _ _
                   (try_except_returns _ _ _ _ _ (bind_returns _ _ _ _ _ Eb))).
        rewrite <- app_assoc in E'. exact E'.
      * simpl. by f_equal.
      * intros f' Hin Hdoom. apply elem_of_cons in Hin as [->|Hin].
        -- rewrite (Hb Hdoom). left.
        -- right. by apply Hd.
Qed.

(** X18. [IFCToFalkorDBConverter.convert_directory] has no handler of
    its own around a file, and still no file stops the batch: without
    an interrupt it returns a mapping with one entry per file, in order,
    and a file whose metadata cannot be read, that does not parse or
    that holds no element is recorded [False]. *)
Theorem falkordb_convert_directory_records_every_file (dir : Directory) (w : World) :
  calm w -> NoDup (map path_str (glob dir)) ->
  exists results w',
    IFCToFalkorDBConverter.convert_directory dir w = (Ret results, w') /\
    results.*1 = map path_str (glob dir) /\
    (forall f, f ∈ glob dir -> doomed f ->
               Py.dict_get (path_str f) results = Some false).
Proof.
  intros Hw Hnd. unfold IFCToFalkorDBConverter.convert_directory.
  destruct (glob dir) as [|f0 files] eqn:Eg.
  - eexists [], _. cbn [nonempty negb]. rewrite bind_logger. repeat split.
    intros f Hin. by apply elem_of_nil in Hin.
  - rewrite <- Eg in *. assert (nonempty (glob dir) = true) as -> by by rewrite Eg.
    cbn [negb]. rewrite bind_logger.
    match goal with |- context [add_log INFO ?s w] => set (w0 := add_log INFO s w) end.
    match goal with |- context [each_file ?b ?h] =>
      destruct (each_file_appends b h (glob dir) [] w0) as (rs & w' & E & Hp & Hd & _)
    end; [|done| |done|].
    { intros f acc w1 Hw1 Hacc.
      assert (calm (add_log INFO ("Processing file: " ++ path_name f) w1)) as Hw1' by done.
      destruct (convert_file_result falkordb falkordb_returns f _ Hw1') as (w2 & E & Hw2).
      set (b := converts falkordb f _) in *.
      exists b, (add_log (if b then INFO else ERROR)
                   (if b then "File conversion successful: " ++ path_name f
                    else "File conversion failed: " ++ path_name f) w2).
      split; [|split; [done|]].
      - rewrite bind_logger. unfold IFCToFalkorDBConverter.convert_file.
        rewrite (bind_returns _ _ _ _ _ E), dict_set_fresh by done.
        by destruct b.
      - apply doomed_converts_falkordb. }
    { intros f _. apply not_elem_of_nil. }
    rewrite (bind_returns _ _ _ _ _ E). cbn [app].
    eexists rs, _. split; [reflexivity|]. split; [done|].
    intros f Hin Hdoom. apply dict_get_elem_of; [by rewrite Hp|]. by apply Hd.
Qed.

Lemma falkordb_convert_directory_records_every_file_witness :
  let dir := mkDirectory "input" true [Sample.broken; Sample.duplex] in
  exists results w',
    IFCToFalkorDBConverter.convert_directory dir Sample.connected = (Ret results, w') /\
    Py.dict_get "input/broken.ifc" results = Some false.
Proof.
  intros dir.
  assert (NoDup (map path_str (glob dir))) as Hnd.
  { repeat constructor; [|apply not_elem_of_nil].
    rewrite list_elem_of_singleton. discriminate. }
  destruct (falkordb_convert_directory_records_every_file dir Sample.connected
              (List.Forall_nil _) Hnd) as (results & w' & E & _ & Hd).
  exists results, w'. split; [exact E|].
  apply (Hd Sample.broken); [left|]. right. left. reflexivity.
Defined.

(** * Nothing is deleted *)

Lemma extends_refl g : extends g g.
Proof. by split. Qed.

Lemma extends_trans g1 g2 g3 : extends g1 g2 -> extends g2 g3 -> extends g1 g3.
Proof. intros [H1 H2] [H3 H4]. split; by etransitivity. Qed.

Lemma extends_keys g g' : keys g' = keys g -> extends g g'.
Proof. intros H. unfold extends. by rewrite H. Qed.

Lemma merge_edge_keys_prefix ty pairs es :
  es `prefix_of` Keys.merge_edge_keys ty pairs es.
Proof.
  revert es. induction pairs as [|[a b] rest IH]; intros es; simpl; [done|].
  destruct (Keys.has_edge _ _); [apply IH|].
  etransitivity; [|apply IH]. by apply prefix_app_r.
Qed.

Lemma merge_key_prefix test new ns : ns `prefix_of` (Keys.merge_key test new ns).2.
Proof.
  unfold Keys.merge_key. destruct (Cypher.find_indices test ns); simpl; [|done].
  by apply prefix_app_r.
Qed.

(** Every statement but the deletion keeps what the store holds. *)
Lemma step_prefix q s :
  q <> Cypher.DetachDeleteAll ->
  s.1 `prefix_of` (Keys.step q s).1 /\ s.2 `prefix_of` (Keys.step q s).2.
Proof.
  intros Hq. destruct s as [ns es].
  destruct q as [| |fid sets|cls gid sets fid|ty a b rid|]; try done; simpl.
  - split; [apply merge_key_prefix|done].
  - pose proof (merge_key_prefix (Keys.is_element {[ "Element"; cls ]} gid)
                  (Keys.element_key cls gid) ns) as H.
    destruct (Keys.merge_key _ _ ns) as [ids ns'].
    destruct fid as [f|]; simpl; [|done]. split; [done|apply merge_edge_keys_prefix].
  - split; [done|apply merge_edge_keys_prefix].
Qed.

Lemma exec_extends q g :
  Keys.sets_ok q -> q <> Cypher.DetachDeleteAll -> extends g (Cypher.exec q g).2.
Proof.
  intros Hok Hq. unfold extends. rewrite (keys_exec q g Hok). by apply step_prefix.
Qed.

Lemma appends_same {A} (m : M A) : (forall w, graph (m w).2 = graph w) -> appends m.
Proof. intros H w. rewrite H. apply extends_refl. Qed.

Lemma appends_ret {A} (a : A) : appends (ret a).
Proof. by apply appends_same. Qed.

Lemma appends_raise {A} e : appends (@raise A e).
Proof. by apply appends_same. Qed.

Lemma appends_logger l msg : appends (logger l msg).
Proof. by apply appends_same. Qed.

Lemma appends_now : appends now.
Proof. by apply appends_same. Qed.

Lemma appends_set_driver d : appends (fun w => (Ret tt, set_driver d w)).
Proof. by apply appends_same. Qed.

Lemma appends_bind {A B} (m : M A) (k : A -> M B) :
  appends m -> (forall a, appends (k a)) -> appends (bind m k).
Proof.
  intros Hm Hk w. unfold bind. pose proof (Hm w) as H1.
  destruct (m w) as [[a|e] w1]; [|done].
  eapply extends_trans; [exact H1|apply Hk].
Qed.

Lemma appends_try {A} (m : M A) h :
  appends m -> (forall e, appends (h e)) -> appends (try_except m h).
Proof.
  intros Hm Hh w. unfold try_except. pose proof (Hm w) as H1.
  destruct (m w) as [[a|[msg|]] w1]; [done| |done].
  eapply extends_trans; [exact H1|apply Hh].
Qed.

Lemma appends_try_all {A} (m : M A) h :
  appends m -> appends h -> appends (try_except_all m h).
Proof.
  intros Hm Hh w. unfold try_except_all. pose proof (Hm w) as H1.
  destruct (m w) as [[a|e] w1]; [done|].
  eapply extends_trans; [exact H1|apply Hh].
Qed.

Lemma appends_with_handle {A} attr (m : M A) : appends m -> appends (with_handle attr m).
Proof.
  intros Hm w. unfold with_handle. destruct (driver w); [apply Hm|apply extends_refl].
Qed.

Lemma appends_execute_write {A} (m : M A) :
  appends m -> appends (Neo4jDatabase.execute_write m).
Proof.
  intros Hm w. unfold Neo4jDatabase.execute_write.
  pose proof (Hm (set_tx_failed false w)) as H1.
  destruct (m (set_tx_failed false w)) as [[a|e] w1]; [|apply extends_refl].
  destruct (tx_failed w1); [apply extends_refl|done].
Qed.

Lemma appends_next_event : appends next_event.
Proof.
  apply appends_same. intros w. unfold next_event.
  by destruct (faults w) as [|[e|] fs].
Qed.

Lemma appends_run_statement q :
  Keys.sets_ok q -> q <> Cypher.DetachDeleteAll -> appends (run_statement q).
Proof.
  intros Hok Hq. unfold run_statement.
  apply appends_bind; [apply appends_next_event|]. intros _.
  destruct (Cypher.well_formed q); [|apply appends_raise].
  intros w. pose proof (exec_extends q (graph w) Hok Hq) as H.
  by destruct (Cypher.exec q (graph w)).
Qed.

Lemma appends_tx_run q :
  Keys.sets_ok q -> q <> Cypher.DetachDeleteAll -> appends (Neo4jDatabase.tx_run q).
Proof.
  intros Hok Hq w. pose proof (appends_run_statement q Hok Hq w) as H.
  unfold Neo4jDatabase.tx_run. by destruct (run_statement q w) as [[a|[msg|]] w1].
Qed.

Lemma appends_file_stat f : appends (file_stat f).
Proof. unfold file_stat. destruct (stat f); [apply appends_ret|apply appends_raise]. Qed.

Lemma appends_count_loop {A} (body : A -> M bool) xs n :
  (forall x, appends (body x)) -> appends (count_loop body xs n).
Proof.
  intros Hb. revert n. induction xs as [|x xs IH]; intros n; simpl.
  - apply appends_ret.
  - apply appends_bind; [apply Hb|]. intros b. apply IH.
Qed.

Lemma appends_extract_loop {A} what (xs : list (option A)) out :
  appends (IFCParser.extract_loop what xs out).
Proof.
  revert out. induction xs as [|[a|] xs IH]; intros out; simpl.
  - apply appends_ret.
  - apply IH.
  - apply appends_bind; [apply appends_logger|]. intros _. apply IH.
Qed.

(** Breaks a computation into its steps. *)
Ltac grows :=
  repeat first
    [ match goal with |- forall _, _ => intro end
    | apply appends_ret | apply appends_logger | apply appends_now
    | apply appends_raise | apply appends_set_driver
    | apply appends_next_event | apply appends_file_stat
    | apply appends_extract_loop
    | apply appends_run_statement;
      [ first [ apply file_data_ok | apply file_fields_ok
              | apply element_properties_ok | apply set_fields_ok | exact I ]
      | discriminate ]
    | apply appends_tx_run;
      [ first [ apply file_data_ok | apply element_properties_ok | exact I ]
      | discriminate ]
    | apply appends_bind | apply appends_try | apply appends_try_all
    | apply appends_with_handle | apply appends_execute_write
    | apply appends_count_loop
    | match goal with
      | |- appends (if ?b then _ else _) => destruct b
      | |- appends (match ?x with _ => _ end) => destruct x
      end ].

Lemma neo4j_appends : writer_appends neo4j.
Proof.
  split; [|split]; simpl.
  - intros f. unfold Neo4jDatabase.create_file_node, Neo4jDatabase._create_file_tx,
      Neo4jDatabase.session. grows.
  - intros e fid. unfold Neo4jDatabase.create_element_node,
      Neo4jDatabase._create_element_tx, Neo4jDatabase.session.
    grows.
  - intros r. unfold Neo4jDatabase.create_relationship,
      Neo4jDatabase._create_relationship_tx, Neo4jDatabase.session.
    destruct r;
      unfold Neo4jDatabase._create_aggregates_relationship,
        Neo4jDatabase._create_connects_relationship,
        Neo4jDatabase._create_property_relationship,
        Neo4jDatabase._create_spatial_relationship,
        Neo4jDatabase._create_group_relationship,
        Neo4jDatabase.write_pairs; grows.
Qed.

Lemma falkordb_appends : writer_appends falkordb.
Proof.
  split; [|split]; simpl.
  - intros f. unfold FalkorDBDatabase.create_file_node, FalkorDBDatabase.graph_query.
    grows.
  - intros e fid. unfold FalkorDBDatabase.create_element_node,
      FalkorDBDatabase.graph_query.
    grows.
  - intros r. unfold FalkorDBDatabase.create_relationship.
    destruct r;
      unfold FalkorDBDatabase._create_aggregates_relationship,
        FalkorDBDatabase._create_connects_relationship,
        FalkorDBDatabase._create_property_relationship,
        FalkorDBDatabase._create_spatial_relationship,
        FalkorDBDatabase._create_group_relationship,
        FalkorDBDatabase.many_to_one,
        FalkorDBDatabase.write_pairs, FalkorDBDatabase.graph_query; grows.
Qed.

Lemma appends_convert_file db f : writer_appends db -> appends (convert_file db f).
Proof.
  intros (Hfile & Helem & Hrel). unfold convert_file, IFCParser.parse_file,
    IFCParser.extract_elements, IFCParser.extract_relationships.
  grows; first [apply Hfile | apply Helem | apply Hrel].
Qed.

Lemma appends_each_file body handler files acc :
  (forall f r, appends (body f r)) -> (forall e, appends (handler e)) ->
  appends (each_file body handler files acc).
Proof.
  intros Hb Hh. revert acc. induction files as [|f files IH]; intros acc; simpl.
  - apply appends_ret.
  - apply appends_bind.
    + apply appends_try; [|grows; apply Hh].
      apply appends_bind; [apply Hb|]. grows.
    + intros [r|r]; [apply IH|apply appends_ret].
Qed.

Lemma appends_convert_directory dir : appends (IFCToGraphConverter.convert_directory dir).
Proof.
  unfold IFCToGraphConverter.convert_directory.
  destruct (negb (nonempty (glob dir))); [grows|].
  apply appends_bind; [apply appends_logger|]. intros _.
  apply appends_bind; [|grows].
  apply appends_each_file; [|grows]. intros f r.
  apply appends_try; [|grows].
  apply appends_bind; [apply appends_convert_file, neo4j_appends|]. grows.
Qed.

(** X19. An import only ever adds: whatever the driver does (errors and
    interrupts included), [convert_directory] of either converter leaves
    every node and edge of the store in place, each node with its
    labels, [globalId] and [fileId] and each edge with its endpoints and
    type, so that the node and edge counts never go down. *)
Theorem convert_directory_never_deletes (dir : Directory) (w : World) :
  let after := graph (IFCToGraphConverter.convert_directory dir w).2 in
  let after' := graph (IFCToFalkorDBConverter.convert_directory dir w).2 in
  (extends (graph w) after /\
   node_count (graph w) <= node_count after /\ edge_count (graph w) <= edge_count after) /\
  (extends (graph w) after' /\
   node_count (graph w) <= node_count after' /\ edge_count (graph w) <= edge_count after').
Proof.
  assert (forall g g', extends g g' ->
            extends g g' /\ node_count g <= node_count g' /\ edge_count g <= edge_count g')
    as Hcount.
  { intros g g' H. split; [done|]. destruct H as [H1 H2].
    destruct (keys_counts g) as [-> ->], (keys_counts g') as [-> ->].
    split; by apply prefix_length. }
  split; apply Hcount.
  - apply appends_convert_directory.
  - assert (appends (IFCToFalkorDBConverter.convert_directory dir)) as H; [|apply H].
    unfold IFCToFalkorDBConverter.convert_directory.
    destruct (negb (nonempty (glob dir))); [grows|].
    apply appends_bind; [apply appends_logger|]. intros _.
    apply appends_bind; [|grows].
    apply appends_each_file; [|grows]. intros f r.
    apply appends_bind; [apply appends_logger|]. intros _.
    apply appends_bind; [apply appends_convert_file, falkordb_appends|]. grows.
Qed.

Lemma appends_read {A} (f : World -> A) : appends (fun w => (Ret (f w), w)).
Proof. by apply appends_same. Qed.

Lemma appends_close : appends Neo4jDatabase.close.
Proof.
  apply appends_same. intros w. unfold Neo4jDatabase.close. by destruct (driver w).
Qed.

Lemma appends_get_stats : appends Neo4jDatabase.get_stats.
Proof.
  unfold Neo4jDatabase.get_stats, Neo4jDatabase.session, Neo4jDatabase.read_count,
    Neo4jDatabase.session_run.
  repeat first [apply appends_read | progress grows].
Qed.

Lemma appends_distribution what : appends (Statistics.distribution what).
Proof.
  unfold Statistics.distribution, Neo4jDatabase.session, Neo4jDatabase.session_run. grows.
Qed.

(** X20. Only [--clear-db] deletes.  Without it, whatever the
    environment, the arguments and the driver do, [main] leaves every
    node and edge that the store held in place. *)
Theorem main_without_clear_db_never_deletes (args : import_ifc.Args)
        (environ : gmap string string) (w : World) :
  import_ifc.clear_db args = false ->
  extends (graph w) (graph (import_ifc.main args environ w).2).
Proof.
  intros Hclear.
  assert (appends (import_ifc.main_body args environ)) as H.
  { unfold import_ifc.main_body, import_ifc.load_environment, import_ifc.run_conversion,
      Neo4jDatabase.connect, Neo4jDatabase.session, Neo4jDatabase.session_run,
      Statistics.get_conversion_statistics, Statistics.validate_conversion,
      IFCParser.parse_file, IFCParser.extract_elements, IFCParser.extract_relationships,
      import_ifc.exit_status.
    rewrite Hclear.
    repeat first [ apply appends_convert_directory | apply appends_get_stats
                 | apply appends_distribution | apply appends_close
                 | progress grows ]. }
  unfold import_ifc.main. pose proof (H w) as Hw.
  by destruct (import_ifc.main_body args environ w) as [[code|[msg|]] w'].
Qed.

Lemma main_without_clear_db_never_deletes_witness :
  let args := import_ifc.mkArgs (mkDirectory "input" true [Sample.broken; Sample.duplex])
                                false false "INFO" true true true in
  let environ : gmap string string :=
    {[ "NEO4J_URI" := "bolt://localhost:7687"; "NEO4J_USER" := "neo4j";
       "NEO4J_PASSWORD" := "secret"; "NEO4J_DATABASE" := "elements" ]} in
  let legacy := mkGraph [mkNode {[ "Element"; "IfcSlab" ]} {[ "globalId" := VStr "0legacy" ]}] [] in
  let w := set_graph legacy Sample.fresh in
  (import_ifc.main args environ w).1 = 0%Z /\
  node_count (graph w) = 1 /\
  node_count (graph (import_ifc.main args environ w).2) = 6 /\
  (keys (graph w)).1 `prefix_of` (keys (graph (import_ifc.main args environ w).2)).1.
Proof.
  intros args environ legacy w.
  split; [vm_compute; reflexivity|]. split; [reflexivity|].
  split; [vm_compute; reflexivity|].
  exact (proj1 (main_without_clear_db_never_deletes args environ w eq_refl)).
Defined.

(** * Driver errors in the writers *)

Lemma run_statement_fault q e fs w :
  faults w = Some e :: fs -> run_statement q w = (Raise e, set_faults fs w).
Proof.
  intros Hf. unfold run_statement, bind. by rewrite (next_event_fault e fs w Hf).
Qed.

Lemma run_statement_quiet q fs w :
  faults w = None :: fs -> Cypher.well_formed q = true ->
  run_statement q w =
  (Ret (Cypher.exec q (graph w)).1, set_graph (Cypher.exec q (graph w)).2 (set_faults fs w)).
Proof.
  intros Hf Hq. unfold run_statement, bind. rewrite (next_event_quiet fs w Hf), Hq.
  cbn [graph set_faults]. by destruct (Cypher.exec q (graph w)).
Qed.

(** X21. A driver error is answered in place, without a second attempt.
    When the statement of a file or element write raises an [Exception],
    the writer of either backend returns [None] (resp. [False]) after
    that single statement and leaves the store as it was: there is no
    reconnection and no retry.  [FalkorDBDatabase] logs the driver's text
    once at [ERROR].  [Neo4jDatabase] logs twice: the transaction
    function logs the driver's text and returns, the commit of the
    failed transaction then raises, and the method's own handler logs
    that error. *)
Theorem writers_fail_without_retry (file_path : SourceFile) (st : Stat)
        (element_data : ElementRecord) (file_id : option string)
        (e : string) (fs : list (option exn)) (w : World) :
  driver w = true -> faults w = Some (Exception e) :: fs -> stat file_path = Some st ->
  (exists w', Neo4jDatabase.create_file_node file_path w = (Ret None, w') /\
              graph w' = graph w /\ faults w' = fs /\
              log w' = (log w ++ [(ERROR, "File node creation transaction failed: " ++ e)%string;
                                  (ERROR, "File node creation failed: " ++ path_str file_path
                                          ++ ", error: " ++ Neo4jDatabase.commit_error)%string])%list) /\
  (exists w', Neo4jDatabase.create_element_node element_data file_id w = (Ret false, w') /\
              graph w' = graph w /\ faults w' = fs /\
              log w' = (log w ++ [(ERROR, "Node creation transaction failed: " ++ e)%string;
                                  (ERROR, "Node creation failed: " ++ globalId element_data
                                          ++ ", error: " ++ Neo4jDatabase.commit_error)%string])%list) /\
  (exists w', FalkorDBDatabase.create_file_node file_path w = (Ret None, w') /\
              graph w' = graph w /\ faults w' = fs /\
              log w' = (log w ++ [(ERROR, "File node creation failed: " ++ path_str file_path
                                          ++ ", error: " ++ e)%string])%list) /\
  (exists w', FalkorDBDatabase.create_element_node element_data file_id w = (Ret false, w') /\
              graph w' = graph w /\ faults w' = fs /\
              log w' = (log w ++ [(ERROR, "Node creation failed: " ++ globalId element_data
                                          ++ ", error: " ++ e)%string])%list).
Proof.
  intros Hd Hf Hst. repeat split.
  - unfold Neo4jDatabase.create_file_node, Neo4jDatabase.session, with_handle,
      Neo4jDatabase.execute_write, Neo4jDatabase._create_file_tx, Neo4jDatabase.tx_run,
      file_stat.
    unfold try_except at 1. rewrite Hd, Hst. unfold try_except at 1.
    unfold bind at 1, ret at 1. unfold bind at 1, now. unfold bind at 1.
    rewrite (run_statement_fault _ (Exception e) fs (set_clock _ (set_tx_failed false w)))
      by done.
    rewrite !bind_logger. cbn [tx_failed add_log set_tx_failed].
    eexists. split; [reflexivity|]. cbn. by rewrite <- app_assoc.
  - unfold Neo4jDatabase.create_element_node, Neo4jDatabase.session, with_handle,
      Neo4jDatabase.execute_write, Neo4jDatabase._create_element_tx, Neo4jDatabase.tx_run.
    unfold try_except at 1. rewrite Hd. unfold try_except at 1. unfold bind at 1.
    rewrite (run_statement_fault _ (Exception e) fs (set_tx_failed false w)) by done.
    rewrite !bind_logger. cbn [tx_failed add_log set_tx_failed].
    eexists. split; [reflexivity|]. cbn. by rewrite <- app_assoc.
  - unfold FalkorDBDatabase.create_file_node, FalkorDBDatabase.graph_query, with_handle,
      file_stat.
    unfold try_except at 1. rewrite Hst.
    unfold bind at 1, ret at 1. unfold bind at 1, now. unfold bind at 1.
    cbn [driver set_clock]. rewrite Hd.
    rewrite (run_statement_fault _ (Exception e) fs (set_clock _ w)) by done.
    rewrite bind_logger. eexists. split; [reflexivity|]. done.
  - unfold FalkorDBDatabase.create_element_node, FalkorDBDatabase.graph_query, with_handle.
    unfold try_except at 1. unfold bind at 1. rewrite Hd.
    rewrite (run_statement_fault _ (Exception e) fs w) by done.
    rewrite bind_logger. eexists. split; [reflexivity|]. done.
Qed.

Lemma writers_fail_without_retry_witness :
  let w := set_faults [Some (Exception "Connection reset by peer"); None] Sample.connected in
  exists w', Neo4jDatabase.create_element_node Sample.wall None w = (Ret false, w') /\
             faults w' = [None].
Proof.
  intros w.
  destruct (writers_fail_without_retry Sample.duplex (mkStat 2393000 1315400000 1315400000)
              Sample.wall None "Connection reset by peer" [None] w eq_refl eq_refl eq_refl)
    as (_ & (w' & E & _ & Hf & _) & _).
  exists w'. split; [exact E|exact Hf].
Defined.

(** ** A failing pair among several *)

(** The Neo4j loop: the first statement that raises ends it. *)
Lemma neo4j_pairs_abort ty rid pairs k n e fs w :
  faults w = (replicate k None ++ Some (Exception e) :: fs)%list ->
  k < length pairs ->
  exists w',
    count_loop
      (fun p : string * string =>
         result <- Neo4jDatabase.tx_run (Cypher.MergeRel ty p.1 p.2 rid) ;;
         ret (nonempty result))
      pairs n w = (Raise (Exception e), w') /\
    faults w' = fs /\ driver w' = driver w /\ tx_failed w' = true /\ log w' = log w.
Proof.
  revert k n w. induction pairs as [|p pairs IH]; intros k n w Hf Hk; [simpl in Hk; lia|].
  cbn [count_loop].
  destruct k as [|k]; simpl in Hf.
  - unfold bind at 1, bind at 1, Neo4jDatabase.tx_run at 1.
    rewrite (run_statement_fault _ _ _ _ Hf). by eexists.
  - set (q := Cypher.MergeRel ty p.1 p.2 rid).
    assert ((result <- Neo4jDatabase.tx_run q ;; ret (nonempty result)) w =
            (Ret (nonempty (Cypher.exec q (graph w)).1),
             set_graph (Cypher.exec q (graph w)).2
               (set_faults (replicate k None ++ Some (Exception e) :: fs)%list w))) as Hb.
    { unfold bind, Neo4jDatabase.tx_run. by rewrite (run_statement_quiet _ _ _ Hf). }
    rewrite (bind_returns _ _ _ _ _ Hb).
    edestruct (IH k) as (w' & E & Hf' & Hd' & Hx' & Hl'); [| |rewrite E; by exists w'].
    + done.
    + simpl in Hk. lia.
Qed.

(** The FalkorDB loop: every pair is sent. *)
Lemma falkordb_pairs_all_sent what ty rid pairs n w :
  calm w -> driver w = true ->
  exists c w',
    count_loop
      (fun p : string * string =>
         try_except
           (result <- FalkorDBDatabase.graph_query (Cypher.MergeRel ty p.1 p.2 rid) ;;
            ret (nonempty result))
           (fun e =>
              logger WARNING (what ++ " relationship creation failed: " ++ p.1
                              ++ " -> " ++ p.2 ++ ", error: " ++ e) ;;
              ret false))
      pairs n w = (Ret c, w') /\
    faults w' = drop (length pairs) (faults w) /\ driver w' = true.
Proof.
  assert (forall (p : string * string) w, calm w -> driver w = true ->
            exists b w1,
              try_except
                (result <- FalkorDBDatabase.graph_query (Cypher.MergeRel ty p.1 p.2 rid) ;;
                 ret (nonempty result))
                (fun e =>
                   logger WARNING (what ++ " relationship creation failed: " ++ p.1
                                   ++ " -> " ++ p.2 ++ ", error: " ++ e) ;;
                   ret false) w = (Ret b, w1) /\
              faults w1 = tail (faults w) /\ driver w1 = true /\ calm w1) as Hbody.
  { clear n w. intros p w Hw Hd. unfold try_except, bind at 1, FalkorDBDatabase.graph_query.
    rewrite handle_statement by done. rewrite Hd. unfold calm in *.
    destruct (faults w) as [|[[e|]|] fs] eqn:Hf.
    - eexists _, _. split; [reflexivity|]. cbn. by rewrite Hf.
    - rewrite bind_logger. eexists _, _. split; [reflexivity|]. cbn.
      by apply Forall_cons in Hw as [_ Hw].
    - by apply Forall_cons in Hw as [Hw _].
    - eexists _, _. split; [reflexivity|]. cbn. by apply Forall_cons in Hw as [_ Hw]. }
  revert n w. induction pairs as [|p pairs IH]; intros n w Hw Hd.
  - by exists n, w.
  - cbn [count_loop].
    destruct (Hbody p w Hw Hd) as (b & w1 & Eb & Hf1 & Hd1 & Hw1).
    rewrite (bind_returns _ _ _ _ _ Eb).
    destruct (IH (if b then S n else n) w1 Hw1 Hd1) as (c & w' & E & Hf' & Hd').
    exists c, w'. split; [done|]. split; [|done].
    rewrite Hf', Hf1. destruct (faults w); [|done]. cbn [tail length]. by rewrite !drop_nil.
Qed.

(** X22. One failing pair among several.  For an aggregation record
    with a parent and several children over an open connection: in
    [Neo4jDatabase] the first statement that raises ends the record's
    write, which returns [False] with the remaining pairs never sent and
    the edges of the earlier pairs rolled back with the transaction; in
    [FalkorDBDatabase] every pair is sent whatever happens to the others
    (interrupts aside). *)
Theorem failing_pair_neo4j_aborts_falkordb_continues
        (rel_id from_id : string) (to_ids : list string) (k : nat) (e : string)
        (fs : list (option exn)) (w : World) :
  driver w = true -> from_id <> "" ->
  faults w = (replicate k None ++ Some (Exception e) :: fs)%list ->
  k < length to_ids ->
  let r := AGGREGATES rel_id (Some from_id) to_ids in
  (exists w', Neo4jDatabase.create_relationship r w = (Ret false, w') /\ faults w' = fs /\
              graph w' = graph w) /\
  (calm w ->
   exists b w', FalkorDBDatabase.create_relationship r w = (Ret b, w') /\
                faults w' = drop (length to_ids) (faults w)).
Proof.
  intros Hd Ha Hf Hk r. assert (to_ids <> []) as Hne by (intros ->; simpl in Hk; lia).
  split.
  - unfold r, Neo4jDatabase.create_relationship, Neo4jDatabase.session, with_handle,
      Neo4jDatabase.execute_write, Neo4jDatabase._create_relationship_tx,
      Neo4jDatabase._create_aggregates_relationship, Neo4jDatabase.write_pairs.
    rewrite (truthy_nonempty from_id Ha).
    destruct to_ids as [|t ts]; [done|]. cbn [nonempty negb orb].
    destruct (neo4j_pairs_abort "AGGREGATES" rel_id
                (map (fun to_id => (from_id, to_id)) (t :: ts)) k 0 e fs
                (set_tx_failed false w) Hf)
      as (w1 & E & Hf1 & Hd1 & Hx1 & Hl1); [by rewrite length_map|].
    unfold try_except at 1. rewrite Hd. unfold try_except at 1. unfold bind at 1.
    rewrite E. rewrite bind_logger. unfold ret at 1. cbn [tx_failed add_log]. rewrite Hx1.
    rewrite bind_logger. eexists. split; [reflexivity|]. done.
  - intros Hw.
    unfold r, FalkorDBDatabase.create_relationship,
      FalkorDBDatabase._create_aggregates_relationship, FalkorDBDatabase.write_pairs.
    rewrite (truthy_nonempty from_id Ha).
    destruct to_ids as [|t ts]; [done|]. cbn [nonempty negb orb].
    destruct (falkordb_pairs_all_sent "Aggregation" "AGGREGATES" rel_id
                (map (fun to_id => (from_id, to_id)) (t :: ts)) 0 w Hw Hd)
      as (c & w1 & E & Hf1 & Hd1).
    unfold try_except. rewrite (bind_returns _ _ _ _ _ E).
    eexists _, _. split; [reflexivity|]. by rewrite length_map in Hf1.
Qed.

Lemma failing_pair_neo4j_aborts_falkordb_continues_witness :
  let w := set_faults [None; Some (Exception "connection reset"); None] Sample.connected in
  exists w', Neo4jDatabase.create_relationship
               (AGGREGATES "0rel" (Some "storey") ["wall"; "door"; "slab"]) w
             = (Ret false, w') /\ faults w' = [None].
Proof.
  intros w.
  destruct (failing_pair_neo4j_aborts_falkordb_continues "0rel" "storey"
              ["wall"; "door"; "slab"] 1 "connection reset" [None] w)
    as [(w' & E & Hf & _) _]; [reflexivity|discriminate|reflexivity|simpl; lia|].
  exists w'. split; [exact E|exact Hf].
Defined.

(** * What a successful element write leaves *)

Lemma merge_edge_nodes s d ty g : nodes (Cypher.merge_edge s d ty g).2 = nodes g.
Proof.
  unfold Cypher.merge_edge. by destruct (Cypher.find_indices _ _).
Qed.

Lemma merge_edges_nodes ty upd pairs g :
  (forall ids h, nodes (upd ids h) = nodes h) ->
  nodes (Cypher.merge_edges ty upd pairs g).2 = nodes g.
Proof.
  intros Hupd. revert g. induction pairs as [|[a b] rest IH]; intros g; [done|].
  cbn [Cypher.merge_edges].
  destruct (Cypher.merge_edge a b ty g) as [ids g1] eqn:E1.
  destruct (Cypher.merge_edges ty upd rest (upd ids g1)) as [rows g3] eqn:E3.
  cbn [snd]. pose proof (IH (upd ids g1)) as H. rewrite E3 in H. cbn [snd] in H.
  rewrite H, Hupd. pose proof (merge_edge_nodes a b ty g) as H1. by rewrite E1 in H1.
Qed.

Lemma nonempty_elem {A} (l : list A) : nonempty l = true -> exists x, x ∈ l.
Proof. destruct l as [|x l]; [done|]. exists x. left. Qed.

(** The node bound by [MERGE (e:Element:cls {globalId: gid}) SET ...],
    and the file node and edge of the [MATCH ... MERGE] that follows. *)
Lemma exec_element_post cls gid sets fid g :
  NoDup sets.*1 ->
  "globalId" ∉ sets.*1 \/ ("globalId", VStr gid) ∈ sets ->
  nonempty (Cypher.exec (Cypher.MergeElement cls gid sets fid) g).1 = true ->
  let g' := (Cypher.exec (Cypher.MergeElement cls gid sets fid) g).2 in
  exists i n,
    nodes g' !! i = Some n /\ {[ "Element"; cls ]} ⊆ labels n /\
    nprops n !! "globalId" = Some (VStr gid) /\
    (forall k v, (k, v) ∈ sets -> nprops n !! k = Some v) /\
    match fid with
    | None => True
    | Some f =>
        exists j m, nodes g' !! j = Some m /\ "IFCFile" ∈ labels m /\
                    nprops m !! "fileId" = Some (VStr f) /\
                    (i, j, "BELONGS_TO_FILE") ∈ (keys g').2
    end.
Proof.
  intros Hnd Hgid. unfold Cypher.exec.
  pose proof (merge_node_ids {[ "Element"; cls ]} "globalId" (VStr gid) g) as Hids.
  pose proof (merge_node_nonempty {[ "Element"; cls ]} "globalId" (VStr gid) g) as Hne.
  pose proof (merge_node_NoDup {[ "Element"; cls ]} "globalId" (VStr gid) g) as Hes.
  destruct (Cypher.merge_node _ _ _ g) as [es g1]. cbn [fst snd] in *.
  destruct es as [|i es']; [done|]. set (es := i :: es') in *.
  assert (i ∈ es) as Hi by left.
  pose proof Hi as Hi'. rewrite Hids in Hi'. unfold Cypher.match_nodes in Hi'.
  apply elem_of_find_indices in Hi' as (n1 & Hn1 & Hm).
  unfold Cypher.node_matches in Hm.
  apply andb_true_iff in Hm as [Hl%bool_decide_eq_true_1 Hp%bool_decide_eq_true_1].
  set (g2 := Cypher.set_nodes es sets g1).
  assert (nodes g2 !! i = Some (Cypher.set_node sets n1)) as Hn2.
  { unfold g2. rewrite set_nodes_lookup by done. rewrite Hn1. cbn.
    by rewrite bool_decide_eq_true_2. }
  assert (nprops (Cypher.set_node sets n1) !! "globalId" = Some (VStr gid)) as Hg.
  { cbn. destruct Hgid as [Hno|Hin].
    - by rewrite assign_lookup_ne.
    - by apply assign_lookup. }
  assert (forall k v, (k, v) ∈ sets -> nprops (Cypher.set_node sets n1) !! k = Some v) as Hs.
  { intros k v Hin. cbn. by apply assign_lookup. }
  destruct fid as [f|].
  - intros Hrows.
    set (fs := Cypher.match_nodes {[ "IFCFile" ]} "fileId" (VStr f) g2) in *.
    set (g' := (Cypher.merge_edges "BELONGS_TO_FILE" _ (Cypher.pairs_of es fs) g2).2).
    rewrite merge_edges_rows, pairs_of_nonempty in Hrows.
    apply andb_true_iff in Hrows as [_ Hfs]. apply nonempty_elem in Hfs as [j Hj].
    pose proof Hj as Hj'. unfold fs, Cypher.match_nodes in Hj'.
    apply elem_of_find_indices in Hj' as (m & Hm & Hfm).
    unfold Cypher.node_matches in Hfm.
    apply andb_true_iff in Hfm as [Hlm%bool_decide_eq_true_1 Hpm%bool_decide_eq_true_1].
    assert (nodes g' = nodes g2) as Hnodes by (by apply merge_edges_nodes).
    exists i, (Cypher.set_node sets n1). rewrite Hnodes.
    split; [done|]. split; [done|]. split; [done|]. split; [done|].
    exists j, m. split; [done|]. split; [apply Hlm; by apply elem_of_singleton|].
    split; [done|]. unfold g'. rewrite merge_edges_keys by done. cbn [snd].
    apply merge_edge_keys_has, elem_of_pairs_of. by split.
  - intros _. by exists i, (Cypher.set_node sets n1).
Qed.

Lemma element_properties_NoDup e fid : NoDup (element_properties e fid).*1.
Proof.
  unfold element_properties.
  destruct fid as [f|]; [destruct (Py.truthy (Some f))|];
    destruct (nonempty (properties e)); cbn;
    apply NoDup_ListNoDup; repeat constructor; cbn; intuition discriminate.
Qed.

Lemma set_fields_NoDup e fid : NoDup (FalkorDBDatabase.set_fields e fid).*1.
Proof.
  pose proof (element_properties_NoDup e fid) as H.
  rewrite set_fields_properties in H. cbn in H. by apply NoDup_cons in H as [_ H].
Qed.

Lemma set_fields_no_globalId e fid : "globalId" ∉ (FalkorDBDatabase.set_fields e fid).*1.
Proof.
  pose proof (element_properties_NoDup e fid) as H.
  rewrite set_fields_properties in H. cbn in H. by apply NoDup_cons in H as [H _].
Qed.

(** What a write that returned [True] has sent. *)
Lemma neo4j_element_true e fid w w' :
  Neo4jDatabase.create_element_node e fid w = (Ret true, w') ->
  let q := Cypher.MergeElement (ifcClass e) (globalId e) (element_properties e fid)
                               (provided fid) in
  nonempty (Cypher.exec q (graph w)).1 = true /\ graph w' = (Cypher.exec q (graph w)).2.
Proof.
  unfold Neo4jDatabase.create_element_node, Neo4jDatabase.session, with_handle,
    Neo4jDatabase.execute_write, Neo4jDatabase._create_element_tx, Neo4jDatabase.tx_run.
  unfold try_except at 1. destruct (driver w); [|by rewrite bind_logger].
  unfold try_except at 1. unfold bind at 1.
  destruct (run_statement _ _) as [[rows|[msg|]] w1] eqn:E.
  - apply run_statement_inv in E as (_ & -> & Hg & _).
    destruct (nonempty _) eqn:Hrows; rewrite bind_logger; unfold ret at 1;
      cbn [tx_failed add_log]; destruct (tx_failed w1);
      rewrite ?bind_logger; intros [= <-].
    split; [done|]. exact Hg.
  - rewrite bind_logger. unfold ret at 1. cbn [tx_failed add_log set_tx_failed].
    by rewrite bind_logger.
  - done.
Qed.

Lemma falkordb_element_true e fid w w' :
  FalkorDBDatabase.create_element_node e fid w = (Ret true, w') ->
  let q := Cypher.MergeElement (ifcClass e) (globalId e)
                               (FalkorDBDatabase.set_fields e fid) (provided fid) in
  nonempty (Cypher.exec q (graph w)).1 = true /\ graph w' = (Cypher.exec q (graph w)).2.
Proof.
  unfold FalkorDBDatabase.create_element_node, FalkorDBDatabase.graph_query, with_handle.
  unfold try_except at 1. unfold bind at 1. destruct (driver w); [|by rewrite bind_logger].
  destruct (run_statement _ w) as [[rows|[msg|]] w1] eqn:E.
  - apply run_statement_inv in E as (_ & -> & Hg & _).
    destruct (nonempty _) eqn:Hrows; rewrite bind_logger; intros [= <-].
    split; [done|]. exact Hg.
  - by rewrite !bind_logger.
  - done.
Qed.

(** X23. After [create_element_node] of either backend has returned
    [True], the store holds a node labelled [Element] and with the
    record's class, whose [globalId], [name], [ifcClass], [description],
    [objectType] and [tag] are the record's; and when a file identifier
    was given, an [IFCFile] node with that identifier and a
    [BELONGS_TO_FILE] edge from the element's node to it. *)
Theorem element_write_postcondition (element_data : ElementRecord)
        (file_id : option string) (w w' : World) :
  Neo4jDatabase.create_element_node element_data file_id w = (Ret true, w') \/
  FalkorDBDatabase.create_element_node element_data file_id w = (Ret true, w') ->
  exists i n,
    nodes (graph w') !! i = Some n /\
    "Element" ∈ labels n /\ ifcClass element_data ∈ labels n /\
    nprops n !! "globalId" = Some (VStr (globalId element_data)) /\
    nprops n !! "name" = Some (VStr (name element_data)) /\
    nprops n !! "ifcClass" = Some (VStr (ifcClass element_data)) /\
    nprops n !! "description" = Some (VStr (description element_data)) /\
    nprops n !! "objectType" = Some (VStr (objectType element_data)) /\
    nprops n !! "tag" = Some (VStr (tag element_data)) /\
    forall f, provided file_id = Some f ->
      exists j m, nodes (graph w') !! j = Some m /\ "IFCFile" ∈ labels m /\
                  nprops m !! "fileId" = Some (VStr f) /\
                  (i, j, "BELONGS_TO_FILE") ∈ (keys (graph w')).2.
Proof.
  intros H.
  assert (exists sets,
            NoDup sets.*1 /\
            ("globalId" ∉ sets.*1 \/ ("globalId", VStr (globalId element_data)) ∈ sets) /\
            (forall kv, kv ∈ FalkorDBDatabase.set_fields element_data file_id -> kv ∈ sets) /\
            nonempty (Cypher.exec (Cypher.MergeElement (ifcClass element_data)
                        (globalId element_data) sets (provided file_id)) (graph w)).1 = true /\
            graph w' = (Cypher.exec (Cypher.MergeElement (ifcClass element_data)
                          (globalId element_data) sets (provided file_id)) (graph w)).2)
    as (sets & Hnd & Hgid & Hsub & Hrows & Hg).
  { destruct H as [H|H].
    - apply neo4j_element_true in H as [H1 H2].
      exists (element_properties element_data file_id).
      split; [apply element_properties_NoDup|]. split; [right; left|].
      split; [|done]. intros kv Hin. rewrite set_fields_properties. by right.
    - apply falkordb_element_true in H as [H1 H2].
      exists (FalkorDBDatabase.set_fields element_data file_id).
      split; [apply set_fields_NoDup|]. split; [left; apply set_fields_no_globalId|].
      done. }
  destruct (exec_element_post _ _ _ _ _ Hnd Hgid Hrows) as (i & n & Hn & Hl & Hp & Hs & Hf).
  rewrite <- Hg in Hn, Hf.
  assert (forall k v, (k, v) ∈ FalkorDBDatabase.set_fields element_data file_id ->
                      nprops n !! k = Some v) as Hset.
  { intros k v Hin. by apply Hs, Hsub. }
  exists i, n. split; [done|].
  split; [apply Hl, elem_of_union_l; by apply elem_of_singleton|].
  split; [apply Hl, elem_of_union_r; by apply elem_of_singleton|]. split; [done|].
  unfold FalkorDBDatabase.set_fields in Hset.
  split; [apply Hset, elem_of_app; left; left|].
  split; [apply Hset, elem_of_app; left; right; left|].
  split; [apply Hset, elem_of_app; left; do 2 right; left|].
  split; [apply Hset, elem_of_app; left; do 3 right; left|].
  split; [apply Hset, elem_of_app; left; do 4 right; left|].
  intros f Hprov. by rewrite Hprov in Hf.
Qed.

Lemma element_write_postcondition_witness :
  exists w' i n,
    Neo4jDatabase.create_element_node Sample.wall None Sample.connected = (Ret true, w') /\
    nodes (graph w') !! i = Some n /\ "IfcWall" ∈ labels n.
Proof.
  assert (exists w', Neo4jDatabase.create_element_node Sample.wall None Sample.connected
                     = (Ret true, w')) as [w' E].
  { eexists. vm_compute. reflexivity. }
  destruct (element_write_postcondition Sample.wall None Sample.connected w' (or_introl E))
    as (i & n & Hn & _ & Hc & _).
  exists w', i, n. split; [exact E|]. split; [exact Hn|exact Hc].
Defined.

(** * An element whose file node is missing *)

(** The node bound by [MERGE (e:Element:cls {globalId: gid}) SET ...],
    whatever the rest of the statement finds. *)
Lemma exec_element_node cls gid sets fid g :
  NoDup sets.*1 ->
  "globalId" ∉ sets.*1 \/ ("globalId", VStr gid) ∈ sets ->
  exists i n,
    nodes (Cypher.exec (Cypher.MergeElement cls gid sets fid) g).2 !! i = Some n /\
    {[ "Element"; cls ]} ⊆ labels n /\
    nprops n !! "globalId" = Some (VStr gid) /\
    (forall k v, (k, v) ∈ sets -> nprops n !! k = Some v).
Proof.
  intros Hnd Hgid. unfold Cypher.exec.
  pose proof (merge_node_ids {[ "Element"; cls ]} "globalId" (VStr gid) g) as Hids.
  pose proof (merge_node_nonempty {[ "Element"; cls ]} "globalId" (VStr gid) g) as Hne.
  pose proof (merge_node_NoDup {[ "Element"; cls ]} "globalId" (VStr gid) g) as Hes.
  destruct (Cypher.merge_node _ _ _ g) as [es g1]. cbn [fst snd] in *.
  destruct es as [|i es']; [done|]. set (es := i :: es') in *.
  assert (i ∈ es) as Hi by left.
  pose proof Hi as Hi'. rewrite Hids in Hi'. unfold Cypher.match_nodes in Hi'.
  apply elem_of_find_indices in Hi' as (n1 & Hn1 & Hm).
  unfold Cypher.node_matches in Hm.
  apply andb_true_iff in Hm as [Hl%bool_decide_eq_true_1 Hp%bool_decide_eq_true_1].
  set (g2 := Cypher.set_nodes es sets g1).
  assert (nodes g2 !! i = Some (Cypher.set_node sets n1)) as Hn2.
  { unfold g2. rewrite set_nodes_lookup by done. rewrite Hn1. cbn.
    by rewrite bool_decide_eq_true_2. }
  exists i, (Cypher.set_node sets n1).
  split.
  { destruct fid as [f|]; [|done]. by rewrite merge_edges_nodes. }
  split; [done|]. split.
  - cbn. destruct Hgid as [Hno|Hin].
    + by rewrite assign_lookup_ne.
    + by apply assign_lookup.
  - intros k v Hin. cbn. by apply assign_lookup.
Qed.

(** Without a file node to match, the statement returns no row and is
    the one without the [MATCH ... MERGE] part. *)
Lemma exec_element_orphan cls gid sets f g :
  Keys.sets_ok (Cypher.MergeElement cls gid sets (Some f)) ->
  ~ has_file_node g f ->
  Cypher.exec (Cypher.MergeElement cls gid sets (Some f)) g =
  ([], (Cypher.exec (Cypher.MergeElement cls gid sets None) g).2).
Proof.
  intros Hok Hno.
  pose proof (rows_exec (Cypher.MergeElement cls gid sets (Some f)) g Hok) as Hrows.
  cbn [Keys.answers] in Hrows.
  assert (Cypher.find_indices (Keys.is_file f) (keys g).1 = []) as Hnone.
  { destruct (Cypher.find_indices _ _) eqn:E; [done|].
    destruct Hno. apply has_file_node_keys. by rewrite E. }
  rewrite Hnone in Hrows. cbn [nonempty] in Hrows.
  unfold Cypher.exec in *.
  destruct (Cypher.merge_node _ _ _ g) as [es g1]. cbn [snd].
  rewrite merge_edges_rows in Hrows.
  by destruct (Cypher.pairs_of _ _).
Qed.

Lemma exec_element_edges cls gid sets g :
  edges (Cypher.exec (Cypher.MergeElement cls gid sets None) g).2 = edges g.
Proof.
  unfold Cypher.exec.
  pose proof (merge_node_edges {[ "Element"; cls ]} "globalId" (VStr gid) g) as H.
  by destruct (Cypher.merge_node _ _ _ g) as [es g1].
Qed.

(** A statement that meets no driver event or a quiet one. *)
Lemma run_statement_next q w :
  hd None (faults w) = None -> Cypher.well_formed q = true ->
  exists w1,
    run_statement q w = (Ret (Cypher.exec q (graph w)).1, w1) /\
    graph w1 = (Cypher.exec q (graph w)).2 /\ driver w1 = driver w /\ log w1 = log w /\
    tx_failed w1 = tx_failed w.
Proof.
  intros Hf Hq. unfold run_statement, bind, next_event. rewrite Hq.
  destruct (faults w) as [|[e|] fs]; [|done|]; cbn [graph set_faults];
    destruct (Cypher.exec q (graph w)); by eexists.
Qed.

(** X24. [False] does not mean that nothing was written.  When
    [create_element_node] of either backend is given a file identifier
    for which the store has no [IFCFile] node, the call returns [False]
    with the warning "Node creation returned no result", yet the element
    node is in the store afterwards, with its labels and properties and
    a [sourceFileId] naming the absent file, and no edge was added. *)
Theorem element_without_file_node_is_written
        (element_data : ElementRecord) (file_id : string) (w : World) :
  driver w = true -> hd None (faults w) = None ->
  Py.is_ident (ifcClass element_data) = true -> file_id <> "" ->
  ~ has_file_node (graph w) file_id ->
  let written w' :=
    log w' = (log w ++ [(WARNING, "Node creation returned no result: "
                                  ++ globalId element_data)%string])%list /\
    edges (graph w') = edges (graph w) /\
    exists i n,
      nodes (graph w') !! i = Some n /\
      "Element" ∈ labels n /\ ifcClass element_data ∈ labels n /\
      nprops n !! "globalId" = Some (VStr (globalId element_data)) /\
      nprops n !! "name" = Some (VStr (name element_data)) /\
      nprops n !! "sourceFileId" = Some (VStr file_id) in
  (exists w', Neo4jDatabase.create_element_node element_data (Some file_id) w
              = (Ret false, w') /\ written w') /\
  (exists w', FalkorDBDatabase.create_element_node element_data (Some file_id) w
              = (Ret false, w') /\ written w').
Proof.
  intros Hd Hf Hcls Hfid Hno written.
  pose proof (truthy_nonempty file_id Hfid) as Ht.
  assert (forall sets w0,
            graph w0 = graph w -> log w0 = log w -> faults w0 = faults w ->
            Keys.sets_ok (Cypher.MergeElement (ifcClass element_data)
                            (globalId element_data) sets (Some file_id)) ->
            NoDup sets.*1 ->
            ("globalId" ∉ sets.*1 \/ ("globalId", VStr (globalId element_data)) ∈ sets) ->
            (forall kv, kv ∈ FalkorDBDatabase.set_fields element_data (Some file_id) ->
                        kv ∈ sets) ->
            exists w1,
              run_statement (Cypher.MergeElement (ifcClass element_data)
                               (globalId element_data) sets (Some file_id)) w0 = (Ret [], w1) /\
              tx_failed w1 = tx_failed w0 /\
              written (add_log WARNING ("Node creation returned no result: "
                                        ++ globalId element_data) w1)) as Hrun.
  { intros sets w0 Hg0 Hl0 Hf0 Hok Hnd Hgid Hsub.
    destruct (run_statement_next
                (Cypher.MergeElement (ifcClass element_data) (globalId element_data)
                                     sets (Some file_id)) w0)
      as (w1 & E & Hg & Hd1 & Hl & Hx); [by rewrite Hf0|done|].
    rewrite Hg0 in E, Hg. rewrite Hl0 in Hl.
    rewrite (exec_element_orphan _ _ _ _ _ Hok Hno) in E, Hg. cbn [fst snd] in E, Hg.
    exists w1. split; [done|]. split; [done|].
    unfold written. cbn [log graph add_log]. rewrite Hl, Hg.
    split; [done|]. split; [apply exec_element_edges|].
    destruct (exec_element_node (ifcClass element_data) (globalId element_data) sets None
                (graph w) Hnd Hgid) as (i & n & Hn & Hls & Hp & Hs).
    assert (forall k v, (k, v) ∈ FalkorDBDatabase.set_fields element_data (Some file_id) ->
                        nprops n !! k = Some v) as Hset.
    { intros k v Hin. by apply Hs, Hsub. }
    exists i, n. split; [done|].
    split; [apply Hls, elem_of_union_l; by apply elem_of_singleton|].
    split; [apply Hls, elem_of_union_r; by apply elem_of_singleton|]. split; [done|].
    unfold FalkorDBDatabase.set_fields in Hset. rewrite Ht in Hset.
    split; [apply Hset, elem_of_app; left; left|].
    apply Hset, elem_of_app; right. apply elem_of_app; left; left. }
  split.
  - destruct (Hrun (element_properties element_data (Some file_id))
                (set_tx_failed false w))
      as (w1 & E & Hx1 & Hw); [done..| | | | |].
    + apply element_properties_ok.
    + apply element_properties_NoDup.
    + right; left.
    + intros kv Hin. rewrite set_fields_properties. by right.
    + unfold Neo4jDatabase.create_element_node, Neo4jDatabase.session, with_handle,
        Neo4jDatabase.execute_write, Neo4jDatabase._create_element_tx, Neo4jDatabase.tx_run.
      unfold provided. rewrite Ht.
      unfold try_except at 1. rewrite Hd. unfold try_except at 1. unfold bind at 1.
      rewrite E. cbn [nonempty]. rewrite bind_logger. unfold ret at 1.
      cbn [tx_failed add_log]. rewrite Hx1. cbn [tx_failed set_tx_failed].
      eexists. split; [reflexivity|]. exact Hw.
  - destruct (Hrun (FalkorDBDatabase.set_fields element_data (Some file_id)) w)
      as (w1 & E & Hx1 & Hw); [done..| | | | |].
    + apply set_fields_ok.
    + apply set_fields_NoDup.
    + left. apply set_fields_no_globalId.
    + done.
    + unfold FalkorDBDatabase.create_element_node, FalkorDBDatabase.graph_query, with_handle.
      unfold provided. rewrite Ht.
      unfold try_except at 1. unfold bind at 1. rewrite Hd.
      rewrite E. cbn [nonempty]. rewrite bind_logger. by eexists.
Qed.

Lemma element_without_file_node_is_written_witness :
  exists w' i n,
    Neo4jDatabase.create_element_node Sample.wall (Some "FILE_Duplex_A_20110907_1315400000")
      Sample.connected = (Ret false, w') /\
    nodes (graph w') !! i = Some n /\
    nprops n !! "sourceFileId" = Some (VStr "FILE_Duplex_A_20110907_1315400000").
Proof.
  destruct (element_without_file_node_is_written Sample.wall
              "FILE_Duplex_A_20110907_1315400000" Sample.connected)
    as [(w' & E & _ & _ & i & n & Hn & _ & _ & _ & _ & Hs) _].
  - reflexivity.
  - reflexivity.
  - reflexivity.
  - discriminate.
  - intros (i & n & Hn & _). destruct i; discriminate Hn.
  - exists w', i, n. split; [exact E|]. split; [exact Hn|exact Hs].
Defined.

(** * Which files share a file node *)

Lemma file_id_of_inj stem mtime mtime' :
  file_id_of stem mtime = file_id_of stem mtime' -> mtime = mtime'.
Proof.
  unfold file_id_of. intros H.
  assert (forall s a b : string, (s ++ a = s ++ b)%string -> a = b) as Happ.
  { induction s as [|c s IH]; intros a b E; [done|]. injection E as E. by apply IH. }
  apply Happ, Happ, Happ in H. by apply (inj pretty).
Qed.

Lemma has_file_node_find g fid :
  has_file_node g fid -> Cypher.match_nodes {[ "IFCFile" ]} "fileId" (VStr fid) g <> [].
Proof.
  intros (i & n & Hn & Hl & Hp) E.
  assert (i ∈ Cypher.match_nodes {[ "IFCFile" ]} "fileId" (VStr fid) g) as Hi.
  { apply elem_of_find_indices. exists n. split; [done|]. unfold Cypher.node_matches.
    rewrite !bool_decide_eq_true_2; [done..|]. by apply singleton_subseteq_l. }
  rewrite E in Hi. by apply not_elem_of_nil in Hi.
Qed.

(** What the store holds stays through anything that only adds. *)
Lemma has_file_node_extends g g' fid :
  extends g g' -> has_file_node g fid -> has_file_node g' fid.
Proof.
  intros [[l Hl] _] H. apply has_file_node_keys.
  apply has_file_node_find in H. rewrite match_files_keys in H.
  destruct (Cypher.find_indices (Keys.is_file fid) (keys g).1) as [|i r] eqn:E; [done|].
  assert (i ∈ Cypher.find_indices (Keys.is_file fid) (keys g').1) as Hi.
  { rewrite Hl. apply find_indices_grow. rewrite E. left. }
  intros E'. rewrite E' in Hi. by apply not_elem_of_nil in Hi.
Qed.

(** [MERGE (f:IFCFile {fileId: fid}) SET ...] on a store that has the
    node: nothing is added, and every node of that identifier carries
    the new fields. *)
Lemma exec_file_again fid sets g :
  NoDup sets.*1 -> has_file_node g fid ->
  let g' := (Cypher.exec (Cypher.MergeFile fid sets) g).2 in
  node_count g' = node_count g /\
  forall i n, nodes g' !! i = Some n -> "IFCFile" ∈ labels n ->
              nprops n !! "fileId" = Some (VStr fid) ->
              forall k v, (k, v) ∈ sets -> nprops n !! k = Some v.
Proof.
  intros Hnd Hhas. apply has_file_node_find in Hhas. unfold Cypher.exec.
  pose proof (merge_node_ids {[ "IFCFile" ]} "fileId" (VStr fid) g) as Hids.
  pose proof (merge_node_NoDup {[ "IFCFile" ]} "fileId" (VStr fid) g) as Hfs.
  assert ((Cypher.merge_node {[ "IFCFile" ]} "fileId" (VStr fid) g).2 = g) as Hg1.
  { unfold Cypher.merge_node. by destruct (Cypher.match_nodes _ _ _ g). }
  destruct (Cypher.merge_node _ _ _ g) as [fs g1]. cbn [fst snd] in *. subst g1.
  split; [apply set_nodes_length|].
  intros i n Hn Hl Hp k v Hin.
  rewrite set_nodes_lookup in Hn by done.
  destruct (nodes g !! i) as [n0|] eqn:E0; [|done]. cbn in Hn.
  destruct (bool_decide (i ∈ fs)) eqn:Ei; injection Hn as <-.
  - cbn. by apply assign_lookup.
  - apply bool_decide_eq_false_1 in Ei. destruct Ei. rewrite Hids.
    apply elem_of_find_indices. exists n0. split; [done|]. unfold Cypher.node_matches.
    rewrite !bool_decide_eq_true_2; [done..|]. by apply singleton_subseteq_l.
Qed.

Lemma file_data_NoDup f st fid t : NoDup (file_data f st fid t).*1.
Proof. cbn. apply NoDup_ListNoDup. repeat constructor; cbn; intuition discriminate. Qed.

Lemma file_fields_NoDup f st fid t : NoDup (tail (file_data f st fid t)).*1.
Proof. cbn. apply NoDup_ListNoDup. repeat constructor; cbn; intuition discriminate. Qed.

(** What a file write that returned an identifier has sent. *)
Lemma neo4j_file_some f w fid w1 :
  Neo4jDatabase.create_file_node f w = (Ret (Some fid), w1) ->
  exists st t, stat f = Some st /\ fid = file_id_of (path_stem f) (st_mtime st) /\
               graph w1 = (Cypher.exec (Cypher.MergeFile fid (file_data f st fid t))
                                       (graph w)).2.
Proof.
  unfold Neo4jDatabase.create_file_node, Neo4jDatabase.session,
    Neo4jDatabase.execute_write, Neo4jDatabase._create_file_tx, Neo4jDatabase.tx_run,
    file_stat.
  destruct (stat f) as [st|]; monad_unfold; destruct (driver w); try discriminate.
  unfold now. cbn beta iota.
  destruct (run_statement _ _) as [[rows|[msg|]] w2] eqn:E; try discriminate.
  apply run_statement_inv in E as (_ & -> & Hg & _).
  rewrite exec_file_rows. cbn [tx_failed add_log].
  destruct (tx_failed w2); [discriminate|].
  intros [= <- <-]. exists st, (clock w).
  split; [done|]. split; [done|]. exact Hg.
Qed.

Lemma falkordb_file_some f w fid w1 :
  FalkorDBDatabase.create_file_node f w = (Ret (Some fid), w1) ->
  exists st t, stat f = Some st /\ fid = file_id_of (path_stem f) (st_mtime st) /\
               graph w1 = (Cypher.exec (Cypher.MergeFile fid (tail (file_data f st fid t)))
                                       (graph w)).2.
Proof.
  unfold FalkorDBDatabase.create_file_node, FalkorDBDatabase.graph_query, file_stat.
  destruct (stat f) as [st|]; monad_unfold; try discriminate.
  unfold now. cbn beta iota. cbn [driver set_clock].
  destruct (driver w); try discriminate.
  destruct (run_statement _ _) as [[rows|[msg|]] w2] eqn:E; try discriminate.
  apply run_statement_inv in E as (_ & -> & Hg & _).
  rewrite exec_file_rows. intros [= <- <-]. exists st, (clock w).
  split; [done|]. split; [done|]. exact Hg.
Qed.

(** X25. A file node stands for a stem and a modification second, not
    for a path.  Let [create_file_node] of one backend return an
    identifier for [f] and then for [f'], two files of the same stem.
    With the same modification second (the same file again, or another
    file of that name elsewhere) the identifiers are equal, no node is
    added and every node of that identifier now carries the name and
    path of [f'].  With different seconds (the file was modified) the
    identifiers differ and the store holds a file node for each: the
    earlier one is neither updated nor removed. *)
Theorem file_node_identity (f f' : SourceFile) (w w1 w2 : World) (id id' : string) :
  (Neo4jDatabase.create_file_node f w = (Ret (Some id), w1) /\
   Neo4jDatabase.create_file_node f' w1 = (Ret (Some id'), w2)) \/
  (FalkorDBDatabase.create_file_node f w = (Ret (Some id), w1) /\
   FalkorDBDatabase.create_file_node f' w1 = (Ret (Some id'), w2)) ->
  path_stem f = path_stem f' ->
  exists st st',
    stat f = Some st /\ stat f' = Some st' /\
    (st_mtime st = st_mtime st' ->
     id' = id /\ node_count (graph w2) = node_count (graph w1) /\
     forall i n, nodes (graph w2) !! i = Some n -> "IFCFile" ∈ labels n ->
                 nprops n !! "fileId" = Some (VStr id) ->
                 nprops n !! "fileName" = Some (VStr (path_name f')) /\
                 nprops n !! "filePath" = Some (VStr (path_absolute f'))) /\
    (st_mtime st <> st_mtime st' ->
     id' <> id /\ has_file_node (graph w2) id /\ has_file_node (graph w2) id').
Proof.
  intros H Hstem.
  assert (exists st st' sets',
            stat f = Some st /\ stat f' = Some st' /\
            id = file_id_of (path_stem f) (st_mtime st) /\
            id' = file_id_of (path_stem f') (st_mtime st') /\
            has_file_node (graph w1) id /\ has_file_node (graph w2) id' /\
            extends (graph w1) (graph w2) /\
            NoDup sets'.*1 /\
            ("fileName", VStr (path_name f')) ∈ sets' /\
            ("filePath", VStr (path_absolute f')) ∈ sets' /\
            graph w2 = (Cypher.exec (Cypher.MergeFile id' sets') (graph w1)).2)
    as (st & st' & sets' & Hst & Hst' & Hid & Hid' & Hhas & Hhas' & Hext & Hnd & Hn & Hp & Hg).
  { destruct H as [[E1 E2]|[E1 E2]].
    - pose proof (neo4j_file_node_written _ _ _ _ E1) as [(st & Hst & Hid) Hhas].
      pose proof neo4j_appends as (Happ & _). specialize (Happ f' w1).
      cbn [create_file_node neo4j] in Happ. rewrite E2 in Happ.
      pose proof (neo4j_file_node_written _ _ _ _ E2) as [_ Hhas'].
      apply neo4j_file_some in E2 as (st' & t & Hst' & Hid' & Hg).
      exists st, st', (file_data f' st' id' t).
      split; [done|]. split; [done|]. split; [done|]. split; [done|]. split; [done|].
      split; [done|]. split; [done|]. split; [apply file_data_NoDup|].
      split; [right; left|]. split; [do 2 right; left|]. done.
    - pose proof (falkordb_file_node_written _ _ _ _ E1) as [(st & Hst & Hid) Hhas].
      pose proof falkordb_appends as (Happ & _). specialize (Happ f' w1).
      cbn [create_file_node falkordb] in Happ. rewrite E2 in Happ.
      pose proof (falkordb_file_node_written _ _ _ _ E2) as [_ Hhas'].
      apply falkordb_file_some in E2 as (st' & t & Hst' & Hid' & Hg).
      exists st, st', (tail (file_data f' st' id' t)).
      split; [done|]. split; [done|]. split; [done|]. split; [done|]. split; [done|].
      split; [done|]. split; [done|]. split; [apply file_fields_NoDup|].
      split; [left|]. split; [right; left|]. done. }
  exists st, st'. split; [done|]. split; [done|]. split.
  - intros Hm. assert (id' = id) as -> by (rewrite Hid, Hid', Hstem, Hm; done).
    split; [done|].
    destruct (exec_file_again id sets' (graph w1) Hnd Hhas) as [Hc Hset].
    rewrite <- Hg in Hc, Hset. split; [done|].
    intros i n Hi Hl Hf. split; by eapply Hset.
  - intros Hm. split.
    + intros ->. apply Hm. rewrite Hid', <- Hstem in Hid. by apply file_id_of_inj in Hid.
    + split; [by apply (has_file_node_extends (graph w1))|done].
Qed.

Lemma file_node_identity_witness :
  let f' := mkSourceFile "other/Duplex_A_20110907.ifc" "Duplex_A_20110907.ifc"
                         "Duplex_A_20110907" "/work/other/Duplex_A_20110907.ifc"
                         (Some (mkStat 2400000 1315400000 1315500000)) (Some Sample.model) in
  exists id id' w1 w2,
    Neo4jDatabase.create_file_node Sample.duplex Sample.connected = (Ret (Some id), w1) /\
    Neo4jDatabase.create_file_node f' w1 = (Ret (Some id'), w2) /\
    id' <> id /\ has_file_node (graph w2) id /\ has_file_node (graph w2) id'.
Proof.
  intros f'.
  assert (exists id w1, Neo4jDatabase.create_file_node Sample.duplex Sample.connected
                        = (Ret (Some id), w1)) as (id & w1 & E1).
  { eexists _, _. vm_compute. reflexivity. }
  assert (exists id' w2, Neo4jDatabase.create_file_node f' w1 = (Ret (Some id'), w2))
    as (id' & w2 & E2).
  { injection E1 as <- <-. eexists _, _. vm_compute. reflexivity. }
  destruct (file_node_identity Sample.duplex f' Sample.connected w1 w2 id id'
              (or_introl (conj E1 E2)) eq_refl)
    as (st & st' & Hst & Hst' & _ & Hdiff).
  injection Hst as <-. injection Hst' as <-.
  destruct (Hdiff ltac:(discriminate)) as (Hne & H1 & H2).
  exists id, id', w1, w2. split; [exact E1|]. split; [exact E2|].
  split; [exact Hne|]. split; [exact H1|exact H2].
Defined.
